(** * GlacierScript: a shallow embedding of the deterministic core

    The development follows [glacierscript.py]: the helper functions keep
    their Python names, the [decimal] values the script computes with are
    coefficient/exponent pairs under the default context (28 digits,
    round-half-even), Python floats are dyadic rationals that are compared
    exactly, and the calls to [bitcoin-cli], [qrencode] and the operator's
    terminal are explicit requests, replies and scripted answers. *)

From Stdlib Require Import ZArith List String Ascii Bool Lia.
From Equations Require Import Equations.
Import ListNotations.

Local Open Scope list_scope.
Local Open Scope string_scope.
Local Open Scope Z_scope.

(** ** Python exceptions and results *)

Inductive exn : Type :=
| Exception (msg : string)
| ValueError
| InvalidOperation
| DivisionByZero
| CalledProcessError
| StopIteration
| EOFError
| SystemExit.

Inductive result (A : Type) : Type :=
| Ok (a : A)
| Raise (e : exn).

Arguments Ok {A} a.
Arguments Raise {A} e.

Definition bind {A B : Type} (r : result A) (k : A -> result B) : result B :=
  match r with
  | Ok a => k a
  | Raise e => Raise e
  end.

Notation "x <- r ;; k" := (bind r (fun x => k))
  (at level 61, r at next level, right associativity).

(** ** The [decimal] module, as far as the script uses it

    A finite [Decimal] is [coef * 10 ^ expo].  The sign lives in [coef],
    so the model has no negative zero: [Decimal('-0')] and a negative
    value that rounds to zero, which Python prints with a minus sign,
    have no counterpart, and every zero here is the positive one.  NaN,
    infinities and the exponent limits [Emax]/[Emin] = +-999999 are left
    out: no amount of the script gets near them. *)

Module Dec.

Record t : Type := mk { coef : Z; expo : Z }.

(** [getcontext().prec] *)
Definition prec : Z := 28.

(** [len(self._int)]: the number of decimal digits of a non-negative
    coefficient; ["0"] has one digit. *)
Fixpoint ndigits_aux (fuel : nat) (n : Z) : Z :=
  match fuel with
  | O => 1
  | S f => if n <? 10 then 1 else 1 + ndigits_aux f (n / 10)
  end.

Definition ndigits (n : Z) : Z := ndigits_aux (Z.to_nat (Z.log2 n)) n.

(** [self.adjusted()] *)
Definition adjusted (d : t) : Z := expo d + ndigits (Z.abs (coef d)) - 1.

(** ROUND_HALF_EVEN of [n / 10 ^ k] for [n >= 0], [k >= 0]. *)
Definition round_half_even (n k : Z) : Z :=
  let d := 10 ^ k in
  let q := n / d in
  let r := n mod d in
  if 2 * r <? d then q
  else if d <? 2 * r then q + 1
  else if Z.even q then q else q + 1.

(** [Decimal._fix]: round to the context precision. *)
Definition fix_ (d : t) : t :=
  let n := Z.abs (coef d) in
  let len := ndigits n in
  if len <=? prec then d
  else
    let k := len - prec in
    let q := round_half_even n k in
    if ndigits q <=? prec then mk (Z.sgn (coef d) * q) (expo d + k)
    else mk (Z.sgn (coef d) * (q / 10)) (expo d + k + 1).

(** [Decimal._rescale(exp, ROUND_HALF_EVEN)] *)
Definition rescale (d : t) (e : Z) : t :=
  if coef d =? 0 then mk 0 e
  else if e <=? expo d then mk (coef d * 10 ^ (expo d - e)) e
  else mk (Z.sgn (coef d) * round_half_even (Z.abs (coef d)) (e - expo d)) e.

(** [Decimal.quantize(exp)] *)
Definition quantize (d q : t) : result t :=
  if coef d =? 0 then Ok (fix_ (mk 0 (expo q)))
  else if prec <? adjusted d - expo q + 1 then Raise InvalidOperation
  else
    let ans := rescale d (expo q) in
    if prec <? ndigits (Z.abs (coef ans)) then Raise InvalidOperation
    else Ok (fix_ ans).

(** [Decimal(n)] for a Python int *)
Definition of_int (n : Z) : t := mk n 0.

Definition neg (d : t) : t := mk (- coef d) (expo d).

(** [Decimal.__add__]: the exact sum at the smaller exponent, rounded to
    the context precision; with one zero operand the other is rescaled. *)
Definition add (a b : t) : t :=
  let e := Z.min (expo a) (expo b) in
  if (coef a =? 0) && (coef b =? 0) then fix_ (mk 0 e)
  else if coef a =? 0 then fix_ (rescale b (Z.max e (expo b - prec - 1)))
  else if coef b =? 0 then fix_ (rescale a (Z.max e (expo a - prec - 1)))
  else fix_ (mk (coef a * 10 ^ (expo a - e) + coef b * 10 ^ (expo b - e)) e).

Definition sub (a b : t) : t := add a (neg b).

(** [Decimal.__mul__] *)
Definition mul (a b : t) : t := fix_ (mk (coef a * coef b) (expo a + expo b)).

(** The loop of [__truediv__] that brings an exact quotient as close to
    the ideal exponent as its trailing zeros allow. *)
Fixpoint strip_zeros (fuel : nat) (c e ideal : Z) : Z * Z :=
  match fuel with
  | O => (c, e)
  | S f =>
      if (e <? ideal) && (c mod 10 =? 0)
      then strip_zeros f (c / 10) (e + 1) ideal
      else (c, e)
  end.

(** [Decimal.__truediv__] *)
Definition div (a b : t) : result t :=
  if coef b =? 0 then
    Raise (if coef a =? 0 then InvalidOperation else DivisionByZero)
  else if coef a =? 0 then Ok (fix_ (mk 0 (expo a - expo b)))
  else
    let sign := Z.sgn (coef a) * Z.sgn (coef b) in
    let n1 := Z.abs (coef a) in
    let n2 := Z.abs (coef b) in
    let shift := ndigits n2 - ndigits n1 + prec + 1 in
    let e := expo a - expo b - shift in
    let ideal := expo a - expo b in
    let num := if 0 <=? shift then n1 * 10 ^ shift else n1 in
    let den := if 0 <=? shift then n2 else n2 * 10 ^ (- shift) in
    let q := num / den in
    let r := num mod den in
    let ce :=
      if r =? 0 then strip_zeros (Z.to_nat (ideal - e)) q e ideal
      else (if q mod 5 =? 0 then q + 1 else q, e) in
    Ok (fix_ (mk (sign * fst ce) (snd ce))).

(** [int(d)]: truncation towards zero *)
Definition to_int (d : t) : Z :=
  if 0 <=? expo d then coef d * 10 ^ expo d
  else Z.quot (coef d) (10 ^ (- expo d)).

(** Exact comparison of two decimals *)
Definition compare (a b : t) : comparison :=
  let e := Z.min (expo a) (expo b) in
  Z.compare (coef a * 10 ^ (expo a - e)) (coef b * 10 ^ (expo b - e)).

Definition ltb (a b : t) : bool :=
  match compare a b with Lt => true | _ => false end.

Definition gtb (a b : t) : bool := ltb b a.

End Dec.

(** ** Python floats

    A finite double is [mant * 2 ^ bexp]; the script only compares
    decimals with float literals, which Python does on the exact values. *)

Module Float.

Record t : Type := mk { mant : Z; bexp : Z }.

(** The double [1e-8] = 0x1.5798ee2308c3ap-27, in lowest terms *)
Definition lit_1e_8 : t := mk 3022314549036573 (-78).

(** The double [.005] = 0x1.47ae147ae147bp-8, in lowest terms *)
Definition lit_005 : t := mk 5764607523034235 (-60).

(** [Decimal.from_float]: exact, [mant] odd or zero *)
Definition to_dec (f : t) : Dec.t :=
  if 0 <=? bexp f then Dec.mk (mant f * 2 ^ bexp f) 0
  else Dec.mk (mant f * 5 ^ (- bexp f)) (bexp f).

(** The exact comparison that [Decimal.__lt__] and [Decimal.__gt__]
    perform on a float operand. *)
Definition compare_dec (d : Dec.t) (f : t) : comparison :=
  let p10 := 10 ^ (- Z.min (Dec.expo d) 0) in
  let p2 := 2 ^ (- Z.min (bexp f) 0) in
  Z.compare (Dec.coef d * 10 ^ Z.max (Dec.expo d) 0 * p2)
            (mant f * 2 ^ Z.max (bexp f) 0 * p10).

Definition dec_ltb (d : Dec.t) (f : t) : bool :=
  match compare_dec d f with Lt => true | _ => false end.

Definition dec_gtb (d : Dec.t) (f : t) : bool :=
  match compare_dec d f with Gt => true | _ => false end.

End Float.

(** ** Strings

    A Python [str] is the sequence of its characters; the 8-bit
    characters of [string] are the code points below 256, so every ASCII
    text is covered and no text with other characters is. *)

(** Text of ASCII characters only *)
Definition ascii_text (s : string) : Prop :=
  forall c, In c (list_ascii_of_string s) -> (N_of_ascii c < 128)%N.

Definition zeros (n : nat) : string := string_of_list_ascii (repeat "0"%char n).

(** [str(n)] for a non-negative int *)
Definition digit_char (d : Z) : ascii := ascii_of_N (Z.to_N (48 + d)).

Fixpoint digits_aux (fuel : nat) (n : Z) (acc : string) : string :=
  match fuel with
  | O => acc
  | S f =>
      let acc' := String (digit_char (n mod 10)) acc in
      if n <? 10 then acc' else digits_aux f (n / 10) acc'
  end.

Definition digits (n : Z) : string := digits_aux (S (Z.to_nat (Z.log2 n))) n EmptyString.

(** [str(n)] for a Python int *)
Definition str_int (n : Z) : string :=
  if n <? 0 then "-" ++ digits (- n) else digits n.

(** ["%+d" % n] *)
Definition signed_int (n : Z) : string :=
  if n <? 0 then "-" ++ digits (- n) else "+" ++ digits n.

(** [Decimal.__str__]: scientific notation as soon as the exponent is
    positive or the value has more than six leading fractional zeros. *)
Definition str_Decimal (d : Dec.t) : string :=
  let sign := if Dec.coef d <? 0 then "-" else EmptyString in
  let int_ := digits (Z.abs (Dec.coef d)) in
  let len := Z.of_nat (length int_) in
  let leftdigits := Dec.expo d + len in
  let dotplace :=
    if (Dec.expo d <=? 0) && (-6 <? leftdigits) then leftdigits else 1 in
  let intpart :=
    if dotplace <=? 0 then "0"
    else if len <=? dotplace then int_ ++ zeros (Z.to_nat (dotplace - len))
    else substring 0 (Z.to_nat dotplace) int_ in
  let fracpart :=
    if dotplace <=? 0 then "." ++ zeros (Z.to_nat (- dotplace)) ++ int_
    else if len <=? dotplace then EmptyString
    else "." ++ substring (Z.to_nat dotplace) (Z.to_nat (len - dotplace)) int_ in
  let exp :=
    if leftdigits =? dotplace then EmptyString
    else "E" ++ signed_int (leftdigits - dotplace) in
  sign ++ intpart ++ fracpart ++ exp.

(** *** Hexadecimal *)

(** One digit of [int(s, 16)] *)
Definition hex_digit (c : ascii) : option Z :=
  let n := Z.of_N (N_of_ascii c) in
  if (48 <=? n) && (n <=? 57) then Some (n - 48)
  else if (97 <=? n) && (n <=? 102) then Some (n - 87)
  else if (65 <=? n) && (n <=? 70) then Some (n - 55)
  else None.

Fixpoint int16_aux (s : string) (acc : Z) : option Z :=
  match s with
  | EmptyString => Some acc
  | String c s' =>
      match hex_digit c with
      | Some d => int16_aux s' (16 * acc + d)
      | None => None
      end
  end.

(** [int(s, 16)] on digit strings.  Python also accepts a sign, a [0x]
    prefix, single underscores and surrounding white space; on those this
    model raises [ValueError] like on any other non-digit. *)
Definition int16 (s : string) : result Z :=
  match s with
  | EmptyString => Raise ValueError
  | _ => match int16_aux s 0 with
         | Some n => Ok n
         | None => Raise ValueError
         end
  end.

Definition is_hex_char (c : ascii) : bool :=
  match hex_digit c with Some _ => true | None => false end.

(** A valid hex-digit string: non-empty, every character in 0-9a-fA-F *)
Definition is_hex_string (s : string) : bool :=
  negb (String.eqb s EmptyString) && forallb is_hex_char (list_ascii_of_string s).

Definition hex_char (d : Z) : ascii :=
  if d <? 10 then ascii_of_N (Z.to_N (48 + d)) else ascii_of_N (Z.to_N (87 + d)).

Fixpoint hex_aux (fuel : nat) (n : Z) (acc : string) : string :=
  match fuel with
  | O => acc
  | S f =>
      let acc' := String (hex_char (n mod 16)) acc in
      if n <? 16 then acc' else hex_aux f (n / 16) acc'
  end.

(** ["{:x}".format(n)] for [n >= 0] *)
Definition format_x (n : Z) : string := hex_aux (S (Z.to_nat (Z.log2 n))) n EmptyString.

(** ["{:0{}x}".format(n, width)] for [n >= 0] *)
Definition format_0x (n : Z) (width : nat) : string :=
  let s := format_x n in
  zeros (width - length s) ++ s.

(** ["{:02d}".format(n)] for [n >= 0] *)
Definition format_02d (n : Z) : string :=
  let s := digits n in
  zeros (2 - length s) ++ s.

(** *** Slices and case *)

(** [s[0:n]] *)
Fixpoint take (n : nat) (s : string) : string :=
  match n, s with
  | S n', String c s' => String c (take n' s')
  | _, _ => EmptyString
  end.

(** [s[n:]] *)
Fixpoint drop (n : nat) (s : string) : string :=
  match n, s with
  | S n', String _ s' => drop n' s'
  | _, _ => s
  end.

Definition upper_char (c : ascii) : ascii :=
  let n := N_of_ascii c in
  if ((97 <=? n) && (n <=? 122))%N then ascii_of_N (n - 32) else c.

(** [s.upper()] on ASCII text *)
Fixpoint upper (s : string) : string :=
  match s with
  | EmptyString => EmptyString
  | String c s' => String (upper_char c) (upper s')
  end.

(** [''.join(l)] *)
Definition join (l : list string) : string := fold_right append EmptyString l.

(** [c.isspace()] for an ASCII character: tab to carriage return, the
    four separators 28 to 31, and the space *)
Definition is_space (c : ascii) : bool :=
  let n := Z.of_N (N_of_ascii c) in
  ((9 <=? n) && (n <=? 13)) || ((28 <=? n) && (n <=? 32)).

(** [s.lstrip()] *)
Fixpoint lstrip (s : string) : string :=
  match s with
  | EmptyString => EmptyString
  | String c s' => if is_space c then lstrip s' else s
  end.

(** [s.rstrip()] *)
Fixpoint rstrip (s : string) : string :=
  match s with
  | EmptyString => EmptyString
  | String c s' =>
      match rstrip s' with
      | EmptyString => if is_space c then EmptyString else String c EmptyString
      | String c' r => String c (String c' r)
      end
  end.

(** [s.strip()] on ASCII text *)
Definition strip (s : string) : string := rstrip (lstrip s).

(** [unchunk]: spaces are removed *)
Fixpoint unchunk (s : string) : string :=
  match s with
  | EmptyString => EmptyString
  | String c s' => if Ascii.eqb c " " then unchunk s' else String c (unchunk s')
  end.

(** ** Minor helper functions *)

(** [SATOSHI_PLACES = Decimal("0.00000001")] *)
Definition SATOSHI_PLACES : Dec.t := Dec.mk 1 (-8).

Definition satoshi_to_btc (satoshi : Z) : result Dec.t :=
  value <- Dec.div (Dec.of_int satoshi) (Dec.of_int 100000000) ;;
  Dec.quantize value SATOSHI_PLACES.

Definition btc_to_satoshi (btc : Dec.t) : Z :=
  let value := Dec.mul btc (Dec.of_int 100000000) in
  Dec.to_int value.

(** ** Private key generation *)

Definition xor_hex_strings (str1 str2 : string) : result string :=
  if negb (length str1 =? length str2)%nat
  then Raise (Exception "tried to xor strings of unequal length")
  else
    str1_dec <- int16 str1 ;;
    str2_dec <- int16 str2 ;;
    let xored := Z.lxor str1_dec str2_dec in
    Ok (format_0x xored (length str1)).

(** One digit of [int(s)] *)
Definition dec_digit (c : ascii) : option Z :=
  let n := Z.of_N (N_of_ascii c) in
  if (48 <=? n) && (n <=? 57) then Some (n - 48) else None.

Fixpoint int10_aux (s : string) (acc : Z) : option Z :=
  match s with
  | EmptyString => Some acc
  | String c s' =>
      match dec_digit c with
      | Some d => int10_aux s' (10 * acc + d)
      | None => None
      end
  end.

(** [int(s)] on strings of decimal digits, with the restriction stated
    for [int16] *)
Definition int10 (s : string) : result Z :=
  match s with
  | EmptyString => Raise ValueError
  | _ => match int10_aux s 0 with
         | Some n => Ok n
         | None => Raise ValueError
         end
  end.

(** A digit as [hexdigest()] and ["{:x}"] write it: 0-9 or a-f *)
Definition is_lower_hex_char (c : ascii) : bool :=
  let n := Z.of_N (N_of_ascii c) in
  ((48 <=? n) && (n <=? 57)) || ((97 <=? n) && (n <=? 102)).

Definition is_lower_hex_string (s : string) : bool :=
  negb (String.eqb s EmptyString)
  && forallb is_lower_hex_char (list_ascii_of_string s).

(** ** Read and validate random data from the user *)

Definition validate_rng_seed (seed : string) (min_length : Z) : bool :=
  if Z.of_nat (String.length seed) <? min_length then false
  else if negb (Z.of_nat (String.length seed) mod 2 =? 0) then false
  else match int16 seed with
       | Ok _ => true
       | Raise _ => false
       end.

(** [int(die)] on one character of ASCII text: the value of a digit 0-9,
    [ValueError] for any other character.  (Python's [int] also reads the
    decimal digits of other scripts, which are not ASCII.) *)
Definition int_char (die : ascii) : result Z :=
  let n := Z.of_N (N_of_ascii die) in
  if (48 <=? n) && (n <=? 57) then Ok (n - 48) else Raise ValueError.

(** The body of the [for die in dice] loop: [False] is returned when
    [i < 1 or i > 6] and when [int] raises *)
Definition valid_die (die : ascii) : bool :=
  match int_char die with
  | Ok i => negb ((i <? 1) || (6 <? i))
  | Raise _ => false
  end.

Definition validate_dice_seed (dice : string) (min_length : Z) : bool :=
  if Z.of_nat (String.length dice) <? min_length then false
  else forallb valid_die (list_ascii_of_string dice).

(** The re-prompting loops read lines until one validates; [input()]
    at the end of the input raises [EOFError]. *)
Fixpoint read_rng_seed_loop (char_length : Z) (stdin : list string)
    : result string * list string :=
  match stdin with
  | [] => (Raise EOFError, [])
  | line :: rest =>
      let seed := unchunk line in
      if validate_rng_seed seed char_length then (Ok seed, rest)
      else read_rng_seed_loop char_length rest
  end.

Definition read_rng_seed_interactive (min_length : Z) (stdin : list string)
    : result string * list string :=
  let char_length := min_length * 2 in
  read_rng_seed_loop char_length stdin.

Fixpoint read_dice_seed_interactive (min_length : Z) (stdin : list string)
    : result string * list string :=
  match stdin with
  | [] => (Raise EOFError, [])
  | line :: rest =>
      let dice := unchunk line in
      if validate_dice_seed dice min_length then (Ok dice, rest)
      else read_dice_seed_interactive min_length rest
  end.

(** [safety_checklist]: six questions, anything but y/Y exits *)
Fixpoint safety_checks (checks : nat) (stdin : list string)
    : result unit * list string :=
  match checks with
  | O => (Ok tt, stdin)
  | S more =>
      match stdin with
      | [] => (Raise EOFError, [])
      | answer :: rest =>
          if negb (String.eqb (upper answer) "Y") then (Raise SystemExit, rest)
          else safety_checks more rest
      end
  end.

Definition safety_checklist (stdin : list string) : result unit * list string :=
  safety_checks 6 stdin.

(** ** Python values stored in the destinations dictionary *)

Inductive pyval : Type :=
| PInt (n : Z)
| PStr (s : string).

(** [a == b]: an int never equals a str *)
Definition py_eqb (a b : pyval) : bool :=
  match a, b with
  | PInt n, PInt m => n =? m
  | PStr s, PStr t => String.eqb s t
  | _, _ => false
  end.

(** A number held by [change_amount]: a [Decimal], or the int [0] *)
Inductive number : Type :=
| NInt (n : Z)
| NDec (d : Dec.t).

Definition str (x : number) : string :=
  match x with
  | NInt n => str_int n
  | NDec d => str_Decimal d
  end.

(** *** [OrderedDict]: keys in insertion order, a key set again keeps
    its place *)

Definition odict (V : Type) : Type := list (string * V).

Fixpoint od_set {V : Type} (k : string) (v : V) (d : odict V) : odict V :=
  match d with
  | [] => [(k, v)]
  | (k', v') :: d' =>
      if String.eqb k k' then (k, v) :: d' else (k', v') :: od_set k v d'
  end.

(** [OrderedDict(pairs)] *)
Definition OrderedDict {V : Type} (pairs : list (string * V)) : odict V :=
  fold_left (fun d kv => od_set (fst kv) (snd kv) d) pairs [].

Definition keys {V : Type} (d : odict V) : list string := map fst d.

(** ** Decoded transactions, in Bitcoin Core's JSON layout *)

Record ScriptPubKey : Type := {
  spk_address : option string;   (* the "address" key may be missing *)
  spk_hex : string
}.

Record TxOut : Type := {
  out_value : Float.t;
  out_n : Z;
  out_scriptPubKey : ScriptPubKey
}.

Record Tx : Type := {
  tx_txid : string;
  tx_vout : list TxOut
}.

(** One pass of the [for output in tx["vout"]] loop of [get_utxos] *)
Definition get_utxos_step (address : string) (utxos : list TxOut)
    (output : TxOut) : list TxOut :=
  match spk_address (out_scriptPubKey output) with
  | None => utxos                                            (* continue *)
  | Some a => if String.eqb address a then utxos ++ [output] else utxos
  end.

Definition get_utxos (tx : Tx) (address : string) : list TxOut :=
  fold_left (get_utxos_step address) (tx_vout tx) [].

(** An output whose locking script resolves to [address] *)
Definition pays_to (address : string) (output : TxOut) : bool :=
  match spk_address (out_scriptPubKey output) with
  | Some a => String.eqb address a
  | None => false
  end.

(** ** The external node

    Every [bitcoind]/[bitcoin-cli] invocation is a [request]; the node
    answers through the fields of [Node] ([None]: non-zero exit code). *)

Record TxIn : Type := { in_txid : string; in_vout : Z }.

Record SignIn : Type := {
  si_txid : string;
  si_vout : Z;
  si_amount : Float.t;
  si_scriptPubKey : string;
  si_redeemScript : string
}.

Inductive request : Type :=
| bitcoind (args : list string)
| getnetworkinfo
| listwallets
| listwalletdir
| loadwallet
| createwallet
| importprivkey (privkey label : string)
| getaddressesbylabel (label : string)
| addmultisigaddress_ (m : Z) (addresses : list string) (address_type : string)
| createrawtransaction (inputs : list TxIn) (outputs : odict pyval)
| signrawtransactionwithkey (unsigned_hex : string) (keys : list string)
    (inputs : list SignIn)
| decoderawtransaction (hex : string).

Definition is_createrawtransaction (req : request) : bool :=
  match req with
  | createrawtransaction _ _ => true
  | _ => false
  end.

(** The requests that start the daemon and prepare the default wallet *)
Definition is_startup_request (req : request) : bool :=
  match req with
  | bitcoind _ | getnetworkinfo | listwallets | listwalletdir
  | loadwallet | createwallet => true
  | _ => false
  end.

Definition not_importprivkey (req : request) : Prop :=
  match req with
  | importprivkey _ _ => False
  | _ => True
  end.

Record SignedTx : Type := { st_hex : string; st_complete : bool }.

Record Multisig : Type := { ms_address : string; ms_redeemScript : string }.

Record Node : Type := {
  node_up : bool;                         (* getnetworkinfo exits with 0 *)
  node_version : Z;
  node_listwallets : option (list string);    (* the names of the loaded wallets *)
  node_listwalletdir : option (list string);  (* the names under "wallets" *)
  node_loadwallet : option string;            (* the "warning" of the reply *)
  node_createwallet : option string;          (* the "warning" of the reply *)
  node_addresses : string -> option (list string);
  node_addmultisig : Z -> list string -> string -> option Multisig;
  node_createraw : list TxIn -> odict pyval -> option string;
  node_sign : string -> list string -> list SignIn -> option SignedTx;
  node_vsize : string -> option Z
}.

(** Computations that talk to the node: the requests made, in order, and
    the result. *)
Definition M (A : Type) : Type := list request * result A.

Definition ret {A : Type} (a : A) : M A := ([], Ok a).

Definition raise {A : Type} (e : exn) : M A := ([], Raise e).

Definition lift {A : Type} (r : result A) : M A := ([], r).

Definition mbind {A B : Type} (m : M A) (k : A -> M B) : M B :=
  match m with
  | (l, Ok a) => let (l', r) := k a in ((l ++ l')%list, r)
  | (l, Raise e) => (l, Raise e)
  end.

Notation "x <~ m ;; k" := (mbind m (fun x => k))
  (at level 61, m at next level, right associativity).

(** [bitcoin_cli_call]: the return code is handed back, nothing raised *)
Definition bitcoin_cli_call (req : request) (ok : bool) : M bool := ([req], Ok ok).

(** [bitcoin_cli_checkoutput]/[bitcoin_cli_json]: a non-zero return code
    raises [CalledProcessError] *)
Definition bitcoin_cli_json {A : Type} (req : request) (reply : option A) : M A :=
  ([req], match reply with Some a => Ok a | None => Raise CalledProcessError end).

Fixpoint mapM {A B : Type} (f : A -> M B) (l : list A) : M (list B) :=
  match l with
  | [] => ret []
  | a :: l' => b <~ f a ;; bs <~ mapM f l' ;; ret (b :: bs)
  end.

(** ** Splitting data over several QR codes *)

Definition MAX_QR_LEN (all_upper_case : bool) : nat :=
  if all_upper_case then 4200%nat else 2800%nat.

(** ["{}-{:02d}{}".format(base, idx, ext)] *)
Definition qr_name (base ext : string) (idx : Z) : string :=
  base ++ "-" ++ format_02d idx ++ ext.

(** The [while len(intdata) > 0] loop of [write_and_verify_qr_code]:
    the [(thisfile, thisdata)] pairs handed to [write_qr_code]. *)
Equations? qr_split (all_upper_case : bool) (base ext : string) (idx : Z)
    (intdata : string) : list (string * string)
    by wf (String.length intdata) lt :=
  qr_split all_upper_case base ext idx EmptyString := [];
  qr_split all_upper_case base ext idx (String c rest) :=
    let thisdata := take (MAX_QR_LEN all_upper_case) (String c rest) in
    let thisfile := qr_name base ext idx in
    (thisfile, thisdata)
      :: qr_split all_upper_case base ext (idx + 1)
           (drop (MAX_QR_LEN all_upper_case) (String c rest)).
Proof.
  assert (Hle : forall n s, (String.length (drop n s) <= String.length s)%nat).
  { induction n as [|n IH]; intros [|a s]; simpl; try lia.
    specialize (IH s). lia. }
  assert (Hlt : forall n a s, (0 < n)%nat ->
            (String.length (drop n (String a s)) < S (String.length s))%nat).
  { intros [|n] a s Hn; [lia|]. simpl. specialize (Hle n s). lia. }
  apply Hlt. destruct all_upper_case; unfold MAX_QR_LEN; lia.
Qed.

(** ** Entropy display *)

(** [sep.join(l)] *)
Fixpoint join_with (sep : string) (l : list string) : string :=
  match l with
  | [] => EmptyString
  | [s] => s
  | s :: rest => s ++ sep ++ join_with sep rest
  end.

(** The slices [string[i:length+i]] for [i] in [range(0, len(string), length)],
    [length > 0] *)
Equations? chunks (length : nat) (text : string) : list string
    by wf (String.length text) lt :=
  chunks O text := [];
  chunks (S n) EmptyString := [];
  chunks (S n) (String c rest) :=
    take (S n) (String c rest) :: chunks (S n) (drop (S n) (String c rest)).
Proof.
  assert (Hle : forall k s, (String.length (drop k s) <= String.length s)%nat).
  { induction k as [|k IH]; intros [|a s]; simpl; try lia.
    specialize (IH s). lia. }
  specialize (Hle n rest). lia.
Qed.

(** [chunk_string]: [range] refuses a zero step when the generator is
    created, and is empty for a negative one. *)
Definition chunk_string (text : string) (length : Z) : result (list string) :=
  if length =? 0 then Raise ValueError
  else if length <? 0 then Ok []
  else Ok (chunks (Z.to_nat length) text).

(** A string without the space character *)
Definition no_space (s : string) : Prop :=
  forall c, In c (list_ascii_of_string s) -> c <> " "%char.

(** What [entropy] prints after ["Computer entropy #n: "] for the bytes
    [xxd] returned *)
Definition entropy_line (seed : string) : result string :=
  groups <- chunk_string seed 4 ;;
  Ok (join_with " " groups).

(** ** The script proper

    [sha256] and [base58.b58encode_check] are library code; [wif_prefix]
    is the global set from the command line; [splitext] is
    [os.path.splitext]; [zbarimg filename content] is what the reader
    prints for the file [qrencode] stored under that name. *)

Section Glacier.

Variable node : Node.
Variable hash_sha256 : string -> string.
Variable b58encode_check_fromhex : string -> string.
Variable wif_prefix : string.
Variable splitext : string -> string * string.
Variable zbarimg : string -> string -> string.

Definition hex_private_key_to_WIF_private_key (hex_key : string) : string :=
  let hex_key_with_prefix := wif_prefix ++ hex_key ++ "01" in
  b58encode_check_fromhex hex_key_with_prefix.

(** *** Bitcoin helper functions *)

Definition create_default_wallet : M unit :=
  loaded_wallets <~ bitcoin_cli_json listwallets (node_listwallets node) ;;
  if existsb (String.eqb EmptyString) loaded_wallets then ret tt
  else
    all_wallets <~ bitcoin_cli_json listwalletdir (node_listwalletdir node) ;;
    let found := existsb (fun w => String.eqb w EmptyString) all_wallets in
    let cmd := if found then loadwallet else createwallet in
    let cmd_name := if found then "loadwallet" else "createwallet" in
    loaded_wallet <~ bitcoin_cli_json cmd
                       (if found then node_loadwallet node
                        else node_createwallet node) ;;
    if (0 <? String.length loaded_wallet)%nat
    then raise (Exception ("problem running " ++ cmd_name
                           ++ " on default wallet"))
    else ret tt.

(** The [while times <= 20] loop of [ensure_bitcoind_running]: [times]
    polls have been made, [tries] are left, and [answers k] tells whether
    the poll that follows [k] others exits with 0. *)
Fixpoint wait_for_bitcoind (answers : nat -> bool) (times tries : nat)
    : M unit :=
  match tries with
  | O => raise (Exception "Timeout while starting bitcoin server")
  | S t =>
      ok <~ bitcoin_cli_call getnetworkinfo (answers times) ;;
      if (ok : bool) then create_default_wallet
      else wait_for_bitcoind answers (S times) t
  end.

(** [ensure_bitcoind_running] for a daemon that answers the polls of
    this call as [answers] tells *)
Definition ensure_bitcoind_running_polled (answers : nat -> bool) : M unit :=
  _ <~ bitcoin_cli_call (bitcoind ["-daemon"; "-connect=0.0.0.0"]) true ;;
  wait_for_bitcoind answers 0 21.

(** Where the script calls [ensure_bitcoind_running] again and again, the
    daemon is taken to answer every poll of the run alike, as [node_up]
    tells. *)
Definition ensure_bitcoind_running : M unit :=
  ensure_bitcoind_running_polled (fun _ => node_up node).

Definition require_minimum_bitcoind_version (min_version : Z) : M unit :=
  version <~ bitcoin_cli_json getnetworkinfo
               (if node_up node then Some (node_version node) else None) ;;
  if version <? min_version then raise SystemExit else ret tt.

Definition get_address_for_wif_privkey (privkey : string) : M string :=
  let label := hash_sha256 privkey in
  _ <~ ensure_bitcoind_running ;;
  _ <~ bitcoin_cli_call (importprivkey privkey label) true ;;
  addresses <~ bitcoin_cli_json (getaddressesbylabel label)
                 (node_addresses node label) ;;
  match addresses with                       (* next(iter(addresses)) *)
  | a :: _ => ret a
  | [] => raise StopIteration
  end.

Definition addmultisigaddress (m : Z) (addresses_or_pubkeys : list string)
    (address_type : string) : M Multisig :=
  bitcoin_cli_json (addmultisigaddress_ m addresses_or_pubkeys address_type)
    (node_addmultisig node m addresses_or_pubkeys address_type).

(** The pruning line of [create_unsigned_transaction]:
    [OrderedDict((key, val) for key, val in destinations.items() if val != '0')] *)
Definition prune_destinations (destinations : odict pyval) : odict pyval :=
  OrderedDict (filter (fun kv => negb (py_eqb (snd kv) (PStr "0"))) destinations).

Definition create_unsigned_transaction (source_address : string)
    (destinations : odict pyval) (redeem_script : string)
    (input_txs : list Tx) : M string :=
  _ <~ ensure_bitcoind_running ;;
  let destinations := prune_destinations destinations in
  let inputs :=
    flat_map (fun tx =>
      map (fun utxo => {| in_txid := tx_txid tx; in_vout := out_n utxo |})
          (get_utxos tx source_address)) input_txs in
  bitcoin_cli_json (createrawtransaction inputs destinations)
    (node_createraw node inputs destinations).

Definition sign_transaction (source_address : string) (keys : list string)
    (redeem_script unsigned_hex : string) (input_txs : list Tx) : M SignedTx :=
  let inputs :=
    flat_map (fun tx =>
      map (fun utxo =>
             {| si_txid := tx_txid tx;
                si_vout := out_n utxo;
                si_amount := out_value utxo;
                si_scriptPubKey := spk_hex (out_scriptPubKey utxo);
                si_redeemScript := redeem_script |})
          (get_utxos tx source_address)) input_txs in
  bitcoin_cli_json (signrawtransactionwithkey unsigned_hex keys inputs)
    (node_sign node unsigned_hex keys inputs).

(** [MAX_FEE = .005] *)
Definition MAX_FEE : Float.t := Float.lit_005.

(** What the operator types in one pass of the fee loop: the rate, and
    the answer to [Confirm? (y/n)] should the fee be presented. *)
Record FeeRound : Type := { fee_rate : Z; fee_confirm : bool }.

(** The [while not approve] loop of [get_fee_interactive]; running out
    of operator input is [input()] raising [EOFError]. *)
Fixpoint get_fee_loop (source_address : string) (keys : list string)
    (destinations : odict pyval) (redeem_script : string)
    (input_txs : list Tx) (rounds : list FeeRound) : M Dec.t :=
  match rounds with
  | [] => raise EOFError
  | round :: rest =>
      let fee_basis_satoshis_per_byte := fee_rate round in
      unsigned_tx <~ create_unsigned_transaction source_address destinations
                       redeem_script input_txs ;;
      signed_tx <~ sign_transaction source_address keys redeem_script
                     unsigned_tx input_txs ;;
      size <~ bitcoin_cli_json (decoderawtransaction (st_hex signed_tx))
                (node_vsize node (st_hex signed_tx)) ;;
      let fee := size * fee_basis_satoshis_per_byte in
      fee <~ lift (satoshi_to_btc fee) ;;
      if Float.dec_gtb fee MAX_FEE
      then get_fee_loop source_address keys destinations redeem_script
             input_txs rest
      else if fee_confirm round then ret fee
      else get_fee_loop source_address keys destinations redeem_script
             input_txs rest
  end.

Definition get_fee_interactive (source_address : string) (keys : list string)
    (destinations : odict pyval) (redeem_script : string)
    (input_txs : list Tx) (rounds : list FeeRound) : M Dec.t :=
  _ <~ ensure_bitcoind_running ;;
  get_fee_loop source_address keys destinations redeem_script input_txs rounds.

(** *** QR code helper functions *)

(** The file a name refers to after the writes: the last one wins *)
Fixpoint file_content (written : list (string * string)) (filename : string)
    : string :=
  match written with
  | [] => EmptyString
  | (f, d) :: more =>
      if existsb (fun w => String.eqb (fst w) filename) more
      then file_content more filename
      else if String.eqb f filename then d else EmptyString
  end.

(** [decode_one_qr]: [zbarimg filename content] is what the reader prints
    for the file, taken to exit with 0 and to print ASCII (otherwise
    [check=True] or [decode('ascii')] raises and the script ends). *)
Definition decode_one_qr (written : list (string * string)) (filename : string)
    : string :=
  strip (zbarimg filename (file_content written filename)).

Definition decode_qr (written : list (string * string))
    (filenames : list string) : string :=
  join (map (decode_one_qr written) filenames).

Record QrCodes : Type := {
  qr_written : list (string * string);   (* [write_qr_code] calls, in order *)
  qr_warning : bool                      (* the tamper warning was printed *)
}.

(** [write_and_verify_qr_code]; the deletion of stale files is not
    modelled, the file system being just the list of writes. *)
Definition write_and_verify_qr_code (name filename data : string) : QrCodes :=
  let (base, ext) := splitext filename in
  let all_upper_case := String.eqb (upper data) data in
  let written :=
    if (String.length data <=? MAX_QR_LEN all_upper_case)%nat
    then [(filename, data)]
    else qr_split all_upper_case base ext 1 data in
  let filenames := map fst written in
  let qrdata := decode_qr written filenames in
  {| qr_written := written; qr_warning := negb (String.eqb qrdata data) |}.

(** *** Main "deposit" function *)

(** The [while len(keys) < n] loop *)
Fixpoint deposit_keys (todo : nat) (keys : list string)
    (dice_seed_length rng_seed_length : Z) (stdin : list string)
    : result (list string) * list string :=
  match todo with
  | O => (Ok keys, stdin)
  | S more =>
      match read_dice_seed_interactive dice_seed_length stdin with
      | (Raise e, stdin) => (Raise e, stdin)
      | (Ok dice_seed_string, stdin) =>
          let dice_seed_hash := hash_sha256 dice_seed_string in
          match read_rng_seed_interactive rng_seed_length stdin with
          | (Raise e, stdin) => (Raise e, stdin)
          | (Ok rng_seed_string, stdin) =>
              let rng_seed_hash := hash_sha256 rng_seed_string in
              match xor_hex_strings dice_seed_hash rng_seed_hash with
              | Raise e => (Raise e, stdin)
              | Ok hex_private_key =>
                  let WIF_private_key :=
                    hex_private_key_to_WIF_private_key hex_private_key in
                  deposit_keys more (keys ++ [WIF_private_key])
                    dice_seed_length rng_seed_length stdin
              end
          end
      end
  end.

Record Deposit : Type := {
  dep_keys : list string;
  dep_address : string;
  dep_redeemScript : string;
  dep_qr : list QrCodes
}.

Definition deposit_interactive (m n dice_seed_length rng_seed_length : Z)
    (p2wsh : bool) (stdin : list string) : M Deposit :=
  match safety_checklist stdin with
  | (Raise e, _) => raise e
  | (Ok _, stdin) =>
      _ <~ ensure_bitcoind_running ;;
      _ <~ require_minimum_bitcoind_version 220000 ;;
      keys <~ lift (fst (deposit_keys (Z.to_nat n) [] dice_seed_length
                           rng_seed_length stdin)) ;;
      addresses <~ mapM get_address_for_wif_privkey keys ;;
      let address_type := if p2wsh then "bech32" else "p2sh-segwit" in
      results <~ addmultisigaddress m addresses address_type ;;
      ret {| dep_keys := keys;
             dep_address := ms_address results;
             dep_redeemScript := ms_redeemScript results;
             dep_qr :=
               [write_and_verify_qr_code "cold storage address" "address.png"
                  (ms_address results);
                write_and_verify_qr_code "redemption script" "redemption.png"
                  (ms_redeemScript results)] |}
  end.

(** *** Main "withdraw" function *)

(** The locals of [withdraw_interactive] once the amounts are settled *)
Record Plan : Type := {
  input_amount : Dec.t;
  fee : Dec.t;
  withdrawal_amount : Dec.t;
  change_amount : number;
  addresses : odict pyval
}.

(** [utxo_sum]: the total of the selected outputs, each value read from
    the decoded JSON as a float and quantized to satoshi. *)
Definition utxo_sum (utxos : list TxOut) : result Dec.t :=
  fold_left
    (fun total utxo =>
       utxo_sum <- total ;;
       value <- Dec.quantize (Float.to_dec (out_value utxo)) SATOSHI_PLACES ;;
       Ok (Dec.add utxo_sum value))
    utxos (Dec.quantize (Dec.of_int 0) SATOSHI_PLACES).

(** The "fees, amount, and change" block of [withdraw_interactive], from
    the fee check to [change_amount = input_amount - withdrawal_amount - fee].
    [entry] is what the operator typed as the amount: [None] for a blank
    line, [Some d] for text that [Decimal(...)] reads as the number [d]
    (a zero being the positive zero, as for every [Dec.t]). *)
Definition withdraw_change (input_amount fee : Dec.t) (entry : option Dec.t)
    : result (Dec.t * Dec.t) :=
  if Dec.gtb fee input_amount then Raise SystemExit
  else
    withdrawal_amount <-
      match entry with
      | None => Ok (Dec.sub input_amount fee)
      | Some typed => Dec.quantize typed SATOSHI_PLACES
      end ;;
    if Dec.gtb (Dec.add fee withdrawal_amount) input_amount
    then Raise (Exception "Output values greater than input value")
    else
      let change_amount := Dec.sub (Dec.sub input_amount withdrawal_amount) fee in
      Ok (withdrawal_amount, change_amount).

(** The rest of the block: the floor on the change and the two
    [addresses[...] = str(...)] assignments. *)
Definition withdraw_amounts (source_address dest_address : string)
    (input_amount fee : Dec.t) (entry : option Dec.t) : result Plan :=
  let addresses := od_set dest_address (PInt 0)
                     (od_set source_address (PInt 0) []) in
  amounts <- withdraw_change input_amount fee entry ;;
  let withdrawal_amount := fst amounts in
  let change_amount := snd amounts in
  (* less than a satoshi due to weird floating point imprecision *)
  let change_amount :=
    if Float.dec_ltb change_amount Float.lit_1e_8 then NInt 0
    else NDec change_amount in
  let addresses := od_set dest_address (PStr (str (NDec withdrawal_amount)))
                     addresses in
  let addresses := od_set source_address (PStr (str change_amount))
                     addresses in
  Ok {| input_amount := input_amount;
        fee := fee;
        withdrawal_amount := withdrawal_amount;
        change_amount := change_amount;
        addresses := addresses |}.

(** The value of a plan's outputs and fee in satoshi, and the
    conservation of value it is meant to satisfy. *)
Definition number_to_satoshi (x : number) : Z :=
  match x with
  | NInt n => n * 100000000
  | NDec d => btc_to_satoshi d
  end.

Definition outputs_plus_fee (plan : Plan) : Z :=
  btc_to_satoshi (withdrawal_amount plan)
  + number_to_satoshi (change_amount plan)
  + btc_to_satoshi (fee plan).

Definition conserves_value (plan : Plan) : Prop :=
  btc_to_satoshi (input_amount plan) = outputs_plus_fee plan.

(** [withdraw_interactive] from the fee check on: the amounts, the
    operator's confirmation, and the transaction.  [None]: the operator
    declined and the enclosing loop starts over. *)
Definition withdraw_finish (source_address dest_address redeem_script : string)
    (txs : list Tx) (keys : list string) (input_amount fee : Dec.t)
    (entry : option Dec.t) (confirm : bool) : M (option SignedTx) :=
  plan <~ lift (withdraw_amounts source_address dest_address input_amount fee
                  entry) ;;
  if confirm then
    unsigned_tx <~ create_unsigned_transaction source_address (addresses plan)
                     redeem_script txs ;;
    signed_tx <~ sign_transaction source_address keys redeem_script
                   unsigned_tx txs ;;
    ret (Some signed_tx)
  else ret None.

End Glacier.

(** ** A scripted node and operator

    Stand-ins used to run the model on concrete inputs: a node that is up
    with its default wallet loaded and accepts [m]-of-[n] only for
    [1 <= m <= n], a width-preserving replacement for SHA-256, and an
    operator who passes the checklist and types valid entropy. *)

Definition sample_node : Node := {|
  node_up := true;
  node_version := 220000;
  node_listwallets := Some [EmptyString];
  node_listwalletdir := Some [EmptyString];
  node_loadwallet := Some EmptyString;
  node_createwallet := Some EmptyString;
  node_addresses := fun label => Some ["addr-" ++ label];
  node_addmultisig := fun m addresses _ =>
    if (1 <=? m) && (m <=? Z.of_nat (List.length addresses))
    then Some {| ms_address := "2N-multisig"; ms_redeemScript := "5221ae" |}
    else None;
  node_createraw := fun _ _ => Some "0200";
  node_sign := fun unsigned_hex _ _ =>
    Some {| st_hex := unsigned_hex ++ "ff"; st_complete := true |};
  node_vsize := fun _ => Some 200
|}.

Definition sample_sha256 (s : string) : string :=
  format_0x
    (fold_left (fun h c => (h * 31 + Z.of_N (N_of_ascii c)) mod 2 ^ 256)
       (list_ascii_of_string s) 7)
    64.

Definition sample_b58 (hex_key : string) : string := "K" ++ hex_key.

Definition sample_splitext (filename : string) : string * string :=
  (take (String.length filename - 4) filename,
   drop (String.length filename - 4) filename).

(** A reader that prints the content of the code and a newline *)
Definition sample_zbarimg (filename data : string) : string :=
  data ++ String "010" EmptyString.

Definition sample_dice : string :=
  "12345 61234 56123 45612 34561 23456 12345 61234 56123 45612 34561 23456 12".

Definition sample_rng : string :=
  "0123 4567 89ab cdef 0123 4567 89ab cdef 0123 4567".

Definition sample_stdin : list string :=
  ["y"; "Y"; "y"; "y"; "y"; "y";
   sample_dice; sample_rng;
   "not dice"; "6" ++ sample_dice; "xyz"; "ff" ++ sample_rng].

Definition sample_deposit (m n : Z) : M Deposit :=
  deposit_interactive sample_node sample_sha256 sample_b58 "80"
    sample_splitext sample_zbarimg m n 62 20 false sample_stdin.

(** The keys the sample operator's entropy yields, and their addresses *)
Definition sample_keys : list string :=
  Eval vm_compute in
    match fst (deposit_keys sample_sha256 sample_b58 "80" 2 [] 62 20
                 (skipn 6 sample_stdin)) with
    | Ok keys => keys
    | Raise _ => []
    end.

Definition sample_addresses : list string :=
  Eval vm_compute in
    match snd (mapM (get_address_for_wif_privkey sample_node sample_sha256)
                 sample_keys) with
    | Ok addresses => addresses
    | Raise _ => []
    end.

(** Text too long for 99 QR codes of 2800 characters *)
Definition sample_long_data : string :=
  string_of_list_ascii (repeat "a"%char (Z.to_nat 277201)).

(** A decoded transaction with two outputs to ["source"], one elsewhere
    and one without an address *)
Definition sample_tx : Tx := {|
  tx_txid := "ab12";
  tx_vout :=
    [ {| out_value := Float.mk 1 (-1); out_n := 0;
         out_scriptPubKey := {| spk_address := Some "source"; spk_hex := "a914" |} |};
      {| out_value := Float.mk 1 (-2); out_n := 1;
         out_scriptPubKey := {| spk_address := Some "other"; spk_hex := "0014" |} |};
      {| out_value := Float.mk 3 (-2); out_n := 2;
         out_scriptPubKey := {| spk_address := None; spk_hex := "6a" |} |};
      {| out_value := Float.mk 1 0; out_n := 3;
         out_scriptPubKey := {| spk_address := Some "source"; spk_hex := "a914" |} |} ]
|}.

(** * Properties *)

(** ** Decimal arithmetic on amounts *)

Lemma ndigits_aux_pos (fuel : nat) (n : Z) : 1 <= Dec.ndigits_aux fuel n.
Proof.
  revert n. induction fuel as [|f IH]; intros n; cbn [Dec.ndigits_aux]; [lia|].
  destruct (n <? 10); [lia|]. specialize (IH (n / 10)). lia.
Qed.

Lemma ndigits_aux_le (fuel : nat) :
  forall n k, 0 <= n < 2 ^ (Z.of_nat fuel + 1) -> 1 <= k ->
    (Dec.ndigits_aux fuel n <= k <-> n < 10 ^ k).
Proof.
  induction fuel as [|f IH]; intros n k Hn Hk.
  - change (2 ^ (Z.of_nat 0 + 1)) with 2 in Hn. cbn [Dec.ndigits_aux].
    assert (H10 : 10 ^ 1 <= 10 ^ k) by (apply Z.pow_le_mono_r; lia).
    change (10 ^ 1) with 10 in H10. lia.
  - cbn [Dec.ndigits_aux].
    assert (H10 : 10 ^ 1 <= 10 ^ k) by (apply Z.pow_le_mono_r; lia).
    change (10 ^ 1) with 10 in H10.
    destruct (Z.ltb_spec n 10) as [Hlt|Hge]; [lia|].
    assert (Hk' : k = 1 \/ 2 <= k) by lia.
    destruct Hk' as [->|Hk2].
    + pose proof (ndigits_aux_pos f (n / 10)). change (10 ^ 1) with 10. lia.
    + assert (Hdiv : 0 <= n / 10 < 2 ^ (Z.of_nat f + 1)).
      { split; [apply Z.div_pos; lia|].
        apply Z.div_lt_upper_bound; [lia|].
        replace (Z.of_nat (S f) + 1) with (Z.succ (Z.of_nat f + 1)) in Hn by lia.
        rewrite Z.pow_succ_r in Hn by lia. lia. }
      specialize (IH (n / 10) (k - 1) Hdiv ltac:(lia)).
      assert (Hpow : 10 ^ k = 10 * 10 ^ (k - 1)).
      { replace k with (Z.succ (k - 1)) at 1 by lia.
        rewrite Z.pow_succ_r by lia. reflexivity. }
      assert (Hiff : n / 10 < 10 ^ (k - 1) <-> n < 10 ^ k).
      { rewrite Hpow. split; intros H.
        - pose proof (Z.div_mod n 10 ltac:(lia)).
          pose proof (Z.mod_pos_bound n 10 ltac:(lia)). lia.
        - apply Z.div_lt_upper_bound; lia. }
      lia.
Qed.

(** [len(str(n)) <= k] exactly when [n < 10 ^ k] *)
Lemma ndigits_le (n k : Z) :
  0 <= n -> 1 <= k -> (Dec.ndigits n <= k <-> n < 10 ^ k).
Proof.
  intros Hn Hk. unfold Dec.ndigits. apply ndigits_aux_le; [|assumption].
  split; [assumption|].
  destruct (Z.eq_dec n 0) as [->|Hnz].
  - simpl. lia.
  - rewrite Z2Nat.id by apply Z.log2_nonneg.
    replace (Z.log2 n + 1) with (Z.succ (Z.log2 n)) by lia.
    apply Z.log2_spec. lia.
Qed.

Lemma ndigits_pos (n : Z) : 1 <= Dec.ndigits n.
Proof. apply ndigits_aux_pos. Qed.

(** A coefficient within the context precision is left alone *)
Lemma fix_exact (c e : Z) :
  Z.abs c < 10 ^ 28 -> Dec.fix_ (Dec.mk c e) = Dec.mk c e.
Proof.
  intros Hc. unfold Dec.fix_. cbn [Dec.coef Dec.expo].
  replace (Dec.ndigits (Z.abs c) <=? Dec.prec) with true; [reflexivity|].
  symmetry. apply Z.leb_le. apply ndigits_le; unfold Dec.prec; lia.
Qed.

Lemma add_exact (a b : Z) :
  Z.abs (a + b) < 10 ^ 28 ->
  Dec.add (Dec.mk a (-8)) (Dec.mk b (-8)) = Dec.mk (a + b) (-8).
Proof.
  intros Hab. unfold Dec.add, Dec.rescale. cbn [Dec.coef Dec.expo].
  change (Z.min (-8) (-8)) with (-8).
  change (Z.max (-8) (-8 - Dec.prec - 1)) with (-8).
  change (-8 - -8) with 0. change (-8 <=? -8) with true.
  rewrite !Z.pow_0_r, !Z.mul_1_r.
  destruct (Z.eqb_spec a 0) as [->|Ha]; destruct (Z.eqb_spec b 0) as [->|Hb];
    cbn [andb].
  - apply fix_exact. simpl. lia.
  - apply fix_exact. exact Hab.
  - rewrite Z.add_0_r in *. apply fix_exact. exact Hab.
  - apply fix_exact. exact Hab.
Qed.

Lemma sub_exact (a b : Z) :
  Z.abs (a - b) < 10 ^ 28 ->
  Dec.sub (Dec.mk a (-8)) (Dec.mk b (-8)) = Dec.mk (a - b) (-8).
Proof.
  intros Hab. unfold Dec.sub, Dec.neg. cbn [Dec.coef Dec.expo].
  rewrite add_exact; [f_equal; lia|].
  replace (a + - b) with (a - b) by lia. exact Hab.
Qed.

Lemma gtb_sat (a b : Z) :
  Dec.gtb (Dec.mk a (-8)) (Dec.mk b (-8)) = (b <? a).
Proof.
  unfold Dec.gtb, Dec.ltb, Dec.compare. cbn [Dec.coef Dec.expo].
  change (Z.min (-8) (-8)) with (-8). change (-8 - -8) with 0.
  rewrite !Z.pow_0_r, !Z.mul_1_r. unfold Z.ltb.
  destruct (b ?= a); reflexivity.
Qed.

(** The float literal [1e-8] lies strictly between one and two satoshi *)
Lemma lt_1e_8_sat (c : Z) :
  Float.dec_ltb (Dec.mk c (-8)) Float.lit_1e_8 = (c <=? 1).
Proof.
  unfold Float.dec_ltb, Float.compare_dec, Float.lit_1e_8.
  cbn [Dec.coef Dec.expo Float.mant Float.bexp].
  change (Z.min (-8) 0) with (-8). change (Z.max (-8) 0) with 0.
  change (Z.min (-78) 0) with (-78). change (Z.max (-78) 0) with 0.
  rewrite !Z.pow_0_r, !Z.mul_1_r.
  change (- -78) with 78. change (- -8) with 8.
  destruct (Z.leb_spec c 1) as [H|H];
    destruct (Z.compare_spec (c * 2 ^ 78) (3022314549036573 * 10 ^ 8))
      as [E|E|E]; try reflexivity; exfalso;
    change (2 ^ 78) with 302231454903657293676544 in E;
    change (10 ^ 8) with 100000000 in E; lia.
Qed.

(** The float literal [.005] lies strictly between 500000 and 500001
    satoshi *)
Lemma gt_005_sat (c : Z) :
  Float.dec_gtb (Dec.mk c (-8)) Float.lit_005 = (500000 <? c).
Proof.
  unfold Float.dec_gtb, Float.compare_dec, Float.lit_005.
  cbn [Dec.coef Dec.expo Float.mant Float.bexp].
  change (Z.min (-8) 0) with (-8). change (Z.max (-8) 0) with 0.
  change (Z.min (-60) 0) with (-60). change (Z.max (-60) 0) with 0.
  rewrite !Z.pow_0_r, !Z.mul_1_r.
  change (- -60) with 60. change (- -8) with 8.
  destruct (Z.ltb_spec 500000 c) as [H|H];
    destruct (Z.compare_spec (c * 2 ^ 60) (5764607523034235 * 10 ^ 8))
      as [E|E|E]; try reflexivity; exfalso;
    change (2 ^ 60) with 1152921504606846976 in E;
    change (10 ^ 8) with 100000000 in E; lia.
Qed.

(** The zero-stripping loop keeps the value, moves towards the ideal
    exponent, and with enough fuel stops only there or at a non-zero
    last digit. *)
Lemma strip_zeros_spec (fuel : nat) :
  forall c e ideal, e <= ideal ->
    let r := Dec.strip_zeros fuel c e ideal in
    fst r * 10 ^ (snd r - e) = c /\ e <= snd r <= ideal /\
    (ideal - e <= Z.of_nat fuel -> snd r = ideal \/ fst r mod 10 <> 0).
Proof.
  induction fuel as [|f IH]; intros c e ideal He; cbn [Dec.strip_zeros].
  - cbn [fst snd]. rewrite Z.sub_diag, Z.pow_0_r. lia.
  - destruct (Z.ltb_spec e ideal) as [Hlt|Hge];
      destruct (Z.eqb_spec (c mod 10) 0) as [Hz|Hnz]; cbn [andb fst snd];
      try (rewrite Z.sub_diag, Z.pow_0_r; lia).
    specialize (IH (c / 10) (e + 1) ideal ltac:(lia)).
    cbv zeta in IH. destruct IH as (Hval & Hrange & Hstop).
    set (r := Dec.strip_zeros f (c / 10) (e + 1) ideal) in *.
    split; [|split; [lia|intros; apply Hstop; lia]].
    replace (snd r - e) with (Z.succ (snd r - (e + 1))) by lia.
    rewrite Z.pow_succ_r by lia.
    pose proof (Z.div_mod c 10 ltac:(lia)). lia.
Qed.

Lemma pow10_split (a b : Z) : 0 <= a -> 0 <= b -> 10 ^ (a + b) = 10 ^ a * 10 ^ b.
Proof. intros. apply Z.pow_add_r; assumption. Qed.

(** [Decimal(s) / Decimal(100000000)] is exact for up to 28 digits *)
Lemma div_satoshi (s : Z) :
  s <> 0 -> Z.abs s < 10 ^ 28 ->
  exists c e,
    Dec.div (Dec.of_int s) (Dec.of_int 100000000) = Ok (Dec.mk c e) /\
    -8 <= e <= 0 /\ c * 10 ^ (e + 8) = s.
Proof.
  intros Hs Hbound. unfold Dec.div, Dec.of_int. cbn [Dec.coef Dec.expo].
  change (100000000 =? 0) with false. cbv iota.
  destruct (Z.eqb_spec s 0) as [?|_]; [contradiction|].
  change (Z.abs 100000000) with 100000000.
  change (Dec.ndigits 100000000) with 9.
  change (Z.sgn 100000000) with 1. rewrite Z.mul_1_r.
  change (0 - 0) with 0.
  set (n := Z.abs s) in *.
  assert (Hn : 0 < n) by (unfold n; lia).
  assert (HL : 1 <= Dec.ndigits n <= 28).
  { split; [apply ndigits_pos|]. apply ndigits_le; lia. }
  set (L := Dec.ndigits n) in *. unfold Dec.prec.
  set (shift := 9 - L + 28 + 1).
  assert (Hshift : 10 <= shift <= 37) by (unfold shift; lia).
  replace (0 <=? shift) with true by (symmetry; apply Z.leb_le; lia).
  replace (0 - shift) with (- shift) by lia.
  assert (Hsplit : 10 ^ shift = 10 ^ (shift - 8) * 100000000).
  { replace shift with ((shift - 8) + 8) at 1 by lia.
    rewrite pow10_split by lia. reflexivity. }
  assert (Hq : n * 10 ^ shift / 100000000 = n * 10 ^ (shift - 8)).
  { rewrite Hsplit, Z.mul_assoc. apply Z.div_mul. lia. }
  assert (Hr : (n * 10 ^ shift) mod 100000000 = 0).
  { rewrite Hsplit, Z.mul_assoc. apply Z.mod_mul. lia. }
  rewrite Hq, Hr. change (0 =? 0) with true. cbv iota.
  replace (Z.to_nat (0 - - shift)) with (Z.to_nat shift) by (f_equal; lia).
  pose proof (strip_zeros_spec (Z.to_nat shift) (n * 10 ^ (shift - 8))
                (- shift) 0 ltac:(lia)) as Hstrip.
  cbv zeta in Hstrip. destruct Hstrip as (Hval & Hrange & Hstop).
  set (r := Dec.strip_zeros (Z.to_nat shift) (n * 10 ^ (shift - 8)) (- shift) 0)
    in *.
  specialize (Hstop ltac:(lia)).
  assert (Hp8 : 0 < 10 ^ (shift - 8)) by (apply Z.pow_pos_nonneg; lia).
  assert (He : -8 <= snd r).
  { destruct (Z_lt_le_dec (snd r) (-8)) as [Hlow|]; [exfalso|assumption].
    destruct Hstop as [Hz|Hnz]; [lia|]. apply Hnz.
    assert (Hc : fst r = n * 10 ^ (- 8 - snd r)).
    { assert (Hp : 0 < 10 ^ (snd r - - shift)) by (apply Z.pow_pos_nonneg; lia).
      apply (Z.mul_cancel_r _ _ (10 ^ (snd r - - shift))); [lia|].
      rewrite Hval, <- Z.mul_assoc, <- pow10_split by lia.
      do 2 f_equal. lia. }
    rewrite Hc. replace (- 8 - snd r) with (Z.succ (- 8 - snd r - 1)) by lia.
    rewrite Z.pow_succ_r by lia.
    replace (n * (10 * 10 ^ (-8 - snd r - 1)))
      with (n * 10 ^ (-8 - snd r - 1) * 10) by lia.
    apply Z.mod_mul. lia. }
  assert (Hc : fst r * 10 ^ (snd r + 8) = n).
  { apply (Z.mul_cancel_r _ _ (10 ^ (shift - 8))); [lia|].
    rewrite <- Hval. rewrite <- Z.mul_assoc, <- pow10_split by lia.
    do 2 f_equal. lia. }
  assert (Hp : 0 < 10 ^ (snd r + 8)) by (apply Z.pow_pos_nonneg; lia).
  assert (Hfst : 0 < fst r <= n) by nia.
  assert (Hsgn : Z.sgn s = 1 \/ Z.sgn s = -1).
  { destruct s; [contradiction| |]; cbn [Z.sgn]; lia. }
  assert (Hsn : Z.sgn s * n = s).
  { unfold n. destruct s; [contradiction| |]; cbn [Z.sgn Z.abs]; lia. }
  exists (Z.sgn s * fst r), (snd r). split; [|split; [lia|]].
  - f_equal. apply fix_exact. destruct Hsgn as [-> | ->]; lia.
  - rewrite <- Z.mul_assoc, Hc. exact Hsn.
Qed.

(** [satoshi_to_btc] returns the decimal [s * 10 ^ -8], digit for digit *)
Lemma satoshi_to_btc_exact (s : Z) :
  Z.abs s < 10 ^ 28 -> satoshi_to_btc s = Ok (Dec.mk s (-8)).
Proof.
  intros Hbound. unfold satoshi_to_btc.
  destruct (Z.eq_dec s 0) as [->|Hs]; [reflexivity|].
  destruct (div_satoshi s Hs Hbound) as (c & e & -> & He & Hc).
  cbn [bind]. unfold Dec.quantize, Dec.adjusted, Dec.rescale, SATOSHI_PLACES.
  cbn [Dec.coef Dec.expo].
  assert (Hp : 0 < 10 ^ (e + 8)) by (apply Z.pow_pos_nonneg; lia).
  destruct (Z.eqb_spec c 0) as [->|Hcz]; [lia|].
  assert (Habs : Z.abs c * 10 ^ (e + 8) = Z.abs s).
  { rewrite <- Hc, Z.abs_mul. f_equal. lia. }
  assert (Hdig : Dec.ndigits (Z.abs c) <= 20 - e).
  { apply ndigits_le; [lia|lia|].
    apply (Z.mul_lt_mono_pos_r (10 ^ (e + 8))); [lia|].
    rewrite Habs, <- pow10_split by lia.
    replace (20 - e + (e + 8)) with 28 by lia. exact Hbound. }
  replace (Dec.prec <? e + Dec.ndigits (Z.abs c) - 1 - -8 + 1) with false
    by (symmetry; apply Z.ltb_ge; unfold Dec.prec; lia).
  replace (-8 <=? e) with true by (symmetry; apply Z.leb_le; lia).
  cbn [Dec.coef Dec.expo].
  replace (e - -8) with (e + 8) by lia. rewrite Hc.
  replace (Dec.prec <? Dec.ndigits (Z.abs s)) with false.
  - f_equal. apply fix_exact. exact Hbound.
  - symmetry. apply Z.ltb_ge. apply ndigits_le; unfold Dec.prec; lia.
Qed.

(** [btc_to_satoshi] reads the coefficient back *)
Lemma btc_to_satoshi_exact (s : Z) :
  Z.abs s < 10 ^ 20 -> btc_to_satoshi (Dec.mk s (-8)) = s.
Proof.
  intros Hbound. unfold btc_to_satoshi, Dec.mul, Dec.of_int.
  cbn [Dec.coef Dec.expo]. change (-8 + 0) with (-8).
  rewrite fix_exact.
  - unfold Dec.to_int. cbn [Dec.coef Dec.expo].
    change (0 <=? -8) with false. cbv iota.
    change (10 ^ (- -8)) with 100000000. apply Z.quot_mul. lia.
  - rewrite Z.abs_mul. change (Z.abs 100000000) with 100000000.
    change (10 ^ 28) with (10 ^ 20 * 100000000). lia.
Qed.

(** Whatever [quantize(SATOSHI_PLACES)] returns is a whole number of
    satoshi within the context precision. *)
Lemma quantize_satoshi (d r : Dec.t) :
  Dec.quantize d SATOSHI_PLACES = Ok r ->
  Dec.expo r = -8 /\ Z.abs (Dec.coef r) < 10 ^ 28.
Proof.
  unfold Dec.quantize, SATOSHI_PLACES. cbn [Dec.expo].
  destruct (Dec.coef d =? 0).
  - intros Hr. injection Hr as <-. split; reflexivity.
  - destruct (Dec.prec <? Dec.adjusted d - -8 + 1); [discriminate|].
    destruct (Z.ltb_spec Dec.prec
                (Dec.ndigits (Z.abs (Dec.coef (Dec.rescale d (-8))))))
      as [|Hdigits]; [discriminate|].
    intros Hr. injection Hr as <-.
    assert (Hexpo : Dec.expo (Dec.rescale d (-8)) = -8).
    { unfold Dec.rescale. destruct (Dec.coef d =? 0); [reflexivity|].
      destruct (-8 <=? Dec.expo d); reflexivity. }
    assert (Hcoef : Z.abs (Dec.coef (Dec.rescale d (-8))) < 10 ^ 28).
    { apply ndigits_le; [lia|lia|exact Hdigits]. }
    destruct (Dec.rescale d (-8)) as [c e]. cbn [Dec.coef Dec.expo] in *.
    subst e. rewrite fix_exact by exact Hcoef. split; [reflexivity|exact Hcoef].
Qed.

(** ** Unit conversion *)

(** C10: for every satoshi amount [s] between 0 and the 21-million-BTC
    supply (2.1e15 satoshi), [satoshi_to_btc] succeeds and
    [btc_to_satoshi] gives [s] back: the conversion loses nothing. *)
Theorem C10_satoshi_btc_round_trip (s : Z) :
  0 <= s <= 2100000000000000 ->
  exists btc, satoshi_to_btc s = Ok btc /\ btc_to_satoshi btc = s.
Proof.
  intros Hs. exists (Dec.mk s (-8)). split.
  - apply satoshi_to_btc_exact.
    change (10 ^ 28) with 10000000000000000000000000000. lia.
  - apply btc_to_satoshi_exact.
    change (10 ^ 20) with 100000000000000000000. lia.
Qed.

Lemma C10_round_trip_witness :
  0 <= 123456789 <= 2100000000000000 /\
  exists btc, satoshi_to_btc 123456789 = Ok btc /\ btc_to_satoshi btc = 123456789.
Proof.
  split; [lia|]. apply (C10_satoshi_btc_round_trip 123456789). lia.
Defined.

(** ** Fee negotiation *)

Lemma snd_mbind_ok {A B : Type} (l : list request) (a : A) (k : A -> M B) :
  snd (mbind (l, Ok a) k) = snd (k a).
Proof. unfold mbind. destruct (k a); reflexivity. Qed.

Lemma snd_mbind {A B : Type} (m : M A) (a : A) (k : A -> M B) :
  snd m = Ok a -> snd (mbind m k) = snd (k a).
Proof. destruct m as [l r]; simpl; intros ->. apply snd_mbind_ok. Qed.

(** C6: in a pass of the fee loop where the node assembles, signs and
    decodes the transaction, the fee is the decoded virtual size times the
    operator's rate, as a BTC decimal; above 0.005 BTC (500000 satoshi)
    the pass is void whatever the operator would answer and the loop reads
    a new rate, otherwise the operator's confirmation decides. *)
Theorem C6_fee_ceiling (node : Node) (source_address : string)
    (keys : list string) (destinations : odict pyval) (redeem_script : string)
    (input_txs : list Tx) (round : FeeRound) (rest : list FeeRound)
    (unsigned_tx : string) (signed_tx : SignedTx) (size : Z) :
  snd (create_unsigned_transaction node source_address destinations
         redeem_script input_txs) = Ok unsigned_tx ->
  snd (sign_transaction node source_address keys redeem_script unsigned_tx
         input_txs) = Ok signed_tx ->
  node_vsize node (st_hex signed_tx) = Some size ->
  Z.abs (size * fee_rate round) < 10 ^ 28 ->
  let fee := Dec.mk (size * fee_rate round) (-8) in
  let again := snd (get_fee_loop node source_address keys destinations
                      redeem_script input_txs rest) in
  satoshi_to_btc (size * fee_rate round) = Ok fee /\
  snd (get_fee_loop node source_address keys destinations redeem_script
         input_txs (round :: rest)) =
    if 500000 <? size * fee_rate round then again
    else if fee_confirm round then Ok fee else again.
Proof.
  intros Hunsigned Hsigned Hsize Hbound fee again.
  pose proof (satoshi_to_btc_exact _ Hbound) as Hfee.
  split; [exact Hfee|].
  cbn [get_fee_loop].
  rewrite (snd_mbind _ unsigned_tx) by exact Hunsigned.
  rewrite (snd_mbind _ signed_tx) by exact Hsigned.
  unfold bitcoin_cli_json at 1. rewrite Hsize, snd_mbind_ok.
  rewrite Hfee. unfold lift. rewrite snd_mbind_ok.
  unfold MAX_FEE. rewrite gt_005_sat.
  destruct (500000 <? size * fee_rate round); [reflexivity|].
  destruct (fee_confirm round); reflexivity.
Qed.

Lemma C6_fee_ceiling_witness :
  Z.abs (200 * 30) < 10 ^ 28 /\
  snd (get_fee_loop sample_node "source" []
         [("source", PInt 0); ("destination", PInt 0)] "redeem" []
         [{| fee_rate := 30; fee_confirm := true |}])
    = Ok (Dec.mk 6000 (-8)).
Proof.
  split; [reflexivity|].
  destruct (C6_fee_ceiling sample_node "source" []
              [("source", PInt 0); ("destination", PInt 0)] "redeem" []
              {| fee_rate := 30; fee_confirm := true |} [] "0200"
              {| st_hex := "0200ff"; st_complete := true |} 200
              eq_refl eq_refl eq_refl eq_refl) as [_ Hloop].
  exact Hloop.
Defined.

(** ** Amounts and change *)

(** C2: with input [i], fee [f] and requested amount [w] (satoshi, within
    the decimal precision), a fee above the input exits, an amount plus
    fee above the input raises, and in both cases no request at all
    reaches the node; when the amount plus the fee is within the input
    (the amount not being negative, or the fee itself within the input)
    nothing is raised and the change computed is [i - w - f]. *)
Theorem C2_fee_and_amount_checks (i f w : Z) (entry : option Dec.t) :
  Z.abs i < 10 ^ 27 -> Z.abs f < 10 ^ 27 -> Z.abs w < 10 ^ 27 ->
  match entry with
  | None => w = i - f
  | Some typed => Dec.quantize typed SATOSHI_PLACES = Ok (Dec.mk w (-8))
  end ->
  let input_amount := Dec.mk i (-8) in
  let fee := Dec.mk f (-8) in
  (i < f -> withdraw_change input_amount fee entry = Raise SystemExit) /\
  (f <= i -> i < f + w ->
     withdraw_change input_amount fee entry =
       Raise (Exception "Output values greater than input value")) /\
  (forall e, withdraw_change input_amount fee entry = Raise e ->
     forall node source_address dest_address redeem_script txs keys confirm,
       withdraw_finish node source_address dest_address redeem_script txs keys
         input_amount fee entry confirm = ([], Raise e)) /\
  (f + w <= i -> 0 <= w \/ f <= i ->
     withdraw_change input_amount fee entry =
       Ok (Dec.mk w (-8), Dec.mk (i - w - f) (-8)) /\
     forall source_address dest_address, exists plan,
       withdraw_amounts source_address dest_address input_amount fee entry
         = Ok plan).
Proof.
  intros Hi Hf Hw Hentry input_amount fee.
  assert (H27 : 10 ^ 28 = 10 * 10 ^ 27) by reflexivity.
  assert (Hamount : match entry with
                    | None => Ok (Dec.sub input_amount fee)
                    | Some typed => Dec.quantize typed SATOSHI_PLACES
                    end = Ok (Dec.mk w (-8))).
  { destruct entry as [typed|]; [exact Hentry|]. subst w.
    unfold input_amount, fee. rewrite sub_exact by lia. reflexivity. }
  assert (Hchange : withdraw_change input_amount fee entry =
            if i <? f then Raise SystemExit
            else if i <? f + w
                 then Raise (Exception "Output values greater than input value")
                 else Ok (Dec.mk w (-8), Dec.mk (i - w - f) (-8))).
  { unfold withdraw_change. rewrite Hamount. cbn [bind].
    unfold input_amount, fee. rewrite gtb_sat.
    destruct (i <? f); [reflexivity|].
    rewrite add_exact by lia. rewrite gtb_sat.
    destruct (i <? f + w); [reflexivity|].
    rewrite sub_exact by lia. rewrite sub_exact by lia. reflexivity. }
  assert (Htt : forall a b, a < b -> (a <? b) = true)
    by (intros; apply Z.ltb_lt; assumption).
  assert (Hff : forall a b, b <= a -> (a <? b) = false)
    by (intros; apply Z.ltb_ge; assumption).
  repeat split.
  - intros Hlt. rewrite Hchange, Htt by lia. reflexivity.
  - intros Hle Hlt. rewrite Hchange, Hff, Htt by lia. reflexivity.
  - intros e He node source_address dest_address redeem_script txs keys confirm.
    unfold withdraw_finish, withdraw_amounts. rewrite He. reflexivity.
  - rewrite Hchange, !Hff by lia. reflexivity.
  - intros source_address dest_address. unfold withdraw_amounts.
    rewrite Hchange, !Hff by lia. cbn [bind]. eexists. reflexivity.
Qed.

Lemma C2_checks_witness :
  Z.abs 100000000 < 10 ^ 27 /\
  withdraw_change (Dec.mk 100000000 (-8)) (Dec.mk 10000 (-8))
    (Some (Dec.mk 5 (-1))) =
    Ok (Dec.mk 50000000 (-8), Dec.mk (100000000 - 50000000 - 10000) (-8)).
Proof.
  split; [reflexivity|].
  apply (C2_fee_and_amount_checks 100000000 10000 50000000
           (Some (Dec.mk 5 (-1)))); try reflexivity; lia.
Defined.

(** Apart from a change of exactly one satoshi, an accepted plan conserves
    value. *)
Lemma withdraw_amounts_conserve (i f w : Z) (entry : option Dec.t)
    (source_address dest_address : string) (plan : Plan) :
  Z.abs i < 10 ^ 19 -> Z.abs f < 10 ^ 19 -> Z.abs w < 10 ^ 19 ->
  withdraw_change (Dec.mk i (-8)) (Dec.mk f (-8)) entry =
    Ok (Dec.mk w (-8), Dec.mk (i - w - f) (-8)) ->
  withdraw_amounts source_address dest_address (Dec.mk i (-8)) (Dec.mk f (-8))
    entry = Ok plan ->
  i - w - f <> 1 -> 0 <= i - w - f ->
  conserves_value plan.
Proof.
  intros Hi Hf Hw Hchange Hplan Hone Hpos.
  assert (H20 : 10 ^ 20 = 10 * 10 ^ 19) by reflexivity.
  unfold withdraw_amounts in Hplan. rewrite Hchange in Hplan.
  cbn [bind fst snd] in Hplan. rewrite lt_1e_8_sat in Hplan.
  injection Hplan as <-. unfold conserves_value, outputs_plus_fee.
  cbn [input_amount fee withdrawal_amount change_amount].
  rewrite !btc_to_satoshi_exact by lia.
  destruct (Z.leb_spec (i - w - f) 1) as [Hle|Hgt]; cbn [number_to_satoshi].
  - lia.
  - rewrite btc_to_satoshi_exact by lia. lia.
Qed.

(** C1: with 1.00000000 BTC of inputs, a fee of 0.00010000 and a requested
    amount of 0.99989999, the plan is accepted with a change of 0: its
    outputs and fee add up to one satoshi less than its inputs, and
    nothing is raised. *)
Theorem C1_one_satoshi_change_breaks_conservation :
  exists plan,
    withdraw_amounts "source" "destination" (Dec.mk 100000000 (-8))
      (Dec.mk 10000 (-8)) (Some (Dec.mk 99989999 (-8))) = Ok plan /\
    btc_to_satoshi (input_amount plan) = 100000000 /\
    outputs_plus_fee plan = 99999999 /\
    ~ conserves_value plan.
Proof.
  eexists. split; [vm_compute; reflexivity|].
  split; [reflexivity|]. split; [reflexivity|].
  unfold conserves_value. vm_compute. discriminate.
Qed.

(** The change is floored to the int 0 exactly when it is at most one
    satoshi. *)
Lemma change_floor_iff (i f w : Z) (entry : option Dec.t)
    (source_address dest_address : string) (plan : Plan) :
  withdraw_change (Dec.mk i (-8)) (Dec.mk f (-8)) entry =
    Ok (Dec.mk w (-8), Dec.mk (i - w - f) (-8)) ->
  withdraw_amounts source_address dest_address (Dec.mk i (-8)) (Dec.mk f (-8))
    entry = Ok plan ->
  (change_amount plan = NInt 0 <-> i - w - f <= 1) /\
  (1 < i - w - f -> change_amount plan = NDec (Dec.mk (i - w - f) (-8))).
Proof.
  intros Hchange Hplan.
  unfold withdraw_amounts in Hplan. rewrite Hchange in Hplan.
  cbn [bind fst snd] in Hplan. rewrite lt_1e_8_sat in Hplan.
  injection Hplan as <-. cbn [change_amount].
  destruct (Z.leb_spec (i - w - f) 1) as [Hle|Hgt]; split;
    try split; intros; try reflexivity; try lia; try discriminate.
Qed.

(** C3: the same withdrawal leaves a change of exactly one satoshi
    ([Decimal("1E-8")]), which is not smaller than one base unit, and the
    plan nevertheless holds the int 0 as change and the string "0" for the
    source address. *)
Theorem C3_one_satoshi_change_is_zeroed :
  withdraw_change (Dec.mk 100000000 (-8)) (Dec.mk 10000 (-8))
    (Some (Dec.mk 99989999 (-8))) =
    Ok (Dec.mk 99989999 (-8), Dec.mk 1 (-8)) /\
  Dec.compare (Dec.mk 1 (-8)) SATOSHI_PLACES = Eq /\
  Float.dec_ltb (Dec.mk 1 (-8)) Float.lit_1e_8 = true /\
  exists plan,
    withdraw_amounts "source" "destination" (Dec.mk 100000000 (-8))
      (Dec.mk 10000 (-8)) (Some (Dec.mk 99989999 (-8))) = Ok plan /\
    change_amount plan = NInt 0 /\
    addresses plan = [("source", PStr "0"); ("destination", PStr "0.99989999")].
Proof.
  split; [vm_compute; reflexivity|].
  split; [reflexivity|]. split; [vm_compute; reflexivity|].
  eexists. split; [vm_compute; reflexivity|]. split; reflexivity.
Qed.

(** ** UTXO selection *)

Lemma get_utxos_loop (address : string) (outputs utxos : list TxOut) :
  fold_left (get_utxos_step address) outputs utxos =
    (utxos ++ filter (pays_to address) outputs)%list.
Proof.
  revert utxos. induction outputs as [|o outputs IH]; intros utxos; simpl.
  - rewrite app_nil_r. reflexivity.
  - rewrite IH. unfold get_utxos_step, pays_to.
    destruct (spk_address (out_scriptPubKey o)) as [a|]; [|reflexivity].
    destruct (String.eqb address a); [|reflexivity].
    rewrite <- app_assoc. reflexivity.
Qed.

(** C7: [get_utxos] returns, in transaction order, exactly the outputs
    whose [scriptPubKey] has an [address] equal to the target; an output
    without that field is passed over without an error (the function is
    total), and the result is empty when no output matches. *)
Theorem C7_get_utxos_selects_by_address (tx : Tx) (address : string) :
  get_utxos tx address = filter (pays_to address) (tx_vout tx) /\
  (forall output,
     In output (get_utxos tx address) <->
     In output (tx_vout tx) /\
     spk_address (out_scriptPubKey output) = Some address) /\
  (forall output,
     In output (tx_vout tx) ->
     spk_address (out_scriptPubKey output) = None ->
     ~ In output (get_utxos tx address)) /\
  ((forall output,
      In output (tx_vout tx) ->
      spk_address (out_scriptPubKey output) <> Some address) ->
   get_utxos tx address = []).
Proof.
  assert (Heq : get_utxos tx address = filter (pays_to address) (tx_vout tx)).
  { unfold get_utxos. rewrite get_utxos_loop. reflexivity. }
  assert (Hpays : forall output,
            pays_to address output = true <->
            spk_address (out_scriptPubKey output) = Some address).
  { intros output. unfold pays_to.
    destruct (spk_address (out_scriptPubKey output)) as [a|].
    - rewrite String.eqb_eq. split; [intros ->; reflexivity|congruence].
    - split; discriminate. }
  assert (Hin : forall output,
            In output (get_utxos tx address) <->
            In output (tx_vout tx) /\
            spk_address (out_scriptPubKey output) = Some address).
  { intros output. rewrite Heq, filter_In, Hpays. reflexivity. }
  split; [exact Heq|]. split; [exact Hin|]. split.
  - intros output _ Hnone Hsel. apply Hin in Hsel. destruct Hsel as [_ Hsome].
    congruence.
  - intros Hnone. rewrite Heq. revert Hnone. clear Heq Hin.
    induction (tx_vout tx) as [|o outputs IH]; intros Hnone; [reflexivity|].
    simpl. destruct (pays_to address o) eqn:Ho.
    + apply Hpays in Ho. exfalso. apply (Hnone o); [left; reflexivity|exact Ho].
    + apply IH. intros output Hi. apply Hnone. right. exact Hi.
Qed.

(** ** Entropy combination *)

Lemma int16_aux_hex (s : string) :
  forall acc, forallb is_hex_char (list_ascii_of_string s) = true ->
    exists n, int16_aux s acc = Some n.
Proof.
  induction s as [|c s IH]; intros acc Hs; simpl in *.
  - exists acc. reflexivity.
  - apply andb_true_iff in Hs. destruct Hs as [Hc Hs].
    unfold is_hex_char in Hc. destruct (hex_digit c) as [d|]; [|discriminate].
    apply IH. exact Hs.
Qed.

Lemma int16_hex (s : string) :
  is_hex_string s = true -> exists n, int16 s = Ok n.
Proof.
  unfold is_hex_string, int16. intros Hs.
  apply andb_true_iff in Hs. destruct Hs as [Hne Hs].
  destruct (int16_aux_hex s 0 Hs) as [n Hn].
  destruct s; [discriminate|]. rewrite Hn. exists n. reflexivity.
Qed.

Lemma zeros_snoc (n : nat) : zeros n ++ "0" = zeros (S n).
Proof.
  unfold zeros. induction n as [|n IH]; simpl; [reflexivity|].
  simpl in IH. rewrite IH. reflexivity.
Qed.

(** C5: for valid hex strings [A] and [B] of equal length the combination
    succeeds and does not depend on the order of the two sources, and a
    string combined with itself gives as many zeros as it has digits. *)
Theorem C5_xor_commutative_and_self_inverse (A B : string) :
  is_hex_string A = true -> is_hex_string B = true ->
  String.length A = String.length B ->
  xor_hex_strings A B = xor_hex_strings B A /\
  (exists digest, xor_hex_strings A B = Ok digest) /\
  xor_hex_strings A A = Ok (zeros (String.length A)).
Proof.
  intros HA HB Hlen.
  destruct (int16_hex A HA) as [a Ha]. destruct (int16_hex B HB) as [b Hb].
  unfold xor_hex_strings. rewrite <- Hlen, !Nat.eqb_refl, Ha, Hb. cbn [negb bind].
  split; [|split].
  - rewrite Z.lxor_comm. reflexivity.
  - eexists. reflexivity.
  - rewrite Z.lxor_nilpotent. unfold format_0x.
    change (format_x 0) with "0". f_equal.
    destruct A as [|c A]; [discriminate|].
    change (String.length "0") with 1%nat.
    change (String.length (String c A)) with (S (String.length A)).
    replace (S (String.length A) - 1)%nat with (String.length A) by lia.
    apply zeros_snoc.
Qed.

Lemma C5_xor_witness :
  xor_hex_strings "00ff" "0f0f" = xor_hex_strings "0f0f" "00ff" /\
  (exists digest, xor_hex_strings "00ff" "0f0f" = Ok digest) /\
  xor_hex_strings "00ff" "00ff" = Ok (zeros (String.length "00ff")).
Proof.
  apply (C5_xor_commutative_and_self_inverse "00ff" "0f0f"); reflexivity.
Defined.

(** ** Decimal numerals *)

Lemma append_assoc (s1 s2 s3 : string) : (s1 ++ s2) ++ s3 = s1 ++ (s2 ++ s3).
Proof. induction s1 as [|c s1 IH]; simpl; [reflexivity|rewrite IH; reflexivity]. Qed.

Lemma length_append (s1 s2 : string) :
  String.length (s1 ++ s2) = (String.length s1 + String.length s2)%nat.
Proof. induction s1 as [|c s1 IH]; simpl; [reflexivity|rewrite IH; reflexivity]. Qed.

Lemma format_x_fuel (n : Z) :
  0 <= n -> 0 <= n < 2 ^ Z.of_nat (S (Z.to_nat (Z.log2 n))).
Proof.
  intros Hn. split; [exact Hn|].
  destruct (Z.eq_dec n 0) as [->|Hnz]; [reflexivity|].
  rewrite Nat2Z.inj_succ, Z2Nat.id by apply Z.log2_nonneg.
  apply Z.log2_spec. lia.
Qed.

Lemma digits_aux_app (fuel : nat) :
  forall n acc, digits_aux fuel n acc = digits_aux fuel n EmptyString ++ acc.
Proof.
  induction fuel as [|f IH]; intros n acc; cbn [digits_aux]; [reflexivity|].
  destruct (n <? 10); [reflexivity|].
  rewrite (IH (n / 10) (String _ acc)), (IH (n / 10) (String _ EmptyString)).
  rewrite append_assoc. reflexivity.
Qed.

Lemma dec_digit_digit_char (d : Z) :
  0 <= d < 10 -> dec_digit (digit_char d) = Some d.
Proof.
  intros Hd.
  assert (H : d = 0 \/ d = 1 \/ d = 2 \/ d = 3 \/ d = 4 \/ d = 5 \/ d = 6 \/
              d = 7 \/ d = 8 \/ d = 9) by lia.
  repeat (destruct H as [->|H]; [reflexivity|]). subst d. reflexivity.
Qed.

Lemma int10_aux_app (s1 s2 : string) :
  forall acc,
    int10_aux (s1 ++ s2) acc =
      match int10_aux s1 acc with
      | Some v => int10_aux s2 v
      | None => None
      end.
Proof.
  induction s1 as [|c s1 IH]; intros acc; simpl; [reflexivity|].
  destruct (dec_digit c); [apply IH|reflexivity].
Qed.

(** Reading back what [digits_aux] wrote *)
Lemma int10_aux_digits_aux (fuel : nat) :
  forall n acc, 0 <= n < 2 ^ Z.of_nat fuel ->
    int10_aux (digits_aux fuel n EmptyString) acc =
      Some (acc * 10 ^ Z.of_nat (String.length (digits_aux fuel n EmptyString))
            + n).
Proof.
  induction fuel as [|f IH]; intros n acc Hn.
  - change (2 ^ Z.of_nat 0) with 1 in Hn. cbn. f_equal. lia.
  - cbn [digits_aux].
    assert (Hmod : 0 <= n mod 10 < 10) by (apply Z.mod_pos_bound; lia).
    destruct (Z.ltb_spec n 10) as [Hlt|Hge].
    + cbn [int10_aux String.length]. rewrite Z.mod_small by lia.
      rewrite dec_digit_digit_char by lia. cbn [int10_aux].
      change (10 ^ Z.of_nat 1) with 10. f_equal. lia.
    + rewrite digits_aux_app, int10_aux_app.
      assert (Hdiv : 0 <= n / 10 < 2 ^ Z.of_nat f).
      { split; [apply Z.div_pos; lia|]. apply Z.div_lt_upper_bound; [lia|].
        rewrite Nat2Z.inj_succ, Z.pow_succ_r in Hn by lia. lia. }
      rewrite (IH (n / 10) acc Hdiv). cbn [int10_aux].
      rewrite dec_digit_digit_char by lia. cbn [int10_aux].
      rewrite length_append. cbn [String.length].
      rewrite Nat2Z.inj_add. change (Z.of_nat 1) with 1.
      rewrite Z.pow_add_r by lia. change (10 ^ 1) with 10.
      pose proof (Z.div_mod n 10 ltac:(lia)). f_equal. lia.
Qed.

Lemma int10_aux_zeros (k : nat) : int10_aux (zeros k) 0 = Some 0.
Proof.
  unfold zeros. induction k as [|k IH]; [reflexivity|].
  cbn [repeat string_of_list_ascii int10_aux].
  change (dec_digit "0") with (Some 0). cbn [int10_aux]. exact IH.
Qed.

(** [int] reads back the index that ["{:02d}"] wrote *)
Lemma int10_aux_format_02d (n : Z) :
  0 <= n -> int10_aux (format_02d n) 0 = Some n.
Proof.
  intros Hn. unfold format_02d.
  rewrite int10_aux_app, int10_aux_zeros. unfold digits.
  rewrite int10_aux_digits_aux by (apply format_x_fuel; exact Hn).
  f_equal; lia.
Qed.

(** The first digit that [digits_aux] writes for a positive number is
    not a zero *)
Lemma digits_aux_first (fuel : nat) :
  forall n acc, 1 <= n < 2 ^ Z.of_nat fuel ->
    exists m rest,
      1 <= m <= 9 /\ digits_aux fuel n acc = String (digit_char m) rest.
Proof.
  induction fuel as [|f IH]; intros n acc Hn.
  - change (2 ^ Z.of_nat 0) with 1 in Hn. lia.
  - cbn [digits_aux]. destruct (Z.ltb_spec n 10) as [Hlt|Hge].
    + exists n, acc. rewrite Z.mod_small by lia. split; [lia|reflexivity].
    + apply IH. split.
      * apply Z.div_le_lower_bound; lia.
      * apply Z.div_lt_upper_bound; [lia|].
        rewrite Nat2Z.inj_succ, Z.pow_succ_r in Hn by lia. lia.
Qed.

Lemma digit_char_not_zero (m : Z) : 1 <= m <= 9 -> digit_char m <> "0"%char.
Proof.
  intros Hm.
  assert (H : m = 1 \/ m = 2 \/ m = 3 \/ m = 4 \/ m = 5 \/ m = 6 \/ m = 7 \/
              m = 8 \/ m = 9) by lia.
  repeat (destruct H as [->|H]; [discriminate|]). subst m. discriminate.
Qed.

(** From 100 on [{:02d}] pads nothing: the index is written as it is *)
Lemma format_02d_plain (n : Z) :
  100 <= n ->
  exists c rest, format_02d n = String c rest /\ c <> "0"%char.
Proof.
  intros Hn. unfold format_02d, digits.
  assert (Hlog : 6 <= Z.log2 n).
  { apply Z.log2_le_pow2; [lia|]. change (2 ^ 6) with 64. lia. }
  destruct (Z.to_nat (Z.log2 n)) as [|f] eqn:Hfuel; [lia|].
  assert (Hbound : n < 2 ^ Z.of_nat (S (S f))).
  { rewrite <- Hfuel. apply (format_x_fuel n). lia. }
  rewrite !Nat2Z.inj_succ, !Z.pow_succ_r in Hbound by lia.
  assert (Hdiv : 10 <= n / 10) by (apply Z.div_le_lower_bound; lia).
  assert (Hdiv2 : 1 <= n / 10 / 10) by (apply Z.div_le_lower_bound; lia).
  cbn [digits_aux].
  replace (n <? 10) with false by (symmetry; apply Z.ltb_ge; lia).
  replace (n / 10 <? 10) with false by (symmetry; apply Z.ltb_ge; lia).
  rewrite digits_aux_app.
  destruct (digits_aux_first f (n / 10 / 10) EmptyString) as (m & rest & Hm & Hfirst).
  { split; [exact Hdiv2|].
    apply Z.div_lt_upper_bound; [lia|]. apply Z.div_lt_upper_bound; lia. }
  rewrite Hfirst. cbn [append String.length Nat.sub].
  rewrite length_append. cbn [String.length].
  replace (zeros match (String.length rest + 2)%nat with
                 | 0%nat => 1 | S _ => 0 end) with EmptyString
    by (destruct (String.length rest + 2)%nat eqn:H; [lia|reflexivity]).
  cbn [append].
  eexists _, _. split; [reflexivity|]. apply digit_char_not_zero. exact Hm.
Qed.

Lemma append_char_not_zero (x y : string) (ch : ascii) :
  ch <> "0"%char -> x ++ String ch y <> "0".
Proof.
  intros Hch H. destruct x as [|a [|b x]]; simpl in H.
  - injection H as H _. contradiction.
  - discriminate.
  - discriminate.
Qed.

Lemma point_not_zero (a b y z : string) : a ++ b ++ ("." ++ y) ++ z <> "0".
Proof.
  change (("." ++ y) ++ z) with (String "." (y ++ z)).
  rewrite <- append_assoc. apply append_char_not_zero. discriminate.
Qed.

(** A decimal that is not zero is never printed as ["0"] *)
Lemma str_Decimal_nonzero (d : Dec.t) :
  Dec.coef d <> 0 -> str_Decimal d <> "0".
Proof.
  intros Hc. unfold str_Decimal.
  set (int_ := digits (Z.abs (Dec.coef d))).
  set (len := Z.of_nat (String.length int_)).
  set (dotplace := if (Dec.expo d <=? 0) && (-6 <? Dec.expo d + len)
                   then Dec.expo d + len else 1).
  set (exp := if Dec.expo d + len =? dotplace then EmptyString
              else "E" ++ signed_int (Dec.expo d + len - dotplace)).
  destruct (dotplace <=? 0); [apply point_not_zero|].
  destruct (len <=? dotplace); [|apply point_not_zero].
  destruct (Z.ltb_spec (Dec.coef d) 0) as [Hneg|Hpos]; [discriminate|].
  destruct (digits_aux_first (S (Z.to_nat (Z.log2 (Z.abs (Dec.coef d)))))
              (Z.abs (Dec.coef d)) EmptyString)
    as (m & rest & Hm & Hfirst).
  { pose proof (format_x_fuel (Z.abs (Dec.coef d)) ltac:(lia)). lia. }
  unfold int_, digits. rewrite Hfirst. cbn [append].
  intros H. injection H as H _. exact (digit_char_not_zero m Hm H).
Qed.

(** ** Pruning of the destinations *)

Lemma od_set_fresh {V : Type} (k : string) (v : V) (d : odict V) :
  ~ In k (keys d) -> od_set k v d = (d ++ [(k, v)])%list.
Proof.
  induction d as [|[k' v'] d IH]; intros Hk; simpl; [reflexivity|].
  destruct (String.eqb_spec k k') as [->|Hne].
  - exfalso. apply Hk. left. reflexivity.
  - f_equal. apply IH. intros Hin. apply Hk. right. exact Hin.
Qed.

Lemma OrderedDict_loop {V : Type} (pairs : list (string * V)) :
  forall d, NoDup (keys (d ++ pairs)%list) ->
    fold_left (fun d kv => od_set (fst kv) (snd kv) d) pairs d
      = (d ++ pairs)%list.
Proof.
  induction pairs as [|[k v] pairs IH]; intros d Hnd; simpl.
  - rewrite app_nil_r. reflexivity.
  - assert (Hfresh : ~ In k (keys d)).
    { unfold keys in *. rewrite map_app in Hnd. simpl in Hnd.
      apply NoDup_remove_2 in Hnd. intros Hin. apply Hnd.
      apply in_or_app. left. exact Hin. }
    rewrite od_set_fresh by exact Hfresh.
    rewrite IH; rewrite <- app_assoc; [reflexivity|exact Hnd].
Qed.

(** Built from pairs with distinct keys, an [OrderedDict] lists them as
    given. *)
Lemma OrderedDict_distinct {V : Type} (pairs : list (string * V)) :
  NoDup (keys pairs) -> OrderedDict pairs = pairs.
Proof. intros Hnd. unfold OrderedDict. apply (OrderedDict_loop pairs []). exact Hnd. Qed.

Lemma keys_filter_NoDup {V : Type} (p : string * V -> bool) (d : odict V) :
  NoDup (keys d) -> NoDup (keys (filter p d)).
Proof.
  unfold keys. induction d as [|kv d IH]; intros Hnd; simpl; [constructor|].
  inversion Hnd as [|k ks Hk Hks]; subst.
  destruct (p kv); [|apply IH; exact Hks].
  simpl. constructor; [|apply IH; exact Hks].
  intros Hin. apply Hk. apply in_map_iff in Hin.
  destruct Hin as (kv' & Hfst & Hin'). apply filter_In in Hin'.
  apply in_map_iff. exists kv'. split; [exact Hfst|apply Hin'].
Qed.

Lemma py_eqb_eq (a b : pyval) : py_eqb a b = true <-> a = b.
Proof.
  destruct a as [n|s], b as [m|t]; simpl.
  - rewrite Z.eqb_eq. split; congruence.
  - split; discriminate.
  - split; discriminate.
  - rewrite String.eqb_eq. split; congruence.
Qed.

(** Preparing the default wallet takes one to three requests *)
Lemma create_default_wallet_requests (node : Node) :
  forallb is_startup_request (fst (create_default_wallet node)) = true /\
  (List.length (fst (create_default_wallet node)) <= 3)%nat.
Proof.
  unfold create_default_wallet.
  destruct (node_listwallets node) as [loaded_wallets|];
    cbn [bitcoin_cli_json mbind]; [|split; [reflexivity|simpl; lia]].
  destruct (existsb (String.eqb EmptyString) loaded_wallets);
    cbn [ret]; [split; [reflexivity|simpl; lia]|].
  destruct (node_listwalletdir node) as [all_wallets|];
    cbn [mbind]; [|split; [reflexivity|simpl; lia]].
  destruct (existsb (fun w => String.eqb w EmptyString) all_wallets);
    [destruct (node_loadwallet node) as [warning|]
    |destruct (node_createwallet node) as [warning|]];
    cbn [mbind]; try (split; [reflexivity|simpl; lia]);
    destruct (0 <? String.length warning)%nat;
    (split; [reflexivity|simpl; lia]).
Qed.

Lemma wait_for_bitcoind_requests (node : Node) (answers : nat -> bool)
    (tries : nat) :
  forall times,
    forallb is_startup_request
      (fst (wait_for_bitcoind node answers times tries)) = true /\
    (List.length (fst (wait_for_bitcoind node answers times tries))
     <= tries + 3)%nat.
Proof.
  induction tries as [|tries IH]; intros times; cbn [wait_for_bitcoind].
  - split; [reflexivity|simpl; lia].
  - unfold bitcoin_cli_call. cbn [mbind].
    destruct (answers times).
    + destruct (create_default_wallet_requests node) as [Hall Hlen].
      destruct (create_default_wallet node) as [log r]. cbn [fst] in *.
      cbn [app forallb is_startup_request andb List.length].
      split; [exact Hall|lia].
    + destruct (IH (S times)) as [Hall Hlen].
      destruct (wait_for_bitcoind node answers (S times) tries) as [log r].
      cbn [fst] in *. cbn [app forallb is_startup_request andb List.length].
      split; [exact Hall|lia].
Qed.

(** Starting the daemon makes startup requests only, 25 at most *)
Lemma ensure_bitcoind_running_polled_requests (node : Node)
    (answers : nat -> bool) :
  forallb is_startup_request
    (fst (ensure_bitcoind_running_polled node answers)) = true /\
  (List.length (fst (ensure_bitcoind_running_polled node answers)) <= 25)%nat.
Proof.
  unfold ensure_bitcoind_running_polled, bitcoin_cli_call. cbn [mbind].
  destruct (wait_for_bitcoind_requests node answers 21 0) as [Hall Hlen].
  destruct (wait_for_bitcoind node answers 0 21) as [log r]. cbn [fst] in *.
  cbn [app forallb is_startup_request andb List.length].
  split; [exact Hall|lia].
Qed.

(** Starting the daemon assembles no transaction *)
Lemma ensure_bitcoind_running_requests (node : Node) :
  forallb (fun req => negb (is_createrawtransaction req))
    (fst (ensure_bitcoind_running node)) = true.
Proof.
  destruct (ensure_bitcoind_running_polled_requests node
              (fun _ => node_up node)) as [Hall _].
  unfold ensure_bitcoind_running. rewrite forallb_forall in *.
  intros req Hin. specialize (Hall req Hin). destruct req; try reflexivity.
  discriminate Hall.
Qed.

(** The one [createrawtransaction] request of [create_unsigned_transaction] *)
Lemma create_unsigned_transaction_request (node : Node)
    (source_address : string) (destinations : odict pyval)
    (redeem_script : string) (input_txs : list Tx)
    (inputs : list TxIn) (outputs : odict pyval) :
  In (createrawtransaction inputs outputs)
     (fst (create_unsigned_transaction node source_address destinations
             redeem_script input_txs)) ->
  inputs =
    flat_map (fun tx =>
      map (fun utxo => {| in_txid := tx_txid tx; in_vout := out_n utxo |})
          (get_utxos tx source_address)) input_txs /\
  outputs = prune_destinations destinations.
Proof.
  intros Hreq. unfold create_unsigned_transaction in Hreq.
  pose proof (ensure_bitcoind_running_requests node) as Hlog.
  rewrite forallb_forall in Hlog.
  destruct (ensure_bitcoind_running node) as [log [[]|e]];
    cbn [mbind fst bitcoin_cli_json] in Hreq, Hlog.
  - apply in_app_or in Hreq. destruct Hreq as [Hreq|Hreq].
    + apply Hlog in Hreq. discriminate.
    + destruct Hreq as [Hreq|[]]. injection Hreq as <- <-. split; reflexivity.
  - apply Hlog in Hreq. discriminate.
Qed.

(** C4 (as amended): the outputs of the [createrawtransaction] request
    are the destinations that pass the pruning test, in insertion order.
    The test drops every entry whose value is the string "0" and keeps
    every int, the int 0 placeholders of the fee negotiation included,
    and every decimal that is not zero as [str] prints it; nothing is
    stated here about other spellings of a zero amount.  With the node
    up the request is made. *)
Theorem C4_prune_drops_string_zero (node : Node) (source_address : string)
    (destinations : odict pyval) (redeem_script : string)
    (input_txs : list Tx) :
  NoDup (keys destinations) ->
  exists kept : string * pyval -> bool,
    prune_destinations destinations = filter kept destinations /\
    (forall k, kept (k, PStr "0") = false) /\
    (forall k n, kept (k, PInt n) = true) /\
    (forall k d, Dec.coef d <> 0 -> kept (k, PStr (str_Decimal d)) = true) /\
    (forall inputs outputs,
       In (createrawtransaction inputs outputs)
          (fst (create_unsigned_transaction node source_address destinations
                  redeem_script input_txs)) ->
       outputs = prune_destinations destinations) /\
    (snd (ensure_bitcoind_running node) = Ok tt ->
     exists inputs,
       In (createrawtransaction inputs (prune_destinations destinations))
          (fst (create_unsigned_transaction node source_address destinations
                  redeem_script input_txs))).
Proof.
  intros Hnd.
  exists (fun kv => negb (py_eqb (snd kv) (PStr "0"))).
  split; [|split; [|split; [|split; [|split]]]].
  - unfold prune_destinations. apply OrderedDict_distinct.
    apply keys_filter_NoDup. exact Hnd.
  - intros k. reflexivity.
  - intros k n. reflexivity.
  - intros k d Hd. cbn [snd py_eqb]. apply negb_true_iff.
    apply String.eqb_neq. apply str_Decimal_nonzero. exact Hd.
  - intros inputs outputs Hreq.
    apply create_unsigned_transaction_request in Hreq. apply Hreq.
  - intros Hup. unfold create_unsigned_transaction.
    destruct (ensure_bitcoind_running node) as [log [[]|e]];
      [|discriminate Hup].
    cbn [mbind bitcoin_cli_json fst]. eexists.
    apply in_or_app. right. left. reflexivity.
Qed.

Lemma C4_prune_witness :
  prune_destinations [("source", PStr "0"); ("destination", PStr "0.99990000")]
    = [("destination", PStr "0.99990000")].
Proof.
  assert (Hnd : NoDup (keys [("source", PStr "0");
                             ("destination", PStr "0.99990000")])).
  { repeat constructor; simpl; intuition discriminate. }
  destruct (C4_prune_drops_string_zero sample_node "source"
              [("source", PStr "0"); ("destination", PStr "0.99990000")]
              "redeem" [] Hnd)
    as (kept & Heq & Hzero & _ & Hamount & _).
  rewrite Heq. cbn [filter]. rewrite Hzero.
  change "0.99990000" with (str_Decimal (Dec.mk 99990000 (-8))).
  rewrite Hamount by (cbn [Dec.coef]; lia). reflexivity.
Defined.

(** C4, as stated, fails: the dictionary that [withdraw_interactive]
    hands to the fee negotiation holds the int 0 for both addresses, and
    both zero-amount entries are in the [createrawtransaction] request. *)
Lemma C4_int_zero_outputs_are_requested :
  prune_destinations [("source", PInt 0); ("destination", PInt 0)] =
    [("source", PInt 0); ("destination", PInt 0)] /\
  In (createrawtransaction [] [("source", PInt 0); ("destination", PInt 0)])
     (fst (create_unsigned_transaction sample_node "source"
             [("source", PInt 0); ("destination", PInt 0)] "redeem" [])).
Proof.
  split; [reflexivity|]. vm_compute. right. right. right. left. reflexivity.
Qed.

(** ** QR code artifacts *)

Lemma take_drop (n : nat) (s : string) : take n s ++ drop n s = s.
Proof.
  revert s. induction n as [|n IH]; intros [|c s]; simpl; try reflexivity.
  rewrite IH. reflexivity.
Qed.

Lemma length_drop (n : nat) (s : string) :
  String.length (drop n s) = (String.length s - n)%nat.
Proof.
  revert s. induction n as [|n IH]; intros [|c s]; simpl; try reflexivity.
  apply IH.
Qed.

Lemma MAX_QR_LEN_pos (all_upper_case : bool) : (0 < MAX_QR_LEN all_upper_case)%nat.
Proof. destruct all_upper_case; unfold MAX_QR_LEN; lia. Qed.

(** The number of chunks of size [m] in [n] characters *)
Lemma ceil_div_step (n m : nat) :
  (0 < m)%nat -> (0 < n)%nat ->
  ((n + m - 1) / m = S ((n - m + m - 1) / m))%nat.
Proof.
  intros Hm Hn. destruct (Nat.le_gt_cases n m) as [Hle|Hgt].
  - replace (n - m + m - 1)%nat with (m - 1)%nat by lia.
    rewrite (Nat.div_small (m - 1) m) by lia.
    replace (n + m - 1)%nat with ((n - 1) + 1 * m)%nat by lia.
    rewrite Nat.div_add by lia. rewrite Nat.div_small by lia. reflexivity.
  - replace (n + m - 1)%nat with ((n - m + m - 1) + 1 * m)%nat by lia.
    rewrite Nat.div_add by lia. lia.
Qed.

Lemma qr_split_join (all_upper_case : bool) (base ext : string) (idx : Z)
    (intdata : string) :
  join (map snd (qr_split all_upper_case base ext idx intdata)) = intdata.
Proof.
  funelim (qr_split all_upper_case base ext idx intdata); simp qr_split.
  - reflexivity.
  - cbn [map snd join fold_right]. fold (join (map snd
      (qr_split all_upper_case base ext (idx + 1)
         (drop (MAX_QR_LEN all_upper_case) (String c rest))))).
    rewrite H. apply take_drop.
Qed.

Lemma qr_split_length (all_upper_case : bool) (base ext : string) (idx : Z)
    (intdata : string) :
  List.length (qr_split all_upper_case base ext idx intdata) =
    ((String.length intdata + MAX_QR_LEN all_upper_case - 1)
       / MAX_QR_LEN all_upper_case)%nat.
Proof.
  funelim (qr_split all_upper_case base ext idx intdata); simp qr_split.
  - pose proof (MAX_QR_LEN_pos all_upper_case).
    cbn [String.length List.length]. symmetry. apply Nat.div_small. lia.
  - cbn [List.length]. rewrite H, length_drop.
    symmetry. apply ceil_div_step; [apply MAX_QR_LEN_pos|simpl; lia].
Qed.

Lemma qr_split_names (all_upper_case : bool) (base ext : string) (idx : Z)
    (intdata : string) :
  map fst (qr_split all_upper_case base ext idx intdata) =
    map (fun k => qr_name base ext (idx + Z.of_nat k))
      (seq 0 (List.length (qr_split all_upper_case base ext idx intdata))).
Proof.
  funelim (qr_split all_upper_case base ext idx intdata); simp qr_split.
  - reflexivity.
  - cbn [map fst List.length seq]. rewrite Z.add_0_r. f_equal.
    rewrite H. rewrite <- seq_shift, map_map.
    apply map_ext. intros k. f_equal. lia.
Qed.

(** Up to 99 the index is written with exactly two digits *)
Lemma format_02d_two_digits (k : nat) :
  (k < 100)%nat -> String.length (format_02d (Z.of_nat k)) = 2%nat.
Proof.
  intros Hk. do 100 (destruct k as [|k]; [reflexivity|]). lia.
Qed.

(** The suffix [{:02d}] writes for an index: the decimal numeral of the
    index, with two digits up to 99 and no padding from 100 on *)
Lemma format_02d_numeral (n : Z) :
  0 < n ->
  int10 (format_02d n) = Ok n /\
  (n < 100 -> String.length (format_02d n) = 2%nat) /\
  (100 <= n -> exists c rest, format_02d n = String c rest /\ c <> "0"%char).
Proof.
  intros Hn.
  assert (Hlen : n < 100 -> String.length (format_02d n) = 2%nat).
  { intros Hsmall. rewrite <- (Z2Nat.id n) by lia.
    apply format_02d_two_digits. lia. }
  split; [|split; [exact Hlen|apply format_02d_plain]].
  unfold int10. rewrite int10_aux_format_02d by lia.
  destruct (format_02d n) as [|c rest] eqn:Hf; [|reflexivity].
  exfalso. destruct (Z_lt_le_dec n 100) as [Hsmall|Hlarge].
  - specialize (Hlen Hsmall). discriminate Hlen.
  - destruct (format_02d_plain n Hlarge) as (c & rest & Heq & _).
    rewrite Hf in Heq. discriminate Heq.
Qed.

Lemma qr_split_nth_name (all_upper_case : bool) (base ext : string)
    (intdata : string) (k : nat) :
  (k < List.length (qr_split all_upper_case base ext 1 intdata))%nat ->
  nth k (map fst (qr_split all_upper_case base ext 1 intdata)) EmptyString
    = qr_name base ext (Z.of_nat (S k)).
Proof.
  intros Hk. rewrite qr_split_names.
  rewrite (nth_indep _ EmptyString (qr_name base ext (1 + Z.of_nat 0)))
    by (rewrite length_map, length_seq; exact Hk).
  rewrite (map_nth (fun j => qr_name base ext (1 + Z.of_nat j))).
  rewrite seq_nth by exact Hk. f_equal. lia.
Qed.

(** C9 (as amended): data no longer than the threshold (4200 characters
    when upper-casing leaves it unchanged, 2800 otherwise) is written as
    one QR code under the file name given; longer data is written as
    ceil(len / threshold) codes whose contents concatenate to the data,
    the code of index 1, 2, ... under base-<index>ext, where the index is
    its decimal numeral with two digits up to 99 (01, 02, ...) and
    without padding from 100 on. *)
Theorem C9_qr_artifacts (splitext : string -> string * string)
    (zbarimg : string -> string -> string) (name filename data : string) :
  let threshold :=
    if String.eqb (upper data) data then 4200%nat else 2800%nat in
  let written :=
    qr_written (write_and_verify_qr_code splitext zbarimg name filename data) in
  ((String.length data <= threshold)%nat -> written = [(filename, data)]) /\
  ((threshold < String.length data)%nat ->
     List.length written =
       ((String.length data + threshold - 1) / threshold)%nat /\
     join (map snd written) = data /\
     forall k, (k < List.length written)%nat ->
       exists suffix,
         nth k (map fst written) EmptyString
           = fst (splitext filename) ++ "-" ++ suffix
             ++ snd (splitext filename) /\
         int10 suffix = Ok (Z.of_nat (S k)) /\
         ((S k < 100)%nat -> String.length suffix = 2%nat) /\
         ((100 <= S k)%nat ->
          exists c rest, suffix = String c rest /\ c <> "0"%char)).
Proof.
  intros threshold written. subst written.
  unfold write_and_verify_qr_code.
  destruct (splitext filename) as [base ext]. cbn [qr_written fst snd].
  assert (Hmax : MAX_QR_LEN (String.eqb (upper data) data) = threshold).
  { unfold threshold, MAX_QR_LEN.
    destruct (String.eqb (upper data) data); reflexivity. }
  rewrite Hmax. split; intros Hlen.
  - replace (String.length data <=? threshold)%nat with true
      by (symmetry; apply Nat.leb_le; exact Hlen).
    reflexivity.
  - replace (String.length data <=? threshold)%nat with false
      by (symmetry; apply Nat.leb_gt; exact Hlen).
    split; [|split].
    + rewrite qr_split_length, Hmax. reflexivity.
    + apply qr_split_join.
    + intros k Hk. exists (format_02d (Z.of_nat (S k))).
      split; [rewrite (qr_split_nth_name _ _ _ _ _ Hk); reflexivity|].
      destruct (format_02d_numeral (Z.of_nat (S k)) ltac:(lia))
        as (Hread & Htwo & Hplain).
      split; [exact Hread|]. split.
      * intros Hsmall. apply Htwo. lia.
      * intros Hlarge. apply Hplain. lia.
Qed.

Lemma length_string_of_list_ascii (l : list ascii) :
  String.length (string_of_list_ascii l) = List.length l.
Proof. induction l as [|c l IH]; simpl; [reflexivity|rewrite IH; reflexivity]. Qed.

(** C9, as stated, fails from the hundredth code on: 277201 characters
    in lower case are written as 100 codes, and the last one is named
    with the three digits of its index. *)
Lemma C9_hundredth_code_has_three_digits :
  List.length
    (qr_written (write_and_verify_qr_code sample_splitext sample_zbarimg
                   "transaction" "transaction.png" sample_long_data))
    = 100%nat /\
  nth 99
    (map fst
       (qr_written (write_and_verify_qr_code sample_splitext sample_zbarimg
                      "transaction" "transaction.png" sample_long_data)))
    EmptyString
    = "transaction-100.png" /\
  format_02d 100 = "100".
Proof.
  set (written :=
         qr_written (write_and_verify_qr_code sample_splitext sample_zbarimg
                       "transaction" "transaction.png" sample_long_data)).
  assert (Hlen : String.length sample_long_data = Z.to_nat 277201).
  { unfold sample_long_data. rewrite length_string_of_list_ascii.
    apply repeat_length. }
  assert (Hupper : String.eqb (upper sample_long_data) sample_long_data = false).
  { unfold sample_long_data.
    replace (Z.to_nat 277201) with (S (Z.to_nat 277200)) by lia.
    reflexivity. }
  assert (Hsplit : written =
            qr_split false "transaction" ".png" 1 sample_long_data).
  { unfold written, write_and_verify_qr_code.
    change (sample_splitext "transaction.png") with ("transaction", ".png").
    cbn [qr_written]. rewrite Hupper. unfold MAX_QR_LEN.
    assert (Hlong : (String.length sample_long_data <=? 2800)%nat = false)
      by (apply Nat.leb_gt; rewrite Hlen; lia).
    rewrite Hlong. reflexivity. }
  assert (Hcount : List.length written = 100%nat).
  { rewrite Hsplit, qr_split_length, Hlen. unfold MAX_QR_LEN.
    apply Nat2Z.inj. rewrite Nat2Z.inj_div. rewrite Nat2Z.inj_sub by lia.
    rewrite Nat2Z.inj_add, Z2Nat.id by lia. reflexivity. }
  split; [exact Hcount|]. split; [|reflexivity].
  rewrite Hsplit, qr_split_nth_name by (rewrite <- Hsplit, Hcount; lia).
  reflexivity.
Qed.

(** ** Deposit *)

Lemma mbind_ok {A B : Type} (m : M A) (a : A) (k : A -> M B) :
  snd m = Ok a -> mbind m k = ((fst m ++ fst (k a))%list, snd (k a)).
Proof.
  destruct m as [l r]; simpl; intros ->. destruct (k a); reflexivity.
Qed.

Lemma mbind_inv {A B : Type} (m : M A) (k : A -> M B) (b : B) :
  snd (mbind m k) = Ok b -> exists a, snd m = Ok a /\ snd (k a) = Ok b.
Proof.
  destruct m as [l [a|e]]; simpl.
  - destruct (k a) eqn:Hk. simpl. intros ->. exists a. rewrite Hk. split; reflexivity.
  - discriminate.
Qed.

Lemma mapM_length {A B : Type} (f : A -> M B) (l : list A) :
  forall bs, snd (mapM f l) = Ok bs -> List.length bs = List.length l.
Proof.
  induction l as [|a l IH]; intros bs Hbs; cbn [mapM] in Hbs.
  - injection Hbs as <-. reflexivity.
  - apply mbind_inv in Hbs. destruct Hbs as (b & _ & Hbs).
    apply mbind_inv in Hbs. destruct Hbs as (bs' & Hbs' & Hret).
    injection Hret as <-. simpl. f_equal. apply IH. exact Hbs'.
Qed.

Lemma deposit_keys_length (hash_sha256 b58encode_check_fromhex : string -> string)
    (wif_prefix : string) (dice_seed_length rng_seed_length : Z) (todo : nat) :
  forall keys0 stdin keys,
    fst (deposit_keys hash_sha256 b58encode_check_fromhex wif_prefix todo keys0
           dice_seed_length rng_seed_length stdin) = Ok keys ->
    List.length keys = (List.length keys0 + todo)%nat.
Proof.
  induction todo as [|todo IH]; intros keys0 stdin keys Hkeys;
    cbn [deposit_keys] in Hkeys.
  - injection Hkeys as <-. lia.
  - destruct (read_dice_seed_interactive dice_seed_length stdin)
      as [[dice|e] stdin1]; [|discriminate].
    destruct (read_rng_seed_interactive rng_seed_length stdin1)
      as [[rng|e] stdin2]; [|discriminate].
    destruct (xor_hex_strings (hash_sha256 dice) (hash_sha256 rng))
      as [hex_key|e]; [|discriminate].
    apply IH in Hkeys. rewrite length_app in Hkeys. simpl in Hkeys. lia.
Qed.

(** C8 (as amended): [deposit_interactive] never compares [m] with [n].
    Once the operator has passed the checklist and typed the entropy of
    [n] keys, and the node has resolved their addresses, the node is asked
    for the [m]-of-[n] address with [m] as given and those [n] addresses;
    its refusal is raised as [CalledProcessError], its answer becomes the
    deposit data with the [n] keys. *)
Theorem C8_deposit_leaves_m_to_the_node (node : Node)
    (hash_sha256 b58encode_check_fromhex : string -> string)
    (wif_prefix : string) (splitext : string -> string * string)
    (zbarimg : string -> string -> string)
    (m n dice_seed_length rng_seed_length : Z) (p2wsh : bool)
    (stdin stdin' : list string) (keys addresses : list string) :
  safety_checklist stdin = (Ok tt, stdin') ->
  fst (deposit_keys hash_sha256 b58encode_check_fromhex wif_prefix (Z.to_nat n)
         [] dice_seed_length rng_seed_length stdin') = Ok keys ->
  snd (ensure_bitcoind_running node) = Ok tt ->
  snd (require_minimum_bitcoind_version node 220000) = Ok tt ->
  snd (mapM (get_address_for_wif_privkey node hash_sha256) keys)
    = Ok addresses ->
  let run := deposit_interactive node hash_sha256 b58encode_check_fromhex
               wif_prefix splitext zbarimg m n dice_seed_length
               rng_seed_length p2wsh stdin in
  let address_type := if p2wsh then "bech32" else "p2sh-segwit" in
  List.length keys = Z.to_nat n /\
  List.length addresses = Z.to_nat n /\
  In (addmultisigaddress_ m addresses address_type) (fst run) /\
  match node_addmultisig node m addresses address_type with
  | Some results =>
      exists deposit,
        snd run = Ok deposit /\ dep_keys deposit = keys /\
        dep_address deposit = ms_address results /\
        dep_redeemScript deposit = ms_redeemScript results
  | None => snd run = Raise CalledProcessError
  end.
Proof.
  intros Hsafety Hkeys Hup Hversion Haddresses run address_type.
  assert (Hlen : List.length keys = Z.to_nat n).
  { apply deposit_keys_length in Hkeys. simpl in Hkeys. exact Hkeys. }
  split; [exact Hlen|].
  split; [rewrite <- Hlen; apply (mapM_length _ _ _ Haddresses)|].
  subst run. unfold deposit_interactive. rewrite Hsafety, Hkeys.
  fold address_type.
  destruct (ensure_bitcoind_running node) as [log1 r1].
  cbn [snd] in Hup. subst r1.
  destruct (require_minimum_bitcoind_version node 220000) as [log2 r2].
  cbn [snd] in Hversion. subst r2.
  cbn [mbind lift].
  destruct (mapM (get_address_for_wif_privkey node hash_sha256) keys)
    as [log3 r3].
  cbn [snd] in Haddresses. subst r3.
  unfold addmultisigaddress, bitcoin_cli_json. cbn [mbind].
  destruct (node_addmultisig node m addresses address_type) as [results|];
    cbn [mbind lift ret fst snd]; split.
  - rewrite !in_app_iff. simpl. auto 10.
  - eexists. split; [reflexivity|]. cbn. repeat split.
  - rewrite !in_app_iff. simpl. auto 10.
  - reflexivity.
Qed.

Lemma C8_one_of_two_witness :
  List.length sample_keys = 2%nat /\
  List.length sample_addresses = 2%nat /\
  In (addmultisigaddress_ 1 sample_addresses "p2sh-segwit")
     (fst (sample_deposit 1 2)).
Proof.
  assert (Hsafety : safety_checklist sample_stdin
                    = (Ok tt, skipn 6 sample_stdin))
    by (vm_compute; reflexivity).
  assert (Hkeys : fst (deposit_keys sample_sha256 sample_b58 "80" (Z.to_nat 2)
                         [] 62 20 (skipn 6 sample_stdin)) = Ok sample_keys)
    by (vm_compute; reflexivity).
  assert (Hup : snd (ensure_bitcoind_running sample_node) = Ok tt)
    by (vm_compute; reflexivity).
  assert (Hversion : snd (require_minimum_bitcoind_version sample_node 220000)
                     = Ok tt)
    by (vm_compute; reflexivity).
  assert (Haddresses :
            snd (mapM (get_address_for_wif_privkey sample_node sample_sha256)
                   sample_keys) = Ok sample_addresses)
    by (vm_compute; reflexivity).
  destruct (C8_deposit_leaves_m_to_the_node sample_node sample_sha256
              sample_b58 "80" sample_splitext sample_zbarimg 1 2 62 20 false
              sample_stdin (skipn 6 sample_stdin) sample_keys sample_addresses
              Hsafety Hkeys Hup Hversion Haddresses)
    as (Hlen_keys & Hlen_addresses & Hrequest & _).
  split; [exact Hlen_keys|]. split; [exact Hlen_addresses|exact Hrequest].
Defined.

(** C8, as stated, fails: a 3-of-2 request passes the checklist, derives
    both keys, has the node import them and resolve their addresses, and
    is turned down only by the node's answer to [addmultisigaddress]. *)
Lemma C8_three_of_two_reaches_the_node :
  exists requests key1 label1 addresses,
    sample_deposit 3 2 = (requests, Raise CalledProcessError) /\
    In (importprivkey key1 label1) requests /\
    List.length addresses = 2%nat /\
    In (addmultisigaddress_ 3 addresses "p2sh-segwit") requests.
Proof.
  do 4 eexists. split; [vm_compute; reflexivity|].
  split; [do 7 right; left; reflexivity|].
  split; [|do 14 right; left; reflexivity]. reflexivity.
Qed.

(** ** The float literals

    Each literal is the double nearest to its decimal text: a 53-bit
    significand whose distance to the decimal value is at most half a unit
    in the last place. *)

Lemma lit_1e_8_nearest :
  let m := 2 * Float.mant Float.lit_1e_8 in
  2 ^ 52 <= m < 2 ^ 53 /\ 2 * Z.abs (m * 10 ^ 8 - 2 ^ 79) <= 10 ^ 8.
Proof. vm_compute. repeat split; discriminate. Qed.

Lemma lit_005_nearest :
  let m := Float.mant Float.lit_005 in
  2 ^ 52 <= m < 2 ^ 53 /\ 2 * Z.abs (m * 1000 - 5 * 2 ^ 60) <= 1000.
Proof. vm_compute. repeat split; discriminate. Qed.

(** [1e-8] the float is larger than [1E-8] the decimal *)
Lemma lit_1e_8_above_one_satoshi :
  Float.compare_dec SATOSHI_PLACES Float.lit_1e_8 = Lt.
Proof. reflexivity. Qed.

(** * Further properties of the script *)

(** ** Entropy typed by the operator *)

Lemma append_empty_r (s : string) : s ++ EmptyString = s.
Proof. induction s as [|c s IH]; simpl; [reflexivity|rewrite IH; reflexivity]. Qed.

Lemma unchunk_app (a b : string) : unchunk (a ++ b) = unchunk a ++ unchunk b.
Proof.
  induction a as [|c a IH]; simpl; [reflexivity|].
  destruct (Ascii.eqb c " "); simpl; rewrite IH; reflexivity.
Qed.

Lemma unchunk_no_space (s : string) : no_space (unchunk s).
Proof.
  unfold no_space. induction s as [|a s IH]; simpl; intros c Hc; [contradiction|].
  destruct (Ascii.eqb_spec a " ") as [->|Hne]; [apply IH; exact Hc|].
  simpl in Hc. destruct Hc as [<-|Hc]; [exact Hne|apply IH; exact Hc].
Qed.

Lemma unchunk_id (s : string) : no_space s -> unchunk s = s.
Proof.
  unfold no_space. induction s as [|a s IH]; simpl; intros Hs; [reflexivity|].
  destruct (Ascii.eqb_spec a " ") as [->|Hne].
  - exfalso. apply (Hs " "%char); [left; reflexivity|reflexivity].
  - f_equal. apply IH. intros c Hc. apply Hs. right. exact Hc.
Qed.

Lemma unchunk_chunks (n : nat) (s : string) :
  (0 < n)%nat -> unchunk (join_with " " (chunks n s)) = unchunk s.
Proof.
  intros Hn. funelim (chunks n s); simp chunks; try lia; try reflexivity.
  specialize (H Hn).
  transitivity (unchunk (take (S n) (String c rest)
                         ++ drop (S n) (String c rest)));
    [|rewrite take_drop; reflexivity].
  rewrite unchunk_app.
  destruct (chunks (S n) (drop (S n) (String c rest))) as [|g groups] eqn:Hgroups.
  - cbn [join_with]. cbn [join_with unchunk] in H. rewrite <- H.
    symmetry. apply append_empty_r.
  - change (join_with " " (take (S n) (String c rest) :: g :: groups))
      with (take (S n) (String c rest) ++ " " ++ join_with " " (g :: groups)).
    rewrite !unchunk_app, H. reflexivity.
Qed.

Lemma chunks_join (n : nat) (s : string) : (0 < n)%nat -> join (chunks n s) = s.
Proof.
  intros Hn. funelim (chunks n s); simp chunks; try lia; try reflexivity.
  cbn [join fold_right]. fold (join (chunks (S n) (drop (S n) (String c rest)))).
  rewrite (H Hn). apply take_drop.
Qed.

Lemma length_take (n : nat) (s : string) :
  String.length (take n s) = Nat.min n (String.length s).
Proof.
  revert s. induction n as [|n IH]; intros [|c s]; simpl; try reflexivity.
  rewrite IH. reflexivity.
Qed.

Lemma chunks_sizes (n : nat) (s : string) :
  Forall (fun g => (0 < String.length g <= n)%nat) (chunks n s).
Proof.
  funelim (chunks n s); simp chunks; constructor; [|exact H].
  rewrite length_take. cbn [String.length]. lia.
Qed.

(** X1: for a positive group length [chunk_string] succeeds; its groups
    are non-empty, no longer than the length, and concatenate to the
    text, so that the operator's copy of the printed groups, spaces and
    all, is read back by [unchunk] as the text itself whenever the text
    has no space of its own. *)
Theorem X1_chunk_string_unchunk_round_trip (text : string) (length : Z) :
  0 < length ->
  exists groups,
    chunk_string text length = Ok groups /\
    Forall (fun g => (0 < String.length g)%nat
                     /\ Z.of_nat (String.length g) <= length) groups /\
    join groups = text /\
    unchunk (join_with " " groups) = unchunk text /\
    (no_space text -> unchunk (join_with " " groups) = text).
Proof.
  intros Hlen. exists (chunks (Z.to_nat length) text).
  assert (Hn : (0 < Z.to_nat length)%nat) by lia.
  split; [|split; [|split; [|split]]].
  - unfold chunk_string.
    destruct (Z.eqb_spec length 0); [lia|].
    destruct (Z.ltb_spec length 0); [lia|]. reflexivity.
  - eapply Forall_impl; [|apply chunks_sizes]. cbv beta. intros g Hg. lia.
  - apply chunks_join. exact Hn.
  - apply unchunk_chunks. exact Hn.
  - intros Htext. rewrite unchunk_chunks by exact Hn. apply unchunk_id.
    exact Htext.
Qed.

Lemma X1_round_trip_witness :
  exists groups,
    chunk_string "0123456789abcdef01" 4 = Ok groups /\
    unchunk (join_with " " groups) = "0123456789abcdef01".
Proof.
  destruct (X1_chunk_string_unchunk_round_trip "0123456789abcdef01" 4
              ltac:(lia)) as (groups & Hgroups & _ & _ & _ & Hback).
  exists groups. split; [exact Hgroups|]. apply Hback.
  intros c Hc. simpl in Hc.
  repeat (destruct Hc as [<-|Hc]; [discriminate|]). contradiction.
Defined.

Lemma valid_die_faces (die : ascii) :
  valid_die die =
    existsb (Ascii.eqb die) ["1"; "2"; "3"; "4"; "5"; "6"]%char.
Proof. destruct die as [[] [] [] [] [] [] [] []]; reflexivity. Qed.

(** X2: on ASCII text, [validate_dice_seed] accepts a string exactly
    when it has at least [min_length] characters and each of them is one
    of the six faces 1 to 6; no other ASCII digit, sign or blank passes. *)
Theorem X2_validate_dice_seed_iff (dice : string) (min_length : Z) :
  ascii_text dice ->
  (validate_dice_seed dice min_length = true <->
   min_length <= Z.of_nat (String.length dice) /\
   forall die, In die (list_ascii_of_string dice) ->
     In die ["1"; "2"; "3"; "4"; "5"; "6"]%char).
Proof.
  intros _. unfold validate_dice_seed.
  assert (Hfaces : forallb valid_die (list_ascii_of_string dice) = true <->
            forall die, In die (list_ascii_of_string dice) ->
              In die ["1"; "2"; "3"; "4"; "5"; "6"]%char).
  { rewrite forallb_forall. split; intros H die Hdie.
    - specialize (H die Hdie). rewrite valid_die_faces in H.
      apply existsb_exists in H. destruct H as (face & Hface & Heq).
      apply Ascii.eqb_eq in Heq. subst face. exact Hface.
    - rewrite valid_die_faces. apply existsb_exists. exists die.
      split; [apply H; exact Hdie|apply Ascii.eqb_refl]. }
  destruct (Z.ltb_spec (Z.of_nat (String.length dice)) min_length) as [Hlt|Hge].
  - split; [discriminate|]. intros [Hlen _]. lia.
  - rewrite Hfaces. split; [intros H; split; [exact Hge|exact H]|intros [_ H]; exact H].
Qed.

Lemma X2_dice_seed_witness :
  validate_dice_seed "1662" 3 = true /\ validate_dice_seed "1072" 3 = false.
Proof.
  assert (Hascii : forall s,
            forallb (fun c => (N_of_ascii c <? 128)%N) (list_ascii_of_string s)
              = true -> ascii_text s).
  { intros s Hall c Hc. rewrite forallb_forall in Hall.
    apply N.ltb_lt. apply Hall. exact Hc. }
  split.
  - apply (X2_validate_dice_seed_iff "1662" 3 (Hascii "1662" eq_refl)).
    split; [cbn; lia|].
    intros die Hdie. cbn in Hdie.
    repeat (destruct Hdie as [<-|Hdie]; [cbn; tauto|]). contradiction.
  - apply not_true_is_false. intros Haccept.
    apply (X2_validate_dice_seed_iff "1072" 3 (Hascii "1072" eq_refl)) in Haccept.
    destruct Haccept as [_ Hfaces].
    specialize (Hfaces "0"%char). cbn in Hfaces.
    assert (Hzero : "1"%char = "0"%char \/ "2"%char = "0"%char \/
                    "3"%char = "0"%char \/ "4"%char = "0"%char \/
                    "5"%char = "0"%char \/ "6"%char = "0"%char \/ False)
      by (apply Hfaces; tauto).
    intuition discriminate.
Defined.

Lemma validate_rng_seed_cases (seed : string) (min_length : Z) :
  (Z.of_nat (String.length seed) < min_length ->
     validate_rng_seed seed min_length = false) /\
  (Nat.odd (String.length seed) = true ->
     validate_rng_seed seed min_length = false) /\
  (min_length <= Z.of_nat (String.length seed) ->
   Nat.even (String.length seed) = true -> is_hex_string seed = true ->
     validate_rng_seed seed min_length = true).
Proof.
  unfold validate_rng_seed.
  assert (Hmod : (Z.of_nat (String.length seed) mod 2 =? 0)
                 = Nat.even (String.length seed)).
  { destruct (Nat.even (String.length seed)) eqn:He.
    - apply Nat.even_spec in He. destruct He as [k Hk]. rewrite Hk.
      apply Z.eqb_eq. rewrite Nat2Z.inj_mul. change (Z.of_nat 2) with 2.
      rewrite Z.mul_comm. apply Z.mod_mul. lia.
    - assert (Ho : Nat.odd (String.length seed) = true)
        by (rewrite <- Nat.negb_even, He; reflexivity).
      apply Nat.odd_spec in Ho. destruct Ho as [k Hk]. rewrite Hk.
      apply Z.eqb_neq. rewrite Nat2Z.inj_add, Nat2Z.inj_mul.
      change (Z.of_nat 2) with 2. change (Z.of_nat 1) with 1.
      rewrite Z.add_comm, Z.mul_comm, Z.mod_add by lia. discriminate. }
  rewrite Hmod. split; [|split].
  - intros Hlt. destruct (Z.ltb_spec (Z.of_nat (String.length seed)) min_length);
      [reflexivity|lia].
  - intros Hodd. rewrite <- Nat.negb_odd, Hodd. cbn [negb].
    destruct (Z.of_nat (String.length seed) <? min_length); reflexivity.
  - intros Hlen Heven Hhex.
    destruct (Z.ltb_spec (Z.of_nat (String.length seed)) min_length); [lia|].
    rewrite Heven. cbn [negb].
    destruct (int16_hex seed Hhex) as [n ->]. reflexivity.
Qed.

(** X3: [validate_rng_seed] turns down every seed shorter than
    [min_length] and every seed of odd length, whatever it contains, and
    accepts every string of hex digits of even length at least
    [min_length]. *)
Theorem X3_validate_rng_seed_cases (seed : string) (min_length : Z) :
  (Z.of_nat (String.length seed) < min_length ->
     validate_rng_seed seed min_length = false) /\
  (Nat.odd (String.length seed) = true ->
     validate_rng_seed seed min_length = false) /\
  (min_length <= Z.of_nat (String.length seed) ->
   Nat.even (String.length seed) = true -> is_hex_string seed = true ->
     validate_rng_seed seed min_length = true).
Proof. exact (validate_rng_seed_cases seed min_length). Qed.

(** X4: [read_dice_seed_interactive] hands back the first line that,
    spaces removed, passes [validate_dice_seed]; the lines before it all
    fail, the lines after it are left unread, and when no line passes
    the input is used up and [input()] raises [EOFError]. *)
Theorem X4_read_dice_seed_first_valid (min_length : Z) (stdin : list string) :
  match read_dice_seed_interactive min_length stdin with
  | (Ok dice, rest) =>
      exists skipped line,
        stdin = (skipped ++ line :: rest)%list /\ dice = unchunk line /\
        validate_dice_seed dice min_length = true /\ no_space dice /\
        Forall (fun l => validate_dice_seed (unchunk l) min_length = false)
          skipped
  | (Raise e, rest) =>
      e = EOFError /\ rest = [] /\
      Forall (fun l => validate_dice_seed (unchunk l) min_length = false) stdin
  end.
Proof.
  induction stdin as [|line stdin IH]; cbn [read_dice_seed_interactive].
  - repeat split. constructor.
  - destruct (validate_dice_seed (unchunk line) min_length) eqn:Hline.
    + exists [], line. repeat split; try assumption.
      * apply unchunk_no_space.
      * constructor.
    + destruct (read_dice_seed_interactive min_length stdin) as [[dice|e] rest].
      * destruct IH as (skipped & l & -> & Hdice & Hvalid & Hspace & Hskipped).
        exists (line :: skipped), l. repeat split; try assumption.
        constructor; assumption.
      * destruct IH as (He & Hrest & Hall). repeat split; try assumption.
        constructor; assumption.
Qed.

(** X5: [read_rng_seed_interactive] asks for twice [min_length]
    characters: the seed it returns is the first line that, spaces
    removed, passes [validate_rng_seed] for that doubled length, so it
    has an even number of characters, at least [2 * min_length] of them;
    without such a line the input is used up and [EOFError] is raised. *)
Theorem X5_read_rng_seed_first_valid (min_length : Z) (stdin : list string) :
  match read_rng_seed_interactive min_length stdin with
  | (Ok seed, rest) =>
      exists skipped line,
        stdin = (skipped ++ line :: rest)%list /\ seed = unchunk line /\
        validate_rng_seed seed (min_length * 2) = true /\
        2 * min_length <= Z.of_nat (String.length seed) /\
        Nat.even (String.length seed) = true /\
        Forall (fun l => validate_rng_seed (unchunk l) (min_length * 2) = false)
          skipped
  | (Raise e, rest) =>
      e = EOFError /\ rest = [] /\
      Forall (fun l => validate_rng_seed (unchunk l) (min_length * 2) = false)
        stdin
  end.
Proof.
  unfold read_rng_seed_interactive.
  induction stdin as [|line stdin IH]; cbn [read_rng_seed_loop].
  - repeat split. constructor.
  - destruct (validate_rng_seed (unchunk line) (min_length * 2)) eqn:Hline.
    + exists [], line.
      pose proof (validate_rng_seed_cases (unchunk line) (min_length * 2))
        as (Hshort & Hodd & _).
      split; [reflexivity|]. split; [reflexivity|]. split; [exact Hline|].
      split; [|split; [|constructor]].
      * destruct (Z_lt_le_dec (Z.of_nat (String.length (unchunk line)))
                    (min_length * 2)) as [Hlt|Hge]; [|lia].
        rewrite (Hshort Hlt) in Hline. discriminate.
      * destruct (Nat.even (String.length (unchunk line))) eqn:He;
          [reflexivity|].
        rewrite Hodd in Hline; [discriminate|].
        rewrite <- Nat.negb_even, He. reflexivity.
    + destruct (read_rng_seed_loop (min_length * 2) stdin) as [[seed|e] rest].
      * destruct IH as (skipped & l & -> & Hseed & Hvalid & Hlen & Heven
                        & Hskipped).
        exists (line :: skipped), l. repeat split; try assumption.
        constructor; assumption.
      * destruct IH as (He & Hrest & Hall). repeat split; try assumption.
        constructor; assumption.
Qed.

Lemma upper_char_Y (c : ascii) :
  Ascii.eqb (upper_char c) "Y" = Ascii.eqb c "y" || Ascii.eqb c "Y".
Proof. destruct c as [[] [] [] [] [] [] [] []]; reflexivity. Qed.

Lemma upper_is_Y (answer : string) :
  String.eqb (upper answer) "Y" = true <-> answer = "y" \/ answer = "Y".
Proof.
  rewrite String.eqb_eq. destruct answer as [|c [|c' rest]]; cbn [upper].
  - split; [discriminate|intros [H|H]; discriminate].
  - split.
    + intros H. injection H as H. apply Ascii.eqb_eq in H.
      rewrite upper_char_Y in H. apply orb_true_iff in H.
      destruct H as [H|H]; apply Ascii.eqb_eq in H; subst c; auto.
    + intros [H|H]; injection H as ->; reflexivity.
  - split; [discriminate|intros [H|H]; discriminate].
Qed.

Lemma safety_checks_passed (checks : nat) :
  forall stdin rest,
    safety_checks checks stdin = (Ok tt, rest) <->
    exists answers,
      List.length answers = checks /\ stdin = (answers ++ rest)%list /\
      Forall (fun answer => answer = "y" \/ answer = "Y") answers.
Proof.
  induction checks as [|checks IH]; intros stdin rest; cbn [safety_checks].
  - split.
    + intros H. injection H as ->. exists []. repeat split. constructor.
    + intros (answers & Hlen & -> & _). destruct answers; [reflexivity|discriminate].
  - destruct stdin as [|answer stdin].
    + split; [discriminate|]. intros (answers & Hlen & Heq & _).
      destruct answers; discriminate.
    + destruct (String.eqb (upper answer) "Y") eqn:Hanswer; cbn [negb].
      * rewrite IH. apply upper_is_Y in Hanswer. split.
        -- intros (answers & Hlen & -> & Hall). exists (answer :: answers).
           repeat split; [simpl; lia|constructor; assumption].
        -- intros (answers & Hlen & Heq & Hall).
           destruct answers as [|a answers]; [discriminate|].
           injection Heq as <- ->. inversion Hall; subst.
           exists answers. repeat split; [simpl in Hlen; lia|assumption].
      * split; [discriminate|]. intros (answers & Hlen & Heq & Hall).
        destruct answers as [|a answers]; [discriminate|].
        injection Heq as <- ->. inversion Hall as [|? ? Ha ?]; subst.
        apply upper_is_Y in Ha. congruence.
Qed.

(** X6: [safety_checklist] lets the script go on exactly when the first
    six lines typed are each [y] or [Y], and then it has read just those
    six; and unless it does, [deposit_interactive] ends without a single
    request to the node. *)
Theorem X6_safety_checklist_gate (node : Node)
    (hash_sha256 b58encode_check_fromhex : string -> string)
    (wif_prefix : string) (splitext : string -> string * string)
    (zbarimg : string -> string -> string)
    (m n dice_seed_length rng_seed_length : Z) (p2wsh : bool)
    (stdin : list string) :
  (forall rest,
     safety_checklist stdin = (Ok tt, rest) <->
     exists answers,
       List.length answers = 6%nat /\ stdin = (answers ++ rest)%list /\
       Forall (fun answer => answer = "y" \/ answer = "Y") answers) /\
  ((exists rest, safety_checklist stdin = (Ok tt, rest)) \/
   exists e,
     deposit_interactive node hash_sha256 b58encode_check_fromhex wif_prefix
       splitext zbarimg m n dice_seed_length rng_seed_length p2wsh stdin
     = ([], Raise e)).
Proof.
  split.
  - intros rest. apply safety_checks_passed.
  - unfold deposit_interactive.
    destruct (safety_checklist stdin) as [[[]|e] rest].
    + left. exists rest. reflexivity.
    + right. exists e. reflexivity.
Qed.

(** ** Hexadecimal text and the combined key *)

Lemma int16_aux_app (s1 s2 : string) :
  forall acc,
    int16_aux (s1 ++ s2) acc =
      match int16_aux s1 acc with
      | Some v => int16_aux s2 v
      | None => None
      end.
Proof.
  induction s1 as [|c s1 IH]; intros acc; simpl; [reflexivity|].
  destruct (hex_digit c); [apply IH|reflexivity].
Qed.

Lemma hex_aux_app (fuel : nat) :
  forall n acc, hex_aux fuel n acc = hex_aux fuel n EmptyString ++ acc.
Proof.
  induction fuel as [|f IH]; intros n acc; cbn [hex_aux]; [reflexivity|].
  destruct (n <? 16); [reflexivity|].
  rewrite (IH (n / 16) (String _ acc)), (IH (n / 16) (String _ EmptyString)).
  rewrite append_assoc. reflexivity.
Qed.

Lemma hex_digit_hex_char (d : Z) :
  0 <= d < 16 -> hex_digit (hex_char d) = Some d.
Proof.
  intros Hd.
  assert (H : d = 0 \/ d = 1 \/ d = 2 \/ d = 3 \/ d = 4 \/ d = 5 \/ d = 6 \/
              d = 7 \/ d = 8 \/ d = 9 \/ d = 10 \/ d = 11 \/ d = 12 \/
              d = 13 \/ d = 14 \/ d = 15) by lia.
  repeat (destruct H as [->|H]; [reflexivity|]). subst d. reflexivity.
Qed.

(** Reading back what [hex_aux] wrote *)
Lemma int16_aux_hex_aux (fuel : nat) :
  forall n acc, 0 <= n < 2 ^ Z.of_nat fuel ->
    int16_aux (hex_aux fuel n EmptyString) acc =
      Some (acc * 16 ^ Z.of_nat (String.length (hex_aux fuel n EmptyString)) + n).
Proof.
  induction fuel as [|f IH]; intros n acc Hn.
  - change (2 ^ Z.of_nat 0) with 1 in Hn. cbn. f_equal. lia.
  - cbn [hex_aux].
    assert (Hmod : 0 <= n mod 16 < 16) by (apply Z.mod_pos_bound; lia).
    destruct (Z.ltb_spec n 16) as [Hlt|Hge].
    + cbn [int16_aux String.length]. rewrite Z.mod_small by lia.
      rewrite hex_digit_hex_char by lia. cbn [int16_aux].
      change (16 ^ Z.of_nat 1) with 16. f_equal. lia.
    + rewrite hex_aux_app, int16_aux_app.
      assert (Hdiv : 0 <= n / 16 < 2 ^ Z.of_nat f).
      { split; [apply Z.div_pos; lia|]. apply Z.div_lt_upper_bound; [lia|].
        rewrite Nat2Z.inj_succ, Z.pow_succ_r in Hn by lia. lia. }
      rewrite (IH (n / 16) acc Hdiv). cbn [int16_aux].
      rewrite hex_digit_hex_char by lia. cbn [int16_aux].
      rewrite length_append. cbn [String.length].
      rewrite Nat2Z.inj_add. change (Z.of_nat 1) with 1.
      rewrite Z.pow_add_r by lia. change (16 ^ 1) with 16.
      pose proof (Z.div_mod n 16 ltac:(lia)). f_equal. lia.
Qed.

Lemma int16_aux_zeros (k : nat) : int16_aux (zeros k) 0 = Some 0.
Proof.
  unfold zeros. induction k as [|k IH]; [reflexivity|].
  cbn [repeat string_of_list_ascii int16_aux].
  change (hex_digit "0") with (Some 0). cbn [int16_aux]. exact IH.
Qed.

Lemma format_x_nonempty (n : Z) : format_x n <> EmptyString.
Proof.
  unfold format_x. cbn [hex_aux]. destruct (n <? 16); [discriminate|].
  rewrite hex_aux_app. destruct (hex_aux _ _ EmptyString); discriminate.
Qed.

(** [int(..., 16)] reads back the number that ["{:0{}x}"] wrote, whatever
    the width *)
Lemma int16_format_0x (n : Z) (width : nat) :
  0 <= n -> int16 (format_0x n width) = Ok n.
Proof.
  intros Hn. unfold int16, format_0x.
  assert (Haux : int16_aux (zeros (width - String.length (format_x n))
                            ++ format_x n) 0 = Some n).
  { rewrite int16_aux_app, int16_aux_zeros. unfold format_x.
    rewrite int16_aux_hex_aux by (apply format_x_fuel; exact Hn).
    f_equal; lia. }
  rewrite Haux.
  destruct (zeros (width - String.length (format_x n)) ++ format_x n) eqn:Hs;
    [|reflexivity].
  exfalso. destruct (zeros (width - String.length (format_x n)));
    [|discriminate]. simpl in Hs. exact (format_x_nonempty n Hs).
Qed.

Lemma hex_aux_length (fuel : nat) :
  forall n k, 0 <= n < 16 ^ Z.of_nat k -> (1 <= k)%nat ->
    (String.length (hex_aux fuel n EmptyString) <= k)%nat.
Proof.
  induction fuel as [|f IH]; intros n k Hn Hk; cbn [hex_aux].
  - simpl. lia.
  - destruct (Z.ltb_spec n 16) as [Hlt|Hge]; [simpl; lia|].
    destruct k as [|[|k]]; [lia| |].
    + change (16 ^ Z.of_nat 1) with 16 in Hn. lia.
    + rewrite hex_aux_app, length_append. cbn [String.length].
      assert (Hdiv : 0 <= n / 16 < 16 ^ Z.of_nat (S k)).
      { split; [apply Z.div_pos; lia|]. apply Z.div_lt_upper_bound; [lia|].
        rewrite (Nat2Z.inj_succ (S k)), Z.pow_succ_r in Hn by lia. lia. }
      specialize (IH (n / 16) (S k) Hdiv ltac:(lia)). lia.
Qed.

Lemma int16_aux_bounds (s : string) :
  forall acc v, 0 <= acc -> int16_aux s acc = Some v ->
    acc * 16 ^ Z.of_nat (String.length s) <= v
      < (acc + 1) * 16 ^ Z.of_nat (String.length s).
Proof.
  induction s as [|c s IH]; intros acc v Hacc Hv; cbn [int16_aux] in Hv.
  - injection Hv as <-. cbn [String.length]. change (16 ^ Z.of_nat 0) with 1. lia.
  - destruct (hex_digit c) as [d|] eqn:Hd; [|discriminate].
    assert (Hrange : 0 <= d < 16).
    { unfold hex_digit in Hd.
      repeat match type of Hd with
             | (if ?b then _ else _) = _ => destruct b eqn:?
             end; try discriminate; injection Hd as <-; lia. }
    specialize (IH (16 * acc + d) v ltac:(lia) Hv).
    cbn [String.length]. rewrite Nat2Z.inj_succ, Z.pow_succ_r by lia.
    assert (0 < 16 ^ Z.of_nat (String.length s)) by (apply Z.pow_pos_nonneg; lia).
    nia.
Qed.

Lemma int16_aux_all_hex (s : string) :
  forall acc v, int16_aux s acc = Some v ->
    forallb is_hex_char (list_ascii_of_string s) = true.
Proof.
  induction s as [|c s IH]; intros acc v Hv; cbn [int16_aux] in Hv;
    [reflexivity|].
  cbn [list_ascii_of_string forallb]. unfold is_hex_char at 1.
  destruct (hex_digit c) as [d|]; [|discriminate]. cbn [andb].
  exact (IH _ _ Hv).
Qed.

Lemma lxor_below_pow2 (a b m : Z) :
  0 <= m -> 0 <= a < 2 ^ m -> 0 <= b < 2 ^ m -> 0 <= Z.lxor a b < 2 ^ m.
Proof.
  intros Hm Ha Hb.
  assert (Hnn : 0 <= Z.lxor a b) by (apply Z.lxor_nonneg; lia).
  split; [exact Hnn|].
  assert (m = 0 \/ 0 < m) as [->|Hpos] by lia.
  - change (2 ^ 0) with 1 in *. assert (a = 0) by lia. assert (b = 0) by lia.
    subst. reflexivity.
  - destruct (Z.eq_dec (Z.lxor a b) 0) as [->|Hnz];
      [apply Z.pow_pos_nonneg; lia|].
    apply Z.log2_lt_pow2; [lia|].
    pose proof (Z.log2_lxor a b ltac:(lia) ltac:(lia)) as Hlog.
    assert (Hla : Z.log2 a < m).
    { destruct (Z.eq_dec a 0) as [->|]; [simpl; lia|].
      apply Z.log2_lt_pow2; lia. }
    assert (Hlb : Z.log2 b < m).
    { destruct (Z.eq_dec b 0) as [->|]; [simpl; lia|].
      apply Z.log2_lt_pow2; lia. }
    lia.
Qed.

Lemma length_zeros (k : nat) : String.length (zeros k) = k.
Proof.
  unfold zeros. induction k as [|k IH]; simpl; [reflexivity|].
  rewrite IH. reflexivity.
Qed.

Lemma pow16_pow2 (k : nat) : 16 ^ Z.of_nat k = 2 ^ (4 * Z.of_nat k).
Proof.
  change 16 with (2 ^ 4). rewrite <- Z.pow_mul_r by lia. reflexivity.
Qed.

(** Written with [width] digits, a number below [16 ^ width] fills that
    width exactly. *)
Lemma format_0x_length (n : Z) (width : nat) :
  0 <= n < 16 ^ Z.of_nat width -> (1 <= width)%nat ->
  String.length (format_0x n width) = width.
Proof.
  intros Hn Hwidth. unfold format_0x. rewrite length_append, length_zeros.
  pose proof (hex_aux_length (S (Z.to_nat (Z.log2 n))) n width Hn Hwidth) as H.
  fold (format_x n) in H. lia.
Qed.

Lemma is_hex_string_length (s : string) :
  is_hex_string s = true -> (1 <= String.length s)%nat.
Proof. destruct s; [discriminate|]. simpl. lia. Qed.

Lemma int16_bounds (s : string) (v : Z) :
  int16 s = Ok v -> 0 <= v < 16 ^ Z.of_nat (String.length s).
Proof.
  unfold int16. intros Hv.
  destruct (int16_aux s 0) as [v'|] eqn:Haux; [|destruct s; discriminate].
  assert (v' = v) by (destruct s; [discriminate|injection Hv as ->; reflexivity]).
  subst v'. pose proof (int16_aux_bounds s 0 v ltac:(lia) Haux). lia.
Qed.

Lemma format_0x_is_hex (n : Z) (width : nat) :
  0 <= n -> is_hex_string (format_0x n width) = true.
Proof.
  intros Hn. pose proof (int16_format_0x n width Hn) as Hread.
  unfold int16 in Hread. unfold is_hex_string.
  destruct (format_0x n width) as [|c s] eqn:Hs; [discriminate|].
  cbn [String.eqb negb andb].
  destruct (int16_aux (String c s) 0) as [v|] eqn:Haux; [|discriminate].
  exact (int16_aux_all_hex _ _ _ Haux).
Qed.

Lemma xor_hex_strings_width (str1 str2 : string) :
  (String.length str1 <> String.length str2 ->
     xor_hex_strings str1 str2 =
       Raise (Exception "tried to xor strings of unequal length")) /\
  (String.length str1 = String.length str2 ->
   is_hex_string str1 = true -> is_hex_string str2 = true ->
   exists xored n1 n2,
     xor_hex_strings str1 str2 = Ok xored /\
     String.length xored = String.length str1 /\
     is_hex_string xored = true /\
     int16 str1 = Ok n1 /\ int16 str2 = Ok n2 /\
     int16 xored = Ok (Z.lxor n1 n2)).
Proof.
  split.
  - intros Hlen. unfold xor_hex_strings.
    destruct (Nat.eqb_spec (String.length str1) (String.length str2));
      [contradiction|reflexivity].
  - intros Hlen H1 H2.
    destruct (int16_hex str1 H1) as [n1 Hn1].
    destruct (int16_hex str2 H2) as [n2 Hn2].
    pose proof (int16_bounds _ _ Hn1) as Hb1.
    pose proof (int16_bounds _ _ Hn2) as Hb2.
    rewrite <- Hlen in Hb2. rewrite pow16_pow2 in Hb1, Hb2.
    pose proof (lxor_below_pow2 n1 n2 (4 * Z.of_nat (String.length str1))
                  ltac:(lia) Hb1 Hb2) as Hx.
    exists (format_0x (Z.lxor n1 n2) (String.length str1)), n1, n2.
    split; [|split; [|split; [|split; [|split]]]].
    + unfold xor_hex_strings. rewrite <- Hlen, Nat.eqb_refl, Hn1, Hn2.
      reflexivity.
    + apply format_0x_length; [rewrite pow16_pow2; exact Hx|].
      apply is_hex_string_length. exact H1.
    + apply format_0x_is_hex. lia.
    + exact Hn1.
    + exact Hn2.
    + apply int16_format_0x. lia.
Qed.

(** X7: when the two strings differ in length [xor_hex_strings] raises
    its own exception before it reads a digit.  For two strings of hex
    digits of equal length the result has that same length, consists of
    hex digits, and reads back as the XOR of the two numbers: leading
    zeros are kept, so the key never gets shorter than the digests. *)
Theorem X7_xor_hex_strings_width (str1 str2 : string) :
  (String.length str1 <> String.length str2 ->
     xor_hex_strings str1 str2 =
       Raise (Exception "tried to xor strings of unequal length")) /\
  (String.length str1 = String.length str2 ->
   is_hex_string str1 = true -> is_hex_string str2 = true ->
   exists xored n1 n2,
     xor_hex_strings str1 str2 = Ok xored /\
     String.length xored = String.length str1 /\
     is_hex_string xored = true /\
     int16 str1 = Ok n1 /\ int16 str2 = Ok n2 /\
     int16 xored = Ok (Z.lxor n1 n2)).
Proof. exact (xor_hex_strings_width str1 str2). Qed.

Lemma lower_hex_char_spec (c : ascii) :
  is_lower_hex_char c = true ->
  exists d, hex_digit c = Some d /\ c = hex_char d.
Proof.
  destruct c as [[] [] [] [] [] [] [] []]; intros H; try discriminate H;
    eexists; split; reflexivity.
Qed.

Lemma lower_hex_char_hex_char (d : Z) :
  0 <= d < 16 -> is_lower_hex_char (hex_char d) = true.
Proof.
  intros Hd.
  assert (H : d = 0 \/ d = 1 \/ d = 2 \/ d = 3 \/ d = 4 \/ d = 5 \/ d = 6 \/
              d = 7 \/ d = 8 \/ d = 9 \/ d = 10 \/ d = 11 \/ d = 12 \/
              d = 13 \/ d = 14 \/ d = 15) by lia.
  repeat (destruct H as [->|H]; [reflexivity|]). subst d. reflexivity.
Qed.

Lemma forallb_string_app (p : ascii -> bool) (s1 s2 : string) :
  forallb p (list_ascii_of_string (s1 ++ s2)) =
    forallb p (list_ascii_of_string s1) && forallb p (list_ascii_of_string s2).
Proof.
  induction s1 as [|c s1 IH]; simpl; [reflexivity|].
  rewrite IH, andb_assoc. reflexivity.
Qed.

Lemma hex_aux_lower (fuel : nat) :
  forall n, 0 <= n ->
    forallb is_lower_hex_char
      (list_ascii_of_string (hex_aux fuel n EmptyString)) = true.
Proof.
  induction fuel as [|f IH]; intros n Hn; cbn [hex_aux]; [reflexivity|].
  assert (Hmod : 0 <= n mod 16 < 16) by (apply Z.mod_pos_bound; lia).
  destruct (n <? 16).
  - cbn [list_ascii_of_string forallb].
    rewrite lower_hex_char_hex_char by exact Hmod. reflexivity.
  - rewrite hex_aux_app, forallb_string_app, IH by (apply Z.div_pos; lia).
    cbn [list_ascii_of_string forallb andb].
    rewrite lower_hex_char_hex_char by exact Hmod. reflexivity.
Qed.

Lemma zeros_lower (k : nat) :
  forallb is_lower_hex_char (list_ascii_of_string (zeros k)) = true.
Proof.
  unfold zeros. induction k as [|k IH]; [reflexivity|].
  cbn [repeat string_of_list_ascii list_ascii_of_string forallb].
  rewrite IH. reflexivity.
Qed.

Lemma format_0x_lower (n : Z) (width : nat) :
  0 <= n ->
  forallb is_lower_hex_char (list_ascii_of_string (format_0x n width)) = true.
Proof.
  intros Hn. unfold format_0x, format_x.
  rewrite forallb_string_app, zeros_lower, hex_aux_lower by exact Hn.
  reflexivity.
Qed.

(** Two lower-case hex strings of one length that denote the same number
    are the same string. *)
Lemma lower_hex_injective (s : string) :
  forall t acc v,
    String.length s = String.length t -> 0 <= acc ->
    forallb is_lower_hex_char (list_ascii_of_string s) = true ->
    forallb is_lower_hex_char (list_ascii_of_string t) = true ->
    int16_aux s acc = Some v -> int16_aux t acc = Some v -> s = t.
Proof.
  induction s as [|c s IH]; intros [|c' t] acc v Hlen Hacc Hs Ht Hvs Hvt;
    try discriminate; [reflexivity|].
  cbn [list_ascii_of_string forallb] in Hs, Ht.
  apply andb_true_iff in Hs. destruct Hs as [Hc Hs].
  apply andb_true_iff in Ht. destruct Ht as [Hc' Ht].
  destruct (lower_hex_char_spec c Hc) as (d & Hd & Hcd).
  destruct (lower_hex_char_spec c' Hc') as (d' & Hd' & Hcd').
  cbn [int16_aux] in Hvs, Hvt. rewrite Hd in Hvs. rewrite Hd' in Hvt.
  injection Hlen as Hlen.
  assert (Hrange : 0 <= d < 16 /\ 0 <= d' < 16).
  { split.
    - unfold hex_digit in Hd.
      repeat match type of Hd with
             | (if ?b then _ else _) = _ => destruct b eqn:?
             end; try discriminate; injection Hd as <-; lia.
    - unfold hex_digit in Hd'.
      repeat match type of Hd' with
             | (if ?b then _ else _) = _ => destruct b eqn:?
             end; try discriminate; injection Hd' as <-; lia. }
  pose proof (int16_aux_bounds s (16 * acc + d) v ltac:(lia) Hvs) as Hbs.
  pose proof (int16_aux_bounds t (16 * acc + d') v ltac:(lia) Hvt) as Hbt.
  rewrite <- Hlen in Hbt.
  assert (Hp : 0 < 16 ^ Z.of_nat (String.length s))
    by (apply Z.pow_pos_nonneg; lia).
  assert (d = d') by nia. subst d'.
  f_equal; [congruence|].
  apply (IH t (16 * acc + d) v); try assumption; lia.
Qed.

Lemma lower_hex_is_hex (s : string) :
  is_lower_hex_string s = true -> is_hex_string s = true.
Proof.
  unfold is_lower_hex_string, is_hex_string. intros H.
  apply andb_true_iff in H. destruct H as [Hne Hall]. rewrite Hne. cbn [andb].
  rewrite forallb_forall in *. intros c Hc. specialize (Hall c Hc).
  destruct (lower_hex_char_spec c Hall) as (d & Hd & _).
  unfold is_hex_char. rewrite Hd. reflexivity.
Qed.

(** The lower-case digits of a number, at the width of the string they
    were read from, are that string. *)
Lemma format_0x_int16 (s : string) (n : Z) :
  is_lower_hex_string s = true -> int16 s = Ok n ->
  format_0x n (String.length s) = s.
Proof.
  intros Hlower Hn.
  pose proof (int16_bounds s n Hn) as Hb.
  pose proof (lower_hex_is_hex s Hlower) as Hhex.
  pose proof (is_hex_string_length s Hhex) as Hlen.
  pose proof (int16_format_0x n (String.length s) ltac:(lia)) as Hread.
  unfold is_lower_hex_string in Hlower. apply andb_true_iff in Hlower.
  destruct Hlower as [_ Hlower].
  assert (Haux : forall x v, int16 x = Ok v -> int16_aux x 0 = Some v).
  { intros x v. unfold int16. destruct x; [discriminate|].
    destruct (int16_aux (String a x) 0); [|discriminate].
    intros H. injection H as ->. reflexivity. }
  apply (lower_hex_injective _ s 0 n).
  - apply format_0x_length; [exact Hb|exact Hlen].
  - lia.
  - apply format_0x_lower. lia.
  - exact Hlower.
  - apply Haux. exact Hread.
  - apply Haux. exact Hn.
Qed.

(** X8: combining the key with one of its two sources gives back the
    other: for a lower-case hex digest [A] and a hex string [B] of the
    same length, [xor_hex_strings (xor_hex_strings A B) B] is [A], digit
    for digit. *)
Theorem X8_xor_hex_strings_involution (A B : string) :
  is_lower_hex_string A = true -> is_hex_string B = true ->
  String.length A = String.length B ->
  exists key,
    xor_hex_strings A B = Ok key /\ xor_hex_strings key B = Ok A.
Proof.
  intros HA HB Hlen.
  pose proof (lower_hex_is_hex A HA) as HA'.
  destruct (xor_hex_strings_width A B) as [_ Hwidth].
  destruct (Hwidth Hlen HA' HB)
    as (key & a & b & Hkey & Hklen & Hkhex & Ha & Hb & Hk).
  exists key. split; [exact Hkey|].
  unfold xor_hex_strings.
  rewrite Hklen, Hlen, Nat.eqb_refl, Hk, Hb. cbn [negb bind].
  rewrite Z.lxor_assoc, Z.lxor_nilpotent, Z.lxor_0_r, <- Hlen.
  f_equal. apply format_0x_int16; assumption.
Qed.

Lemma X8_involution_witness :
  exists key,
    xor_hex_strings "00ff12" "0f0fab" = Ok key /\
    xor_hex_strings key "0f0fab" = Ok "00ff12".
Proof.
  apply (X8_xor_hex_strings_involution "00ff12" "0f0fab"); reflexivity.
Defined.

(** ** Starting the node *)

Lemma create_default_wallet_outcome (node : Node) :
  snd (create_default_wallet node)
    <> Raise (Exception "Timeout while starting bitcoin server") /\
  (snd (create_default_wallet node) = Ok tt <->
   exists loaded_wallets,
     node_listwallets node = Some loaded_wallets /\
     (In EmptyString loaded_wallets \/
      ~ In EmptyString loaded_wallets /\
      exists all_wallets,
        node_listwalletdir node = Some all_wallets /\
        (if existsb (fun w => String.eqb w EmptyString) all_wallets
         then node_loadwallet node else node_createwallet node)
        = Some EmptyString)).
Proof.
  assert (Hmember : forall l,
            existsb (String.eqb EmptyString) l = true <-> In EmptyString l).
  { intros l. rewrite existsb_exists. split.
    - intros (w & Hin & Heq). apply String.eqb_eq in Heq. subst w. exact Hin.
    - intros Hin. exists EmptyString. split; [exact Hin|reflexivity]. }
  unfold create_default_wallet.
  destruct (node_listwallets node) as [loaded_wallets|];
    cbn [bitcoin_cli_json mbind snd];
    [|split; [discriminate|split; [discriminate|intros (l & H & _); discriminate]]].
  destruct (existsb (String.eqb EmptyString) loaded_wallets) eqn:Hloaded.
  { cbn [ret snd]. split; [discriminate|]. split; [|reflexivity].
    intros _. exists loaded_wallets. split; [reflexivity|].
    left. apply Hmember. exact Hloaded. }
  assert (Hnot : ~ In EmptyString loaded_wallets).
  { intros Hin. apply Hmember in Hin. congruence. }
  destruct (node_listwalletdir node) as [all_wallets|]; cbn [mbind snd].
  2:{ split; [discriminate|]. split; [discriminate|].
      intros (l & Hl & [Hin|(_ & a & Ha & _)]).
      - injection Hl as <-. contradiction.
      - discriminate. }
  set (found := existsb (fun w => String.eqb w EmptyString) all_wallets).
  destruct (if found then node_loadwallet node else node_createwallet node)
    as [warning|] eqn:Hreply; cbn [mbind snd].
  2:{ split; [discriminate|]. split; [discriminate|].
      intros (l & Hl & [Hin|(_ & a & Ha & Hw)]).
      - injection Hl as <-. contradiction.
      - injection Ha as <-. fold found in Hw. congruence. }
  destruct warning as [|c warning]; cbn [String.length Nat.ltb Nat.leb raise ret snd].
  - split; [discriminate|]. split; [|reflexivity].
    intros _. exists loaded_wallets. split; [reflexivity|]. right.
    split; [exact Hnot|]. exists all_wallets. split; [reflexivity|exact Hreply].
  - split; [destruct found; discriminate|]. split; [discriminate|].
    intros (l & Hl & [Hin|(_ & a & Ha & Hw)]).
    + injection Hl as <-. contradiction.
    + injection Ha as <-. fold found in Hw. congruence.
Qed.

Lemma wait_for_bitcoind_none (node : Node) (answers : nat -> bool)
    (tries : nat) :
  forall times,
    (forall j, (j < tries)%nat -> answers (times + j)%nat = false) ->
    wait_for_bitcoind node answers times tries =
      (repeat getnetworkinfo tries,
       Raise (Exception "Timeout while starting bitcoin server")).
Proof.
  induction tries as [|tries IH]; intros times Hnone; cbn [wait_for_bitcoind].
  - reflexivity.
  - unfold bitcoin_cli_call. cbn [mbind].
    rewrite <- (Nat.add_0_r times) at 1. rewrite (Hnone 0%nat) by lia.
    rewrite IH; [reflexivity|].
    intros j Hj. replace (S times + j)%nat with (times + S j)%nat by lia.
    apply Hnone. lia.
Qed.

Lemma wait_for_bitcoind_first (node : Node) (answers : nat -> bool)
    (tries : nat) :
  forall times k,
    (k < tries)%nat -> answers (times + k)%nat = true ->
    (forall j, (j < k)%nat -> answers (times + j)%nat = false) ->
    wait_for_bitcoind node answers times tries =
      ((repeat getnetworkinfo (S k) ++ fst (create_default_wallet node))%list,
       snd (create_default_wallet node)).
Proof.
  induction tries as [|tries IH]; intros times k Hk Hyes Hno; [lia|].
  cbn [wait_for_bitcoind]. unfold bitcoin_cli_call. cbn [mbind].
  destruct k as [|k].
  - rewrite Nat.add_0_r in Hyes. rewrite Hyes.
    destruct (create_default_wallet node) as [log r]. reflexivity.
  - rewrite <- (Nat.add_0_r times) at 1. rewrite (Hno 0%nat) by lia.
    rewrite (IH (S times) k); [reflexivity|lia| |].
    + replace (S times + k)%nat with (times + S k)%nat by lia. exact Hyes.
    + intros j Hj. replace (S times + j)%nat with (times + S j)%nat by lia.
      apply Hno. lia.
Qed.

Lemma wait_for_bitcoind_timeout (node : Node) (answers : nat -> bool)
    (tries : nat) :
  forall times,
    snd (wait_for_bitcoind node answers times tries)
      = Raise (Exception "Timeout while starting bitcoin server") ->
    forall j, (j < tries)%nat -> answers (times + j)%nat = false.
Proof.
  induction tries as [|tries IH]; intros times Hout j Hj; [lia|].
  cbn [wait_for_bitcoind] in Hout. unfold bitcoin_cli_call in Hout.
  cbn [mbind] in Hout.
  destruct (answers times) eqn:Hanswer.
  - destruct (create_default_wallet_outcome node) as [Hnot _].
    destruct (create_default_wallet node) as [log r]. cbn [snd] in *.
    contradiction.
  - destruct (wait_for_bitcoind node answers (S times) tries) as [log r] eqn:Hw.
    cbn [snd] in Hout. destruct j as [|j].
    + rewrite Nat.add_0_r. exact Hanswer.
    + replace (times + S j)%nat with (S times + j)%nat by lia.
      apply IH; [|lia]. rewrite Hw. exact Hout.
Qed.

(** X9: [ensure_bitcoind_running] starts the daemon and polls it with
    [getnetworkinfo] up to 21 times.  It raises the timeout exception
    exactly when none of the 21 polls is answered, having then made these
    22 requests and no other; at the first poll answered it turns to the
    default wallet and ends as [create_default_wallet] does, which
    succeeds exactly when [listwallets] answers and either names the
    default wallet or [listwalletdir] answers and the [loadwallet] or
    [createwallet] that follows answers without a warning.  No call makes
    more than 25 requests. *)
Theorem X9_ensure_bitcoind_running_bounded (node : Node)
    (answers : nat -> bool) :
  let run := ensure_bitcoind_running_polled node answers in
  let timeout := Raise (Exception "Timeout while starting bitcoin server") in
  (List.length (fst run) <= 25)%nat /\
  (snd run = timeout <-> forall k, (k < 21)%nat -> answers k = false) /\
  (snd run = timeout ->
   fst run = bitcoind ["-daemon"; "-connect=0.0.0.0"]
             :: repeat getnetworkinfo 21) /\
  (forall k,
     (k < 21)%nat -> answers k = true ->
     (forall j, (j < k)%nat -> answers j = false) ->
     fst run = (bitcoind ["-daemon"; "-connect=0.0.0.0"]
                :: repeat getnetworkinfo (S k)
                ++ fst (create_default_wallet node))%list /\
     snd run = snd (create_default_wallet node)) /\
  (snd (create_default_wallet node) = Ok tt <->
   exists loaded_wallets,
     node_listwallets node = Some loaded_wallets /\
     (In EmptyString loaded_wallets \/
      ~ In EmptyString loaded_wallets /\
      exists all_wallets,
        node_listwalletdir node = Some all_wallets /\
        (if existsb (fun w => String.eqb w EmptyString) all_wallets
         then node_loadwallet node else node_createwallet node)
        = Some EmptyString)).
Proof.
  intros run timeout.
  assert (Hrun : run = ((bitcoind ["-daemon"; "-connect=0.0.0.0"]
                         :: fst (wait_for_bitcoind node answers 0 21))%list,
                        snd (wait_for_bitcoind node answers 0 21))).
  { unfold run, ensure_bitcoind_running_polled, bitcoin_cli_call.
    cbn [mbind]. destruct (wait_for_bitcoind node answers 0 21). reflexivity. }
  assert (Hall : snd run = timeout ->
                 forall k, (k < 21)%nat -> answers k = false).
  { rewrite Hrun. cbn [snd]. intros Hout k Hk.
    apply (wait_for_bitcoind_timeout node answers 21 0 Hout k Hk). }
  split; [apply ensure_bitcoind_running_polled_requests|].
  split; [split; [exact Hall|]|split; [|split]].
  - intros Hnone. rewrite Hrun.
    rewrite (wait_for_bitcoind_none node answers 21 0 Hnone). reflexivity.
  - intros Hout. rewrite Hrun.
    rewrite (wait_for_bitcoind_none node answers 21 0 (Hall Hout)). reflexivity.
  - intros k Hk Hyes Hno. rewrite Hrun.
    rewrite (wait_for_bitcoind_first node answers 21 0 k Hk Hyes Hno).
    split; reflexivity.
  - apply create_default_wallet_outcome.
Qed.

(** ** Inputs of the transaction *)

Lemma get_utxos_filter (tx : Tx) (address : string) :
  get_utxos tx address = filter (pays_to address) (tx_vout tx).
Proof. unfold get_utxos. rewrite get_utxos_loop. reflexivity. Qed.

Lemma pays_to_spec (address : string) (output : TxOut) :
  pays_to address output = true <->
  spk_address (out_scriptPubKey output) = Some address.
Proof.
  unfold pays_to. destruct (spk_address (out_scriptPubKey output)) as [a|].
  - rewrite String.eqb_eq. split; [intros ->; reflexivity|congruence].
  - split; discriminate.
Qed.

(** X10: every input that [create_unsigned_transaction] asks the node to
    spend is an output of one of the transactions supplied, named by that
    transaction's id and the output's index, whose address is the source
    address; and every such output is among the inputs. *)
Theorem X10_inputs_are_source_outputs (node : Node) (source_address : string)
    (destinations : odict pyval) (redeem_script : string)
    (input_txs : list Tx) (inputs : list TxIn) (outputs : odict pyval) :
  In (createrawtransaction inputs outputs)
     (fst (create_unsigned_transaction node source_address destinations
             redeem_script input_txs)) ->
  (forall input,
     In input inputs <->
     exists tx utxo,
       In tx input_txs /\ In utxo (tx_vout tx) /\
       spk_address (out_scriptPubKey utxo) = Some source_address /\
       input = {| in_txid := tx_txid tx; in_vout := out_n utxo |}) /\
  List.length inputs =
    list_sum (map (fun tx => List.length (get_utxos tx source_address))
                input_txs).
Proof.
  intros Hreq.
  apply create_unsigned_transaction_request in Hreq. destruct Hreq as [-> _].
  split.
  - intros input. rewrite in_flat_map. split.
    + intros (tx & Htx & Hin). apply in_map_iff in Hin.
      destruct Hin as (utxo & <- & Hutxo).
      rewrite get_utxos_filter in Hutxo. apply filter_In in Hutxo.
      destruct Hutxo as [Hvout Hpays]. apply pays_to_spec in Hpays.
      exists tx, utxo. repeat split; assumption.
    + intros (tx & utxo & Htx & Hvout & Haddr & ->).
      exists tx. split; [exact Htx|]. apply in_map_iff. exists utxo.
      split; [reflexivity|]. rewrite get_utxos_filter. apply filter_In.
      split; [exact Hvout|]. apply pays_to_spec. exact Haddr.
  - induction input_txs as [|tx txs IH]; [reflexivity|].
    cbn [flat_map map list_sum]. rewrite length_app, length_map, IH.
    reflexivity.
Qed.

Lemma X10_inputs_witness :
  In (createrawtransaction
        [{| in_txid := "ab12"; in_vout := 0 |};
         {| in_txid := "ab12"; in_vout := 3 |}]
        [("destination", PStr "1.09990000")])
     (fst (create_unsigned_transaction sample_node "source"
             [("source", PStr "0"); ("destination", PStr "1.09990000")]
             "redeem" [sample_tx])) /\
  List.length [{| in_txid := "ab12"; in_vout := 0 |};
               {| in_txid := "ab12"; in_vout := 3 |}] =
    list_sum (map (fun tx => List.length (get_utxos tx "source")) [sample_tx]).
Proof.
  assert (Hreq : In (createrawtransaction
        [{| in_txid := "ab12"; in_vout := 0 |};
         {| in_txid := "ab12"; in_vout := 3 |}]
        [("destination", PStr "1.09990000")])
     (fst (create_unsigned_transaction sample_node "source"
             [("source", PStr "0"); ("destination", PStr "1.09990000")]
             "redeem" [sample_tx]))).
  { vm_compute. do 3 right. left. reflexivity. }
  split; [exact Hreq|].
  exact (proj2 (X10_inputs_are_source_outputs _ _ _ _ _ _ _ Hreq)).
Defined.

Lemma map_flat_map {A B C : Type} (f : B -> C) (g : A -> list B) (l : list A) :
  map f (flat_map g l) = flat_map (fun a => map f (g a)) l.
Proof.
  induction l as [|a l IH]; [reflexivity|].
  cbn [flat_map]. rewrite map_app, IH. reflexivity.
Qed.

(** X11: the inputs described to the node for signing are the inputs of
    the unsigned transaction, one for one and in the same order (same
    transaction id and output index), each with the redeem script given
    and with the amount and locking script of the output it spends. *)
Theorem X11_signing_inputs_match (node : Node) (source_address : string)
    (destinations : odict pyval) (keys : list string)
    (redeem_script unsigned_hex : string) (input_txs : list Tx)
    (inputs : list TxIn) (outputs : odict pyval)
    (signed_hex : string) (signing_keys : list string)
    (signing_inputs : list SignIn) :
  In (createrawtransaction inputs outputs)
     (fst (create_unsigned_transaction node source_address destinations
             redeem_script input_txs)) ->
  In (signrawtransactionwithkey signed_hex signing_keys signing_inputs)
     (fst (sign_transaction node source_address keys redeem_script
             unsigned_hex input_txs)) ->
  map (fun i => {| in_txid := si_txid i; in_vout := si_vout i |})
      signing_inputs = inputs /\
  Forall (fun i => si_redeemScript i = redeem_script) signing_inputs /\
  (forall i, In i signing_inputs ->
     exists tx utxo,
       In tx input_txs /\ In utxo (get_utxos tx source_address) /\
       si_txid i = tx_txid tx /\ si_vout i = out_n utxo /\
       si_amount i = out_value utxo /\
       si_scriptPubKey i = spk_hex (out_scriptPubKey utxo)) /\
  signed_hex = unsigned_hex /\ signing_keys = keys.
Proof.
  intros Hcreate Hsign.
  apply create_unsigned_transaction_request in Hcreate.
  destruct Hcreate as [-> _].
  unfold sign_transaction, bitcoin_cli_json in Hsign. cbn [fst] in Hsign.
  destruct Hsign as [Hsign|[]]. injection Hsign as <- <- <-.
  split; [|split; [|split; [|split; reflexivity]]].
  - rewrite map_flat_map. apply flat_map_ext. intros tx.
    rewrite map_map. reflexivity.
  - apply Forall_forall. intros i Hi. apply in_flat_map in Hi.
    destruct Hi as (tx & _ & Hi). apply in_map_iff in Hi.
    destruct Hi as (utxo & <- & _). reflexivity.
  - intros i Hi. apply in_flat_map in Hi. destruct Hi as (tx & Htx & Hi).
    apply in_map_iff in Hi. destruct Hi as (utxo & <- & Hutxo).
    exists tx, utxo. repeat split; assumption.
Qed.

Lemma X11_signing_witness :
  map (fun i => {| in_txid := si_txid i; in_vout := si_vout i |})
    [{| si_txid := "ab12"; si_vout := 0; si_amount := Float.mk 1 (-1);
        si_scriptPubKey := "a914"; si_redeemScript := "redeem" |};
     {| si_txid := "ab12"; si_vout := 3; si_amount := Float.mk 1 0;
        si_scriptPubKey := "a914"; si_redeemScript := "redeem" |}]
  = [{| in_txid := "ab12"; in_vout := 0 |};
     {| in_txid := "ab12"; in_vout := 3 |}].
Proof.
  assert (Hcreate : In (createrawtransaction
        [{| in_txid := "ab12"; in_vout := 0 |};
         {| in_txid := "ab12"; in_vout := 3 |}]
        [("destination", PStr "1.09990000")])
     (fst (create_unsigned_transaction sample_node "source"
             [("source", PStr "0"); ("destination", PStr "1.09990000")]
             "redeem" [sample_tx]))).
  { vm_compute. do 3 right. left. reflexivity. }
  assert (Hsign : In (signrawtransactionwithkey "0200" ["key"]
        [{| si_txid := "ab12"; si_vout := 0; si_amount := Float.mk 1 (-1);
            si_scriptPubKey := "a914"; si_redeemScript := "redeem" |};
         {| si_txid := "ab12"; si_vout := 3; si_amount := Float.mk 1 0;
            si_scriptPubKey := "a914"; si_redeemScript := "redeem" |}])
     (fst (sign_transaction sample_node "source" ["key"] "redeem" "0200"
             [sample_tx]))).
  { vm_compute. left. reflexivity. }
  exact (proj1 (X11_signing_inputs_match _ _ _ _ _ _ _ _ _ _ _ _
                  Hcreate Hsign)).
Defined.

(** ** The fee the negotiation returns *)

Lemma satoshi_to_btc_quantized (satoshi : Z) (btc : Dec.t) :
  satoshi_to_btc satoshi = Ok btc ->
  Dec.expo btc = -8 /\ Z.abs (Dec.coef btc) < 10 ^ 28.
Proof.
  unfold satoshi_to_btc. intros H.
  destruct (Dec.div (Dec.of_int satoshi) (Dec.of_int 100000000)) as [value|e];
    [|discriminate].
  cbn [bind] in H. apply (quantize_satoshi value). exact H.
Qed.

Lemma get_fee_loop_bound (node : Node) (source_address : string)
    (keys : list string) (destinations : odict pyval) (redeem_script : string)
    (input_txs : list Tx) (rounds : list FeeRound) :
  forall fee,
    snd (get_fee_loop node source_address keys destinations redeem_script
           input_txs rounds) = Ok fee ->
    Dec.expo fee = -8 /\ Dec.coef fee <= 500000 /\
    exists unsigned_tx signed_tx size skipped round rest,
      snd (create_unsigned_transaction node source_address destinations
             redeem_script input_txs) = Ok unsigned_tx /\
      snd (sign_transaction node source_address keys redeem_script
             unsigned_tx input_txs) = Ok signed_tx /\
      node_vsize node (st_hex signed_tx) = Some size /\
      rounds = (skipped ++ round :: rest)%list /\
      fee_confirm round = true /\
      satoshi_to_btc (size * fee_rate round) = Ok fee /\
      Forall (fun r =>
                exists fee_r,
                  satoshi_to_btc (size * fee_rate r) = Ok fee_r /\
                  (500000 < Dec.coef fee_r \/ fee_confirm r = false))
        skipped.
Proof.
  induction rounds as [|round rest IH]; intros fee Hfee;
    cbn [get_fee_loop] in Hfee; [discriminate|].
  apply mbind_inv in Hfee. destruct Hfee as (unsigned_tx & Hunsigned & Hfee).
  apply mbind_inv in Hfee. destruct Hfee as (signed_tx & Hsigned & Hfee).
  apply mbind_inv in Hfee. destruct Hfee as (size & Hsize & Hfee).
  apply mbind_inv in Hfee. destruct Hfee as (fee0 & Hfee0 & Hfee).
  unfold lift in Hfee0. cbn [snd] in Hfee0.
  unfold bitcoin_cli_json in Hsize. cbn [snd] in Hsize.
  destruct (node_vsize node (st_hex signed_tx)) as [size'|] eqn:Hvsize;
    [|discriminate]. injection Hsize as ->.
  destruct (satoshi_to_btc_quantized _ _ Hfee0) as [Hexpo0 _].
  assert (Hhigh0 : Float.dec_gtb fee0 MAX_FEE = (500000 <? Dec.coef fee0)).
  { destruct fee0 as [c e]. cbn [Dec.expo Dec.coef] in *. subst e.
    unfold MAX_FEE. apply gt_005_sat. }
  assert (Hrest :
    (500000 < Dec.coef fee0 \/ fee_confirm round = false) ->
    snd (get_fee_loop node source_address keys destinations redeem_script
           input_txs rest) = Ok fee ->
    Dec.expo fee = -8 /\ Dec.coef fee <= 500000 /\
    exists unsigned_tx0 signed_tx0 size0 skipped round0 rest0,
      snd (create_unsigned_transaction node source_address destinations
             redeem_script input_txs) = Ok unsigned_tx0 /\
      snd (sign_transaction node source_address keys redeem_script
             unsigned_tx0 input_txs) = Ok signed_tx0 /\
      node_vsize node (st_hex signed_tx0) = Some size0 /\
      round :: rest = (skipped ++ round0 :: rest0)%list /\
      fee_confirm round0 = true /\
      satoshi_to_btc (size0 * fee_rate round0) = Ok fee /\
      Forall (fun r =>
                exists fee_r,
                  satoshi_to_btc (size0 * fee_rate r) = Ok fee_r /\
                  (500000 < Dec.coef fee_r \/ fee_confirm r = false))
        skipped).
  { intros Hskip H.
    destruct (IH fee H)
      as (He & Hc & unsigned_tx0 & signed_tx0 & size0 & skipped & round0
          & rest0 & Hu0 & Hs0 & Hv0 & Hsplit & Hconfirm0 & Hfee1 & Hall).
    assert (unsigned_tx0 = unsigned_tx) by congruence. subst unsigned_tx0.
    assert (signed_tx0 = signed_tx) by congruence. subst signed_tx0.
    assert (size0 = size) by congruence. subst size0.
    split; [exact He|]. split; [exact Hc|].
    exists unsigned_tx, signed_tx, size, (round :: skipped), round0, rest0.
    repeat (split; [assumption|]).
    split; [rewrite Hsplit; reflexivity|].
    repeat (split; [assumption|]).
    constructor; [|exact Hall].
    exists fee0. split; [exact Hfee0|exact Hskip]. }
  rewrite Hhigh0 in Hfee.
  destruct (Z.ltb_spec 500000 (Dec.coef fee0)) as [Hover|Hunder];
    [exact (Hrest (or_introl Hover) Hfee)|].
  destruct (fee_confirm round) eqn:Hconfirm;
    [|exact (Hrest (or_intror eq_refl) Hfee)].
  cbn [ret snd] in Hfee. injection Hfee as <-.
  split; [exact Hexpo0|]. split; [exact Hunder|].
  exists unsigned_tx, signed_tx, size, [], round, rest.
  repeat (split; [assumption || reflexivity|]). constructor.
Qed.

(** X12: whatever the operator types and whatever the node answers, a
    fee that [get_fee_interactive] returns is a whole number of satoshi
    and at most 500000 satoshi (0.005 BTC); it is the virtual size that
    the node decodes from the signed transaction times the rate of the
    first pass whose fee is within that limit and which the operator
    confirmed, every earlier pass being over the limit or turned down;
    nothing bounds the fee from below. *)
Theorem X12_returned_fee_is_capped (node : Node) (source_address : string)
    (keys : list string) (destinations : odict pyval) (redeem_script : string)
    (input_txs : list Tx) (rounds : list FeeRound) (fee : Dec.t) :
  snd (get_fee_interactive node source_address keys destinations redeem_script
         input_txs rounds) = Ok fee ->
  Dec.expo fee = -8 /\ Dec.coef fee <= 500000 /\
  exists unsigned_tx signed_tx size skipped round rest,
    snd (create_unsigned_transaction node source_address destinations
           redeem_script input_txs) = Ok unsigned_tx /\
    snd (sign_transaction node source_address keys redeem_script
           unsigned_tx input_txs) = Ok signed_tx /\
    node_vsize node (st_hex signed_tx) = Some size /\
    rounds = (skipped ++ round :: rest)%list /\
    fee_confirm round = true /\
    satoshi_to_btc (size * fee_rate round) = Ok fee /\
    Forall (fun r =>
              exists fee_r,
                satoshi_to_btc (size * fee_rate r) = Ok fee_r /\
                (500000 < Dec.coef fee_r \/ fee_confirm r = false))
      skipped.
Proof.
  unfold get_fee_interactive. intros Hfee.
  apply mbind_inv in Hfee. destruct Hfee as ([] & _ & Hfee).
  apply (get_fee_loop_bound _ _ _ _ _ _ _ _ Hfee).
Qed.

Lemma X12_capped_fee_witness :
  Dec.expo (Dec.mk 6000 (-8)) = -8 /\ Dec.coef (Dec.mk 6000 (-8)) <= 500000.
Proof.
  assert (Hfee : snd (get_fee_interactive sample_node "source" []
                        [("source", PInt 0); ("destination", PInt 0)] "redeem"
                        []
                        [{| fee_rate := 3000; fee_confirm := true |};
                         {| fee_rate := 30; fee_confirm := false |};
                         {| fee_rate := 30; fee_confirm := true |}])
                 = Ok (Dec.mk 6000 (-8)))
    by (vm_compute; reflexivity).
  destruct (X12_returned_fee_is_capped _ _ _ _ _ _ _ _ Hfee)
    as (Hexpo & Hcap & _).
  split; [exact Hexpo|exact Hcap].
Defined.

(** ** Writing and reading back QR codes *)

Lemma qr_split_sizes (all_upper_case : bool) (base ext : string) (idx : Z)
    (intdata : string) :
  Forall (fun w => (0 < String.length (snd w) <= MAX_QR_LEN all_upper_case)%nat)
    (qr_split all_upper_case base ext idx intdata).
Proof.
  funelim (qr_split all_upper_case base ext idx intdata); simp qr_split;
    constructor; [|exact H].
  cbn [snd]. rewrite length_take.
  pose proof (MAX_QR_LEN_pos all_upper_case). cbn [String.length]. lia.
Qed.

(** X13: [write_and_verify_qr_code] always writes at least one code, no
    code ever holds more than the threshold (4200 characters for data
    that upper-casing leaves unchanged, 2800 otherwise), and when the
    data is split no code is empty. *)
Theorem X13_qr_codes_fit (splitext : string -> string * string)
    (zbarimg : string -> string -> string) (name filename data : string) :
  let threshold :=
    if String.eqb (upper data) data then 4200%nat else 2800%nat in
  let written :=
    qr_written (write_and_verify_qr_code splitext zbarimg name filename data) in
  written <> [] /\
  Forall (fun w => (String.length (snd w) <= threshold)%nat) written /\
  ((threshold < String.length data)%nat ->
   Forall (fun w => (0 < String.length (snd w))%nat) written).
Proof.
  intros threshold written. subst written.
  unfold write_and_verify_qr_code.
  destruct (splitext filename) as [base ext]. cbn [qr_written].
  assert (Hmax : MAX_QR_LEN (String.eqb (upper data) data) = threshold).
  { unfold threshold, MAX_QR_LEN.
    destruct (String.eqb (upper data) data); reflexivity. }
  rewrite Hmax.
  pose proof (qr_split_sizes (String.eqb (upper data) data) base ext 1 data)
    as Hsizes.
  rewrite Hmax in Hsizes.
  destruct (Nat.leb_spec (String.length data) threshold) as [Hle|Hgt].
  - split; [discriminate|]. split; [|lia].
    constructor; [exact Hle|constructor].
  - split; [|split].
    + destruct data as [|c data]; [simpl in Hgt; lia|].
      simp qr_split. discriminate.
    + eapply Forall_impl; [|exact Hsizes]. cbv beta. intros w Hw. lia.
    + intros _. eapply Forall_impl; [|exact Hsizes]. cbv beta. intros w Hw. lia.
Qed.

Lemma append_cancel_l (p s t : string) : p ++ s = p ++ t -> s = t.
Proof.
  induction p as [|c p IH]; simpl; intros H; [exact H|].
  injection H as H. apply IH. exact H.
Qed.

Lemma append_cancel_r (e : string) :
  forall s t, s ++ e = t ++ e -> s = t.
Proof.
  assert (Hlen : forall s t, s ++ e = t ++ e ->
                   String.length s = String.length t).
  { intros s t H. apply (f_equal String.length) in H.
    rewrite !length_append in H. lia. }
  induction s as [|c s IH]; intros [|d t] H.
  - reflexivity.
  - apply Hlen in H. discriminate.
  - apply Hlen in H. discriminate.
  - simpl in H. injection H as -> H. f_equal. apply IH. exact H.
Qed.

Lemma qr_name_injective (base ext : string) (i j : Z) :
  0 <= i -> 0 <= j -> qr_name base ext i = qr_name base ext j -> i = j.
Proof.
  intros Hi Hj H. unfold qr_name in H.
  apply append_cancel_l in H. apply (append_cancel_l "-") in H.
  apply append_cancel_r in H.
  pose proof (int10_aux_format_02d i Hi) as Hri.
  pose proof (int10_aux_format_02d j Hj) as Hrj.
  rewrite H in Hri. congruence.
Qed.

Lemma NoDup_map_on {A B : Type} (f : A -> B) (l : list A) :
  (forall x y, In x l -> In y l -> f x = f y -> x = y) ->
  NoDup l -> NoDup (map f l).
Proof.
  induction l as [|a l IH]; intros Hinj Hnd; simpl; [constructor|].
  inversion Hnd as [|? ? Ha Hl]; subst. constructor.
  - intros Hin. apply in_map_iff in Hin. destruct Hin as (x & Heq & Hx).
    apply Ha. rewrite <- (Hinj x a); [exact Hx|right; exact Hx|left; reflexivity|exact Heq].
  - apply IH; [|exact Hl]. intros x y Hx Hy. apply Hinj; right; assumption.
Qed.

(** The codes of one split have pairwise different file names *)
Lemma qr_split_names_NoDup (all_upper_case : bool) (base ext : string)
    (idx : Z) (intdata : string) :
  0 <= idx ->
  NoDup (map fst (qr_split all_upper_case base ext idx intdata)).
Proof.
  intros Hidx. rewrite qr_split_names. apply NoDup_map_on; [|apply seq_NoDup].
  intros x y _ _ H. apply qr_name_injective in H; lia.
Qed.

Lemma file_content_written (written : list (string * string)) :
  NoDup (map fst written) ->
  forall f d, In (f, d) written -> file_content written f = d.
Proof.
  induction written as [|[f' d'] more IH]; intros Hnd f d Hin; [contradiction|].
  cbn [map fst] in Hnd. inversion Hnd as [|? ? Hfresh Hmore]; subst.
  cbn [file_content]. destruct Hin as [Heq|Hin].
  - injection Heq as -> ->.
    destruct (existsb (fun w => String.eqb (fst w) f) more) eqn:Hex.
    + exfalso. apply Hfresh. apply existsb_exists in Hex.
      destruct Hex as (w & Hw & Hf). apply String.eqb_eq in Hf. subst f.
      apply in_map. exact Hw.
    + rewrite String.eqb_refl. reflexivity.
  - replace (existsb (fun w => String.eqb (fst w) f) more) with true.
    + apply IH; assumption.
    + symmetry. apply existsb_exists. exists (f, d).
      split; [exact Hin|apply String.eqb_refl].
Qed.

Lemma rstrip_newline (s : string) :
  rstrip (s ++ String "010" EmptyString) = rstrip s.
Proof.
  induction s as [|c s IH]; [reflexivity|].
  cbn [append rstrip]. rewrite IH. reflexivity.
Qed.

Lemma strip_newline (s : string) :
  strip (s ++ String "010" EmptyString) = strip s.
Proof.
  unfold strip. induction s as [|c s IH]; [reflexivity|].
  cbn [append lstrip]. destruct (is_space c); [exact IH|].
  apply (rstrip_newline (String c s)).
Qed.

Lemma lstrip_shorter (s : string) :
  lstrip s = s \/ (String.length (lstrip s) < String.length s)%nat.
Proof.
  induction s as [|c s IH]; [left; reflexivity|].
  cbn [lstrip]. destruct (is_space c); [|left; reflexivity].
  right. cbn [String.length]. destruct IH as [->|IH]; lia.
Qed.

Lemma rstrip_shorter (s : string) :
  rstrip s = s \/ (String.length (rstrip s) < String.length s)%nat.
Proof.
  induction s as [|c s IH]; [left; reflexivity|].
  cbn [rstrip]. destruct (rstrip s) as [|c' r] eqn:Hr.
  - destruct (is_space c).
    + right. cbn [String.length]. lia.
    + destruct IH as [<-|IH]; [left; reflexivity|].
      right. cbn [String.length] in *. lia.
  - destruct IH as [<-|IH]; [left; reflexivity|].
    right. cbn [String.length] in *. lia.
Qed.

(** [strip] returns the string itself or a shorter one *)
Lemma strip_shorter (s : string) :
  strip s = s \/ (String.length (strip s) < String.length s)%nat.
Proof.
  unfold strip. destruct (lstrip_shorter s) as [->|Hl].
  - apply rstrip_shorter.
  - right. destruct (rstrip_shorter (lstrip s)) as [->|Hr]; lia.
Qed.

Lemma join_strip (chunks : list string) :
  join (map strip chunks) = join chunks <->
  Forall (fun chunk => strip chunk = chunk) chunks.
Proof.
  assert (Hlen : forall l,
            (String.length (join (map strip l)) <= String.length (join l))%nat).
  { induction l as [|c l IH]; [reflexivity|].
    cbn [map join fold_right]. fold (join (map strip l)). fold (join l).
    rewrite !length_append. destruct (strip_shorter c) as [->|Hc]; lia. }
  induction chunks as [|c chunks IH].
  - split; [constructor|reflexivity].
  - cbn [map join fold_right]. fold (join (map strip chunks)).
    fold (join chunks). split.
    + intros Heq. pose proof (f_equal String.length Heq) as Hl.
      rewrite !length_append in Hl. specialize (Hlen chunks).
      destruct (strip_shorter c) as [Hc|Hc]; [|lia].
      rewrite Hc in Heq. apply append_cancel_l in Heq.
      constructor; [exact Hc|apply IH; exact Heq].
    + intros Hall. inversion Hall as [|? ? Hc Hrest]; subst.
      rewrite Hc. f_equal. apply IH. exact Hrest.
Qed.

(** What the check reads back when the reader prints each code's
    content and a newline *)
Lemma decode_qr_honest (zbarimg : string -> string -> string)
    (written : list (string * string)) :
  NoDup (map fst written) ->
  (forall f d, In (f, d) written -> zbarimg f d = d ++ String "010" EmptyString) ->
  decode_qr zbarimg written (map fst written)
    = join (map strip (map snd written)).
Proof.
  intros Hnd Hhonest. unfold decode_qr. rewrite !map_map. f_equal.
  apply map_ext_in. intros [f d] Hin. cbn [fst snd]. unfold decode_one_qr.
  rewrite (file_content_written written Hnd f d Hin).
  rewrite (Hhonest f d Hin). apply strip_newline.
Qed.

(** X14: for ASCII data, when the reader prints the content of each
    code that was written, followed by a newline, the read-after-write
    check of [write_and_verify_qr_code] passes without the warning
    exactly when no code's content begins or ends with white space,
    which [strip] would remove; this holds for one code and for any
    number of split codes, whose file names never collide. *)
Theorem X14_qr_verification_passes (splitext : string -> string * string)
    (zbarimg : string -> string -> string) (name filename data : string) :
  ascii_text data ->
  (forall f d,
     In (f, d) (qr_written (write_and_verify_qr_code splitext zbarimg name
                              filename data)) ->
     zbarimg f d = d ++ String "010" EmptyString) ->
  NoDup (map fst (qr_written (write_and_verify_qr_code splitext zbarimg name
                                filename data))) /\
  (qr_warning (write_and_verify_qr_code splitext zbarimg name filename data)
     = false <->
   Forall (fun w => strip (snd w) = snd w)
     (qr_written (write_and_verify_qr_code splitext zbarimg name filename
                    data))).
Proof.
  unfold write_and_verify_qr_code.
  destruct (splitext filename) as [base ext]. cbn [qr_written qr_warning].
  set (written :=
         if (String.length data <=? MAX_QR_LEN (String.eqb (upper data) data))%nat
         then [(filename, data)]
         else qr_split (String.eqb (upper data) data) base ext 1 data).
  intros _ Hhonest.
  assert (Hnd : NoDup (map fst written)).
  { unfold written. destruct (_ <=? _)%nat.
    - repeat constructor. intros [].
    - apply qr_split_names_NoDup. lia. }
  assert (Hjoin : join (map snd written) = data).
  { unfold written. destruct (_ <=? _)%nat.
    - cbn. apply append_empty_r.
    - apply qr_split_join. }
  split; [exact Hnd|].
  rewrite (decode_qr_honest zbarimg written Hnd Hhonest).
  rewrite negb_false_iff, String.eqb_eq.
  rewrite <- Hjoin at 1. rewrite join_strip, Forall_map. reflexivity.
Qed.

Lemma X14_verification_witness :
  qr_warning (write_and_verify_qr_code sample_splitext sample_zbarimg
                "transaction" "transaction.png" "0200AB") = false.
Proof.
  apply (X14_qr_verification_passes sample_splitext sample_zbarimg
           "transaction" "transaction.png" "0200AB").
  - intros c Hc. cbn in Hc.
    repeat (destruct Hc as [<-|Hc]; [reflexivity|]). contradiction.
  - intros f d _. reflexivity.
  - repeat constructor.
Defined.

(** ** What the withdrawal asks the node to pay *)

Lemma exponent_not_zero (a b c w : string) : a ++ b ++ c ++ "E" ++ w <> "0".
Proof.
  change ("E" ++ w) with (String "E" w).
  rewrite <- !append_assoc. apply append_char_not_zero. discriminate.
Qed.

(** A decimal with places after the point is never printed as ["0"]:
    its text has a point or an exponent. *)
Lemma str_Decimal_not_zero (d : Dec.t) :
  Dec.expo d < 0 -> str_Decimal d <> "0".
Proof.
  intros He. unfold str_Decimal.
  set (sign := if Dec.coef d <? 0 then "-" else EmptyString).
  set (int_ := digits (Z.abs (Dec.coef d))).
  set (len := Z.of_nat (String.length int_)).
  destruct ((Dec.expo d <=? 0) && (-6 <? Dec.expo d + len)) eqn:Hplain.
  - destruct (Dec.expo d + len <=? 0).
    + apply point_not_zero.
    + replace (len <=? Dec.expo d + len) with false
        by (symmetry; apply Z.leb_gt; lia).
      apply point_not_zero.
  - assert (Hexp : (Dec.expo d + len =? 1) = false).
    { apply Z.eqb_neq. intros H1.
      apply andb_false_iff in Hplain. destruct Hplain as [H|H].
      - apply Z.leb_gt in H. lia.
      - apply Z.ltb_ge in H. lia. }
    rewrite Hexp. apply exponent_not_zero.
Qed.

Lemma withdraw_change_ok (i f w : Z) (entry : option Dec.t) :
  Z.abs i < 10 ^ 27 -> Z.abs f < 10 ^ 27 -> Z.abs w < 10 ^ 27 ->
  match entry with
  | None => w = i - f
  | Some typed => Dec.quantize typed SATOSHI_PLACES = Ok (Dec.mk w (-8))
  end ->
  f <= i -> f + w <= i ->
  withdraw_change (Dec.mk i (-8)) (Dec.mk f (-8)) entry =
    Ok (Dec.mk w (-8), Dec.mk (i - w - f) (-8)).
Proof.
  intros Hi Hf Hw Hentry Hfee Hsum.
  assert (H27 : 10 ^ 28 = 10 * 10 ^ 27) by reflexivity.
  unfold withdraw_change. rewrite gtb_sat.
  replace (i <? f) with false by (symmetry; apply Z.ltb_ge; lia).
  replace (match entry with
           | Some typed => Dec.quantize typed SATOSHI_PLACES
           | None => Ok (Dec.sub (Dec.mk i (-8)) (Dec.mk f (-8)))
           end) with (Ok (Dec.mk w (-8))).
  - cbn [bind]. rewrite add_exact by lia. rewrite gtb_sat.
    replace (i <? f + w) with false by (symmetry; apply Z.ltb_ge; lia).
    rewrite sub_exact by lia. rewrite sub_exact by lia. reflexivity.
  - destruct entry as [typed|]; [symmetry; exact Hentry|].
    subst w. rewrite sub_exact by lia. reflexivity.
Qed.

(** The plan that [withdraw_amounts] builds from a computed change *)
Lemma withdraw_amounts_plan (source_address dest_address : string)
    (i f w : Z) (entry : option Dec.t) :
  withdraw_change (Dec.mk i (-8)) (Dec.mk f (-8)) entry =
    Ok (Dec.mk w (-8), Dec.mk (i - w - f) (-8)) ->
  let change :=
    if i - w - f <=? 1 then NInt 0 else NDec (Dec.mk (i - w - f) (-8)) in
  withdraw_amounts source_address dest_address (Dec.mk i (-8)) (Dec.mk f (-8))
    entry =
    Ok {| input_amount := Dec.mk i (-8);
          fee := Dec.mk f (-8);
          withdrawal_amount := Dec.mk w (-8);
          change_amount := change;
          addresses :=
            od_set source_address (PStr (str change))
              (od_set dest_address (PStr (str_Decimal (Dec.mk w (-8))))
                 (od_set dest_address (PInt 0)
                    (od_set source_address (PInt 0) []))) |}.
Proof.
  intros Hchange change. unfold withdraw_amounts. rewrite Hchange.
  cbn [bind fst snd]. rewrite lt_1e_8_sat. reflexivity.
Qed.

Lemma str_change_zero (c : Z) :
  String.eqb (str (if c <=? 1 then NInt 0 else NDec (Dec.mk c (-8)))) "0"
    = (c <=? 1).
Proof.
  destruct (c <=? 1); [reflexivity|]. cbn [str].
  apply String.eqb_neq. apply str_Decimal_not_zero. cbn [Dec.expo]. lia.
Qed.

Lemma addresses_distinct (source_address dest_address : string)
    (change amount : pyval) :
  source_address <> dest_address ->
  od_set source_address change
    (od_set dest_address amount
       (od_set dest_address (PInt 0) (od_set source_address (PInt 0) [])))
  = [(source_address, change); (dest_address, amount)].
Proof.
  intros Hdiff.
  assert (Hds : String.eqb dest_address source_address = false)
    by (apply String.eqb_neq; congruence).
  repeat (cbn [od_set]; rewrite ?Hds, ?String.eqb_refl). reflexivity.
Qed.

Lemma addresses_same (address : string) (change amount : pyval) :
  od_set address change
    (od_set address amount
       (od_set address (PInt 0) (od_set address (PInt 0) [])))
  = [(address, change)].
Proof. repeat (cbn [od_set]; rewrite ?String.eqb_refl). reflexivity. Qed.

(** X15: for different source and destination addresses, and an amount
    that is left blank or typed without a minus sign, an accepted
    withdrawal asks the node for these outputs and no others: the change
    to the source address first, left out when the computed change is at
    most one satoshi, then the amount to the destination address, which
    is never left out, not even when it is zero. *)
Theorem X15_withdrawal_outputs (node : Node)
    (source_address dest_address redeem_script : string) (txs : list Tx)
    (keys : list string) (i f w : Z) (entry : option Dec.t)
    (inputs : list TxIn) (outputs : odict pyval) :
  source_address <> dest_address ->
  Z.abs i < 10 ^ 27 -> Z.abs f < 10 ^ 27 -> Z.abs w < 10 ^ 27 ->
  match entry with
  | None => w = i - f
  | Some typed =>
      0 <= Dec.coef typed /\
      Dec.quantize typed SATOSHI_PLACES = Ok (Dec.mk w (-8))
  end ->
  f <= i -> f + w <= i ->
  In (createrawtransaction inputs outputs)
     (fst (withdraw_finish node source_address dest_address redeem_script txs
             keys (Dec.mk i (-8)) (Dec.mk f (-8)) entry true)) ->
  outputs =
    if i - w - f <=? 1
    then [(dest_address, PStr (str_Decimal (Dec.mk w (-8))))]
    else [(source_address, PStr (str_Decimal (Dec.mk (i - w - f) (-8))));
          (dest_address, PStr (str_Decimal (Dec.mk w (-8))))].
Proof.
  intros Hdiff Hi Hf Hw Htyped Hfee Hsum Hreq.
  assert (Hentry : match entry with
                   | None => w = i - f
                   | Some typed =>
                       Dec.quantize typed SATOSHI_PLACES = Ok (Dec.mk w (-8))
                   end)
    by (destruct entry as [typed|]; [exact (proj2 Htyped)|exact Htyped]).
  pose proof (withdraw_change_ok i f w entry Hi Hf Hw Hentry Hfee Hsum)
    as Hchange.
  pose proof (withdraw_amounts_plan source_address dest_address i f w entry
                Hchange) as Hplan.
  cbv zeta in Hplan. unfold withdraw_finish in Hreq. rewrite Hplan in Hreq.
  cbn [lift mbind addresses] in Hreq.
  assert (Hds : String.eqb dest_address source_address = false)
    by (apply String.eqb_neq; congruence).
  rewrite (addresses_distinct source_address dest_address _ _ Hdiff) in Hreq.
  set (dests := [(source_address,
                  PStr (str (if i - w - f <=? 1 then NInt 0
                             else NDec (Dec.mk (i - w - f) (-8)))));
                 (dest_address, PStr (str_Decimal (Dec.mk w (-8))))]) in Hreq.
  assert (Hprune : prune_destinations dests =
            if i - w - f <=? 1
            then [(dest_address, PStr (str_Decimal (Dec.mk w (-8))))]
            else [(source_address,
                   PStr (str_Decimal (Dec.mk (i - w - f) (-8))));
                  (dest_address, PStr (str_Decimal (Dec.mk w (-8))))]).
  { unfold prune_destinations, dests. cbn [filter snd py_eqb].
    rewrite str_change_zero.
    replace (String.eqb (str_Decimal (Dec.mk w (-8))) "0") with false
      by (symmetry; apply String.eqb_neq; apply str_Decimal_not_zero;
          cbn [Dec.expo]; lia).
    destruct (i - w - f <=? 1); cbn [negb OrderedDict fold_left od_set fst snd].
    - reflexivity.
    - rewrite Hds. reflexivity. }
  assert (Hcreate : In (createrawtransaction inputs outputs)
            (fst (create_unsigned_transaction node source_address dests
                    redeem_script txs))).
  { destruct (create_unsigned_transaction node source_address dests
                redeem_script txs) as [log1 [unsigned_tx|e]];
      cbn [mbind fst snd app] in Hreq |- *; [|exact Hreq].
    unfold sign_transaction, bitcoin_cli_json in Hreq.
    destruct (node_sign node unsigned_tx keys _);
      cbn [mbind ret fst snd] in Hreq;
      rewrite !in_app_iff in Hreq; cbn [In] in Hreq;
      destruct Hreq as [Hreq|Hreq]; try exact Hreq;
      repeat (destruct Hreq as [Hreq|Hreq]; try discriminate Hreq);
      contradiction. }
  apply create_unsigned_transaction_request in Hcreate.
  destruct Hcreate as [_ ->]. exact Hprune.
Qed.

Lemma X15_withdraw_all_witness :
  [("source", PStr "0.99990000"); ("destination", PStr "0E-8")] =
    if 100000000 - 0 - 10000 <=? 1
    then [("destination", PStr (str_Decimal (Dec.mk 0 (-8))))]
    else [("source", PStr (str_Decimal (Dec.mk (100000000 - 0 - 10000) (-8))));
          ("destination", PStr (str_Decimal (Dec.mk 0 (-8))))].
Proof.
  assert (Hreq : In (createrawtransaction
                       [{| in_txid := "ab12"; in_vout := 0 |};
                        {| in_txid := "ab12"; in_vout := 3 |}]
                       [("source", PStr "0.99990000");
                        ("destination", PStr "0E-8")])
                   (fst (withdraw_finish sample_node "source" "destination"
                           "redeem" [sample_tx] ["key"]
                           (Dec.mk 100000000 (-8)) (Dec.mk 10000 (-8))
                           (Some (Dec.mk 0 0)) true))).
  { vm_compute. do 3 right. left. reflexivity. }
  apply (X15_withdrawal_outputs sample_node "source" "destination" "redeem"
           [sample_tx] ["key"] 100000000 10000 0 (Some (Dec.mk 0 0)) _ _
           ltac:(discriminate) eq_refl eq_refl eq_refl
           (conj (Z.le_refl 0) eq_refl)
           ltac:(lia) ltac:(lia) Hreq).
Defined.

(** X16: when the destination address typed is the source address
    itself, the dictionary has one entry and the change overwrites the
    amount: an accepted withdrawal then asks the node for the change as
    its only output, or for no output at all when the change is at most
    one satoshi; the amount typed is in no output. *)
Theorem X16_same_address_keeps_only_change (address : string) (i f w : Z)
    (entry : option Dec.t) :
  Z.abs i < 10 ^ 27 -> Z.abs f < 10 ^ 27 -> Z.abs w < 10 ^ 27 ->
  match entry with
  | None => w = i - f
  | Some typed => Dec.quantize typed SATOSHI_PLACES = Ok (Dec.mk w (-8))
  end ->
  f <= i -> f + w <= i ->
  exists plan,
    withdraw_amounts address address (Dec.mk i (-8)) (Dec.mk f (-8)) entry
      = Ok plan /\
    withdrawal_amount plan = Dec.mk w (-8) /\
    addresses plan = [(address, PStr (str (change_amount plan)))] /\
    prune_destinations (addresses plan) =
      if i - w - f <=? 1 then []
      else [(address, PStr (str_Decimal (Dec.mk (i - w - f) (-8))))].
Proof.
  intros Hi Hf Hw Hentry Hfee Hsum.
  pose proof (withdraw_change_ok i f w entry Hi Hf Hw Hentry Hfee Hsum)
    as Hchange.
  pose proof (withdraw_amounts_plan address address i f w entry Hchange)
    as Hplan.
  cbv zeta in Hplan. rewrite addresses_same in Hplan.
  eexists. split; [exact Hplan|]. cbn [withdrawal_amount addresses change_amount].
  split; [reflexivity|]. split; [reflexivity|].
  unfold prune_destinations. cbn [filter snd py_eqb].
  rewrite str_change_zero. destruct (i - w - f <=? 1); reflexivity.
Qed.

Lemma X16_same_address_witness :
  exists plan,
    withdraw_amounts "source" "source" (Dec.mk 100000000 (-8))
      (Dec.mk 10000 (-8)) (Some (Dec.mk 5 (-1))) = Ok plan /\
    prune_destinations (addresses plan) = [("source", PStr "0.49990000")].
Proof.
  destruct (X16_same_address_keeps_only_change "source" 100000000 10000
              50000000 (Some (Dec.mk 5 (-1))) eq_refl eq_refl eq_refl eq_refl
              ltac:(lia) ltac:(lia)) as (plan & Hplan & _ & _ & Hpruned).
  exists plan. split; [exact Hplan|exact Hpruned].
Defined.

(** X17: an accepted plan accounts for every satoshi of the inputs,
    amount plus change plus fee, unless the computed change is exactly
    one satoshi, in which case it accounts for one satoshi less. *)
Theorem X17_plan_conservation (source_address dest_address : string)
    (i f w : Z) (entry : option Dec.t) :
  Z.abs i < 10 ^ 19 -> Z.abs f < 10 ^ 19 -> Z.abs w < 10 ^ 19 ->
  match entry with
  | None => w = i - f
  | Some typed => Dec.quantize typed SATOSHI_PLACES = Ok (Dec.mk w (-8))
  end ->
  f <= i -> f + w <= i ->
  exists plan,
    withdraw_amounts source_address dest_address (Dec.mk i (-8))
      (Dec.mk f (-8)) entry = Ok plan /\
    btc_to_satoshi (input_amount plan) = i /\
    outputs_plus_fee plan = (if i - w - f =? 1 then i - 1 else i) /\
    (i - w - f <> 1 -> conserves_value plan).
Proof.
  intros Hi Hf Hw Hentry Hfee Hsum.
  assert (H27 : 10 ^ 27 = 100000000 * 10 ^ 19) by reflexivity.
  assert (H20 : 10 ^ 20 = 10 * 10 ^ 19) by reflexivity.
  pose proof (withdraw_change_ok i f w entry ltac:(lia) ltac:(lia) ltac:(lia)
                Hentry Hfee Hsum) as Hchange.
  pose proof (withdraw_amounts_plan source_address dest_address i f w entry
                Hchange) as Hplan.
  cbv zeta in Hplan. eexists. split; [exact Hplan|].
  unfold conserves_value, outputs_plus_fee.
  cbn [input_amount fee withdrawal_amount change_amount].
  rewrite !btc_to_satoshi_exact by lia.
  assert (Hsum' : w + number_to_satoshi
                        (if i - w - f <=? 1 then NInt 0
                         else NDec (Dec.mk (i - w - f) (-8))) + f
                  = if i - w - f =? 1 then i - 1 else i).
  { destruct (Z.leb_spec (i - w - f) 1) as [Hle|Hgt]; cbn [number_to_satoshi].
    - destruct (Z.eqb_spec (i - w - f) 1); lia.
    - rewrite btc_to_satoshi_exact by lia.
      destruct (Z.eqb_spec (i - w - f) 1); lia. }
  split; [reflexivity|]. split; [exact Hsum'|].
  intros Hone. rewrite Hsum'.
  destruct (Z.eqb_spec (i - w - f) 1); [contradiction|reflexivity].
Qed.

Lemma X17_conservation_witness :
  exists plan,
    withdraw_amounts "source" "destination" (Dec.mk 100000000 (-8))
      (Dec.mk 10000 (-8)) (Some (Dec.mk 5 (-1))) = Ok plan /\
    conserves_value plan.
Proof.
  destruct (X17_plan_conservation "source" "destination" 100000000 10000
              50000000 (Some (Dec.mk 5 (-1))) eq_refl eq_refl eq_refl eq_refl
              ltac:(lia) ltac:(lia)) as (plan & Hplan & _ & _ & Hconserve).
  exists plan. split; [exact Hplan|]. apply Hconserve. lia.
Defined.

(** ** Conversions in both directions *)

(** X18: [satoshi_to_btc] succeeds on every int of up to 20 digits,
    negative ones included, and returns the amount with exactly eight
    decimal places; and such an amount converted to satoshi and back is
    the same decimal, places and all. *)
Theorem X18_conversions_exact (s : Z) :
  Z.abs s < 10 ^ 20 ->
  satoshi_to_btc s = Ok (Dec.mk s (-8)) /\
  satoshi_to_btc (btc_to_satoshi (Dec.mk s (-8))) = Ok (Dec.mk s (-8)).
Proof.
  intros Hs.
  assert (H28 : 10 ^ 28 = 100000000 * 10 ^ 20) by reflexivity.
  assert (Hconv : satoshi_to_btc s = Ok (Dec.mk s (-8)))
    by (apply satoshi_to_btc_exact; lia).
  split; [exact Hconv|].
  rewrite btc_to_satoshi_exact by exact Hs. exact Hconv.
Qed.

Lemma X18_conversions_witness :
  satoshi_to_btc (-15) = Ok (Dec.mk (-15) (-8)) /\
  satoshi_to_btc (btc_to_satoshi (Dec.mk (-15) (-8))) = Ok (Dec.mk (-15) (-8)).
Proof.
  destruct (X18_conversions_exact (-15) eq_refl) as (H1 & H2).
  split; [exact H1|exact H2].
Defined.

(** ** Keys handed to the node *)

Lemma In_mbind {A B : Type} (m : M A) (k : A -> M B) (req : request) :
  In req (fst (mbind m k)) ->
  In req (fst m) \/ exists a, snd m = Ok a /\ In req (fst (k a)).
Proof.
  destruct m as [l [a|e]]; cbn [mbind fst snd].
  - destruct (k a) as [l' r] eqn:Hk. cbn [fst]. rewrite in_app_iff.
    intros [H|H]; [left; exact H|].
    right. exists a. rewrite Hk. split; [reflexivity|exact H].
  - intros H. left. exact H.
Qed.

Lemma ensure_bitcoind_running_no_import (node : Node) (req : request) :
  In req (fst (ensure_bitcoind_running node)) -> not_importprivkey req.
Proof.
  destruct (ensure_bitcoind_running_polled_requests node
              (fun _ => node_up node)) as [Hall _].
  unfold ensure_bitcoind_running. rewrite forallb_forall in Hall.
  intros Hin. specialize (Hall req Hin). destruct req; try exact I.
  discriminate Hall.
Qed.

Lemma get_address_import (node : Node) (hash_sha256 : string -> string)
    (privkey key label : string) :
  In (importprivkey key label)
     (fst (get_address_for_wif_privkey node hash_sha256 privkey)) ->
  key = privkey /\ label = hash_sha256 privkey.
Proof.
  unfold get_address_for_wif_privkey. intros Hreq.
  apply In_mbind in Hreq as [Hreq|(_ & _ & Hreq)];
    [destruct (ensure_bitcoind_running_no_import _ _ Hreq)|].
  apply In_mbind in Hreq as [Hreq|(_ & _ & Hreq)].
  - destruct Hreq as [Hreq|[]]. injection Hreq as Hkey Hlabel.
    split; congruence.
  - apply In_mbind in Hreq as [Hreq|(addresses & _ & Hreq)].
    + destruct Hreq as [Hreq|[]]. discriminate Hreq.
    + destruct addresses; destruct Hreq.
Qed.

Lemma mapM_get_address_import (node : Node) (hash_sha256 : string -> string)
    (keys : list string) (key label : string) :
  In (importprivkey key label)
     (fst (mapM (get_address_for_wif_privkey node hash_sha256) keys)) ->
  In key keys /\ label = hash_sha256 key.
Proof.
  induction keys as [|k keys IH]; cbn [mapM]; [intros []|].
  intros Hreq.
  apply In_mbind in Hreq as [Hreq|(b & _ & Hreq)].
  - apply get_address_import in Hreq as [-> ->].
    split; [left; reflexivity|reflexivity].
  - apply In_mbind in Hreq as [Hreq|(bs & _ & [])].
    destruct (IH Hreq) as [Hin ->]. split; [right; exact Hin|reflexivity].
Qed.

(** X19: [deposit_interactive] imports into the node only keys it has
    derived itself, each under the label that is the hash of the key, and
    not before the operator has passed the checklist and all [n] keys
    have been derived from the entropy typed. *)
Theorem X19_only_derived_keys_are_imported (node : Node)
    (hash_sha256 b58encode_check_fromhex : string -> string)
    (wif_prefix : string) (splitext : string -> string * string)
    (zbarimg : string -> string -> string)
    (m n dice_seed_length rng_seed_length : Z) (p2wsh : bool)
    (stdin : list string) (key label : string) :
  In (importprivkey key label)
     (fst (deposit_interactive node hash_sha256 b58encode_check_fromhex
             wif_prefix splitext zbarimg m n dice_seed_length rng_seed_length
             p2wsh stdin)) ->
  exists stdin' keys,
    safety_checklist stdin = (Ok tt, stdin') /\
    fst (deposit_keys hash_sha256 b58encode_check_fromhex wif_prefix
           (Z.to_nat n) [] dice_seed_length rng_seed_length stdin') = Ok keys /\
    List.length keys = Z.to_nat n /\
    In key keys /\ label = hash_sha256 key.
Proof.
  unfold deposit_interactive. intros Hreq.
  destruct (safety_checklist stdin) as [[[]|e] stdin']; [|destruct Hreq].
  exists stdin'.
  apply In_mbind in Hreq as [Hreq|(_ & _ & Hreq)];
    [destruct (ensure_bitcoind_running_no_import _ _ Hreq)|].
  apply In_mbind in Hreq as [Hreq|(_ & _ & Hreq)].
  { unfold require_minimum_bitcoind_version in Hreq.
    apply In_mbind in Hreq as [Hreq|(version & _ & Hreq)].
    - destruct Hreq as [Hreq|[]]. discriminate Hreq.
    - destruct (version <? 220000); destruct Hreq. }
  apply In_mbind in Hreq as [[]|(keys & Hkeys & Hreq)].
  cbn [lift snd] in Hkeys. exists keys.
  split; [reflexivity|]. split; [exact Hkeys|].
  split; [exact (deposit_keys_length _ _ _ _ _ _ _ _ _ Hkeys)|].
  apply In_mbind in Hreq as [Hreq|(addresses & _ & Hreq)].
  - exact (mapM_get_address_import _ _ _ _ _ Hreq).
  - exfalso. apply In_mbind in Hreq as [Hreq|(results & _ & [])].
    destruct Hreq as [Hreq|[]]. discriminate Hreq.
Qed.

Lemma X19_imported_keys_witness :
  exists keys, List.length keys = 2%nat /\ In (hd EmptyString sample_keys) keys.
Proof.
  assert (Hreq : In (importprivkey (hd EmptyString sample_keys)
                       (sample_sha256 (hd EmptyString sample_keys)))
                    (fst (sample_deposit 1 2))).
  { vm_compute. repeat first [left; reflexivity | right]. }
  destruct (X19_only_derived_keys_are_imported sample_node sample_sha256
              sample_b58 "80" sample_splitext sample_zbarimg 1 2 62 20 false
              sample_stdin _ _ Hreq)
    as (stdin' & keys & _ & _ & Hlen & Hin & _).
  exists keys. split; [exact Hlen|exact Hin].
Defined.

(** ** The total of the outputs spent *)

(** [round_half_even] returns the whole number nearest to the quotient *)
Lemma round_half_even_nearest (n j k : Z) :
  0 <= j -> 0 <= n ->
  2 * Z.abs (n - k * 10 ^ j) < 10 ^ j ->
  Dec.round_half_even n j = k.
Proof.
  intros Hj Hn Hnear. unfold Dec.round_half_even. cbv zeta.
  assert (HD : 0 < 10 ^ j) by (apply Z.pow_pos_nonneg; lia).
  set (D := 10 ^ j) in *.
  destruct (Z_le_gt_dec (k * D) n) as [Hle|Hgt].
  - assert (Hq : n / D = k)
      by (symmetry; apply (Z.div_unique n D k (n - k * D)); lia).
    assert (Hr : n mod D = n - k * D)
      by (symmetry; apply (Z.mod_unique n D k (n - k * D)); lia).
    rewrite Hq, Hr. destruct (Z.ltb_spec (2 * (n - k * D)) D); lia.
  - assert (Hq : n / D = k - 1)
      by (symmetry; apply (Z.div_unique n D (k - 1) (n - (k - 1) * D)); lia).
    assert (Hr : n mod D = n - (k - 1) * D)
      by (symmetry; apply (Z.mod_unique n D (k - 1) (n - (k - 1) * D)); lia).
    rewrite Hq, Hr.
    destruct (Z.ltb_spec (2 * (n - (k - 1) * D)) D); [lia|].
    destruct (Z.ltb_spec D (2 * (n - (k - 1) * D))); lia.
Qed.

Lemma rescale_nearest (c j k : Z) :
  0 <= j -> c <> 0 ->
  2 * Z.abs (c - k * 10 ^ j) < 10 ^ j ->
  Z.sgn c * Dec.round_half_even (Z.abs c) j = k.
Proof.
  intros Hj Hc Hnear.
  destruct (Z.lt_total c 0) as [Hneg|[Hz|Hpos]]; [|contradiction|].
  - rewrite (Z.sgn_neg c Hneg), (Z.abs_neq c) by lia.
    rewrite (round_half_even_nearest (- c) j (- k)); lia.
  - rewrite (Z.sgn_pos c Hpos), (Z.abs_eq c) by lia.
    rewrite (round_half_even_nearest c j k); lia.
Qed.

Lemma pow10_two_five (b : Z) : 0 <= b -> 10 ^ b = 2 ^ b * 5 ^ b.
Proof. intros Hb. change 10 with (2 * 5). apply Z.pow_mul_l. Qed.

(** A double strictly within half a satoshi of [k] satoshi is quantized
    to [k] satoshi exactly *)
Lemma quantize_float_nearest (f : Float.t) (k : Z) :
  Z.abs k < 10 ^ 28 ->
  Float.dec_ltb (Dec.mk (10 * k - 5) (-9)) f = true ->
  Float.dec_gtb (Dec.mk (10 * k + 5) (-9)) f = true ->
  Dec.quantize (Float.to_dec f) SATOSHI_PLACES = Ok (Dec.mk k (-8)).
Proof.
  intros Hk Hlo Hhi. destruct f as [mant bexp].
  unfold Float.dec_ltb, Float.dec_gtb, Float.compare_dec in Hlo, Hhi.
  cbn [Dec.coef Dec.expo Float.mant Float.bexp] in Hlo, Hhi.
  change (Z.min (-9) 0) with (-9) in Hlo, Hhi.
  change (Z.max (-9) 0) with 0 in Hlo, Hhi.
  change (10 ^ 0) with 1 in Hlo, Hhi. change (10 ^ (- -9)) with 1000000000 in Hlo, Hhi.
  rewrite Z.mul_1_r in Hlo, Hhi.
  match type of Hlo with
  | context [?a ?= ?b] => destruct (Z.compare_spec a b) as [|Hlow|]; try discriminate Hlo
  end.
  match type of Hhi with
  | context [?a ?= ?b] => destruct (Z.compare_spec a b) as [| |Hhigh]; try discriminate Hhi
  end.
  clear Hlo Hhi.
  assert (H28 : 10 ^ 28 = 10000000000000000000000000000) by reflexivity.
  unfold Float.to_dec, Dec.quantize, SATOSHI_PLACES.
  cbn [Float.mant Float.bexp Dec.coef Dec.expo].
  destruct (Z.leb_spec 0 bexp) as [Hb|Hb].
  - (* a whole number *)
    rewrite Z.min_r, Z.max_l in Hlow, Hhigh by lia.
    change (2 ^ (- 0)) with 1 in Hlow, Hhigh.
    set (M := mant * 2 ^ bexp) in *.
    assert (Hkm : k = M * 100000000) by lia.
    cbn [Dec.coef Dec.expo].
    destruct (Z.eqb_spec M 0) as [Hz|Hnz].
    + rewrite Hkm, Hz. reflexivity.
    + unfold Dec.adjusted, Dec.rescale. cbn [Dec.coef Dec.expo].
      assert (Hlen : Dec.ndigits (Z.abs M) <= 20)
        by (apply ndigits_le; [lia|lia|change (10 ^ 20) with 100000000000000000000; lia]).
      destruct (Z.ltb_spec Dec.prec (0 + Dec.ndigits (Z.abs M) - 1 - -8 + 1));
        [unfold Dec.prec in *; lia|].
      destruct (Z.eqb_spec M 0); [contradiction|].
      change (-8 <=? 0) with true. cbn match.
      change (10 ^ (0 - -8)) with 100000000. cbn [Dec.coef].
      assert (Hlen' : Dec.ndigits (Z.abs (M * 100000000)) <= 28)
        by (apply ndigits_le; lia).
      destruct (Z.ltb_spec Dec.prec (Dec.ndigits (Z.abs (M * 100000000))));
        [unfold Dec.prec in *; lia|].
      rewrite fix_exact by lia. rewrite Hkm. reflexivity.
  - (* a fraction *)
    rewrite Z.min_l, Z.max_r in Hlow, Hhigh by lia.
    change (2 ^ 0) with 1 in Hlow, Hhigh. rewrite Z.mul_1_r in Hlow, Hhigh.
    set (b := - bexp) in *.
    assert (Hbpos : 0 < b) by (unfold b; lia).
    assert (H2 : 0 < 2 ^ b) by (apply Z.pow_pos_nonneg; lia).
    assert (H5 : 0 < 5 ^ b) by (apply Z.pow_pos_nonneg; lia).
    assert (H10 : 10 ^ b = 2 ^ b * 5 ^ b) by (apply pow10_two_five; lia).
    set (C := mant * 5 ^ b) in *.
    (* the bounds, scaled by 5 ^ b *)
    assert (HlowC : (10 * k - 5) * 10 ^ b < C * 1000000000).
    { rewrite H10. unfold C.
      apply (Z.mul_lt_mono_pos_r (5 ^ b)) in Hlow; [|exact H5]. lia. }
    assert (HhighC : C * 1000000000 < (10 * k + 5) * 10 ^ b).
    { rewrite H10. unfold C.
      apply (Z.mul_lt_mono_pos_r (5 ^ b)) in Hhigh; [|exact H5]. lia. }
    assert (HP : 0 < 10 ^ b) by (apply Z.pow_pos_nonneg; lia).
    cbn [Dec.coef Dec.expo].
    destruct (Z.eqb_spec C 0) as [Hz|Hnz].
    + assert (k = 0) by nia. subst k. reflexivity.
    + unfold Dec.adjusted, Dec.rescale. cbn [Dec.coef Dec.expo].
      assert (Hlen : Dec.ndigits (Z.abs C) <= 20 + b).
      { apply ndigits_le; [lia|lia|].
        rewrite Z.pow_add_r by lia. change (10 ^ 20) with 100000000000000000000.
        nia. }
      destruct (Z.ltb_spec Dec.prec (bexp + Dec.ndigits (Z.abs C) - 1 - -8 + 1));
        [unfold Dec.prec, b in *; lia|].
      destruct (Z.eqb_spec C 0); [contradiction|].
      assert (Hans : (if -8 <=? bexp
                      then Dec.mk (C * 10 ^ (bexp - -8)) (-8)
                      else Dec.mk (Z.sgn C * Dec.round_half_even (Z.abs C) (-8 - bexp)) (-8))
                     = Dec.mk k (-8)).
      { destruct (Z.leb_spec (-8) bexp) as [Hsmall|Hlarge].
        - f_equal.
          assert (Hsplit : 10 ^ 8 = 10 ^ (bexp - -8) * 10 ^ b)
            by (rewrite <- Z.pow_add_r by (unfold b; lia); f_equal; unfold b; lia).
          change (10 ^ 8) with 100000000 in Hsplit.
          assert (0 < 10 ^ (bexp - -8)) by (apply Z.pow_pos_nonneg; lia).
          nia.
        - f_equal. apply rescale_nearest; [lia|exact Hnz|].
          assert (Hsplit : 10 ^ b = 10 ^ (-8 - bexp) * 10 ^ 8)
            by (rewrite <- Z.pow_add_r by (unfold b; lia); f_equal; unfold b; lia).
          change (10 ^ 8) with 100000000 in Hsplit.
          assert (0 < 10 ^ (-8 - bexp)) by (apply Z.pow_pos_nonneg; lia).
          lia. }
      rewrite Hans. cbn [Dec.coef].
      assert (Hlen' : Dec.ndigits (Z.abs k) <= 28) by (apply ndigits_le; lia).
      destruct (Z.ltb_spec Dec.prec (Dec.ndigits (Z.abs k)));
        [unfold Dec.prec in *; lia|].
      rewrite fix_exact by lia. reflexivity.
Qed.

Lemma utxo_sum_loop (utxos : list TxOut) (satoshi : list Z) :
  Forall2 (fun utxo k =>
             0 <= k /\
             Float.dec_ltb (Dec.mk (10 * k - 5) (-9)) (out_value utxo) = true /\
             Float.dec_gtb (Dec.mk (10 * k + 5) (-9)) (out_value utxo) = true)
          utxos satoshi ->
  0 <= fold_right Z.add 0 satoshi /\
  forall total,
    0 <= total -> total + fold_right Z.add 0 satoshi < 10 ^ 28 ->
    fold_left
      (fun total utxo =>
         utxo_sum <- total ;;
         value <- Dec.quantize (Float.to_dec (out_value utxo)) SATOSHI_PLACES ;;
         Ok (Dec.add utxo_sum value))
      utxos (Ok (Dec.mk total (-8)))
    = Ok (Dec.mk (total + fold_right Z.add 0 satoshi) (-8)).
Proof.
  induction 1 as [|utxo k utxos satoshi (Hk & Hlow & Hhigh) _ [Hsum IH]];
    cbn [fold_right fold_left].
  - split; [lia|]. intros total _ _. rewrite Z.add_0_r. reflexivity.
  - split; [lia|]. intros total Htotal Hbound.
    cbn [bind]. rewrite (quantize_float_nearest _ k) by (assumption || lia).
    cbn [bind]. rewrite add_exact by lia.
    rewrite IH by lia. f_equal. f_equal. lia.
Qed.

(** X20: when the value of every output spent, the double that the JSON
    decoder made of the node's figure, lies strictly within half a
    satoshi of a whole number of satoshi, the total that
    [withdraw_interactive] computes is exactly the sum of these whole
    numbers, with eight places: the imprecision of the doubles never
    reaches the input amount. *)
Theorem X20_utxo_sum_exact (utxos : list TxOut) (satoshi : list Z) :
  Forall2 (fun utxo k =>
             0 <= k /\
             Float.dec_ltb (Dec.mk (10 * k - 5) (-9)) (out_value utxo) = true /\
             Float.dec_gtb (Dec.mk (10 * k + 5) (-9)) (out_value utxo) = true)
          utxos satoshi ->
  fold_right Z.add 0 satoshi < 10 ^ 28 ->
  utxo_sum utxos = Ok (Dec.mk (fold_right Z.add 0 satoshi) (-8)).
Proof.
  intros Hvalues Hbound. unfold utxo_sum.
  destruct (utxo_sum_loop utxos satoshi Hvalues) as [_ Hloop].
  exact (Hloop 0 (Z.le_refl 0) Hbound).
Qed.

Lemma X20_utxo_sum_witness :
  utxo_sum
    ({| out_value := Float.mk 3602879701896397 (-55); out_n := 7;
        out_scriptPubKey := {| spk_address := Some "source"; spk_hex := "a914" |} |}
     :: get_utxos sample_tx "source")
  = Ok (Dec.mk 160000000 (-8)).
Proof.
  apply (X20_utxo_sum_exact _ [10000000; 50000000; 100000000]).
  - repeat (apply Forall2_cons; [split; [lia|split; reflexivity]|]).
    apply Forall2_nil.
  - reflexivity.
Defined.

(** ** Entropy printed and typed back *)

Lemma is_hex_string_no_space (s : string) :
  is_hex_string s = true -> no_space s.
Proof.
  unfold is_hex_string. intros Hhex c Hin ->.
  apply andb_prop in Hhex as [_ Hall].
  rewrite forallb_forall in Hall. specialize (Hall _ Hin). discriminate Hall.
Qed.

(** X21: the line that [entropy] prints for [length] random bytes, the
    hex digits in groups of four, is accepted by
    [read_rng_seed_interactive] for the same [length] when it is typed
    back as printed, and the seed read is the hex string that [xxd]
    produced. *)
Theorem X21_entropy_line_is_accepted (seed : string) (length : Z)
    (stdin : list string) :
  is_hex_string seed = true ->
  Z.of_nat (String.length seed) = 2 * length ->
  exists line,
    entropy_line seed = Ok line /\
    no_space seed /\ unchunk line = seed /\
    read_rng_seed_interactive length (line :: stdin) = (Ok seed, stdin).
Proof.
  intros Hhex Hlen.
  pose proof (is_hex_string_no_space seed Hhex) as Hspace.
  exists (join_with " " (chunks 4 seed)).
  assert (Hback : unchunk (join_with " " (chunks 4 seed)) = seed)
    by (rewrite unchunk_chunks by lia; apply unchunk_id; exact Hspace).
  split; [reflexivity|]. split; [exact Hspace|]. split; [exact Hback|].
  unfold read_rng_seed_interactive. cbn [read_rng_seed_loop]. rewrite Hback.
  destruct (validate_rng_seed_cases seed (length * 2)) as (_ & _ & Haccept).
  rewrite Haccept; [reflexivity|lia| |exact Hhex].
  apply Nat.even_spec. exists (Z.to_nat length). lia.
Qed.

Lemma X21_entropy_line_witness :
  read_rng_seed_interactive 5 ["8f3a 09bc 71"; "next"] = (Ok "8f3a09bc71", ["next"]).
Proof.
  destruct (X21_entropy_line_is_accepted "8f3a09bc71" 5 ["next"] eq_refl eq_refl)
    as (line & Hline & _ & _ & Hread).
  injection Hline as <-. exact Hread.
Defined.
